(** * SignalAnalyze: the waveform analysis core of [oscilloscope_analyzer.py]

    A shallow embedding of [AnalysisWorker] ([load_csv_data],
    [calculate_analysis], [calculate_ringdown], [run]) and of
    [OscilloscopeAnalyzer.evaluate_pass_fail], followed by the properties
    of the specification that concern them.

    Numbers.  A Python float is modelled by the rational ([Q]) it denotes,
    so the model covers finite floats: a capture with an infinite or NaN
    field is outside it.  The two places where binary64 changes the
    control flow of the program are modelled: [v ** 2] raises
    [OverflowError] when the square rounds to infinity, and a quotient
    whose magnitude is at most half the smallest subnormal is [0.0].
    Rounding of the other results is not modelled.  Python exceptions are
    modelled by an error monad; the numpy functions the program calls
    ([np.sqrt], [np.mean], [np.std], [np.log]) and the builtin [float]
    parser are parameters of the model. *)

From Stdlib Require Import List String Ascii Bool Arith ZArith QArith Qabs Lia.
From Stdlib Require Import Sorting.Sorted Lqa.
Import ListNotations.

(** ** Python: exceptions, builtins on numbers and lists *)

Module Py.

Inductive exn : Type :=
| ValueError (msg : string)
| IndexError
| ZeroDivisionError
| OverflowError
| NotFinite.   (* a numpy result that is nan or infinite: no value in [Q] *)

Inductive result (A : Type) : Type :=
| Ok (a : A)
| Raise (e : exn).
Arguments Ok {A} a.
Arguments Raise {A} e.

Definition bind {A B : Type} (c : result A) (k : A -> result B) : result B :=
  match c with
  | Ok a => k a
  | Raise e => Raise e
  end.

(** A [for] loop whose body may raise. *)
Fixpoint for_each {S X : Type} (body : S -> X -> result S) (xs : list X) (s : S)
  : result S :=
  match xs with
  | [] => Ok s
  | x :: xs' => bind (body s x) (for_each body xs')
  end.

(** [x < y] on floats. *)
Definition Qltb (x y : Q) : bool :=
  (Qnum x * QDen y <? Qnum y * QDen x)%Z.

(** [min(l)]: the first item, replaced by each later item that is [<] it. *)
Fixpoint min_from (best : Q) (l : list Q) : Q :=
  match l with
  | [] => best
  | x :: t => min_from (if Qltb x best then x else best) t
  end.

Definition min (l : list Q) : result Q :=
  match l with
  | [] => Raise (ValueError "min() arg is an empty sequence")
  | x :: t => Ok (min_from x t)
  end.

(** [max(l)]: the first item, replaced by each later item that is [>] it. *)
Fixpoint max_from (best : Q) (l : list Q) : Q :=
  match l with
  | [] => best
  | x :: t => max_from (if Qltb best x then x else best) t
  end.

Definition max (l : list Q) : result Q :=
  match l with
  | [] => Raise (ValueError "max() arg is an empty sequence")
  | x :: t => Ok (max_from x t)
  end.

(** [l.index(x)]: position of the first item equal to [x]. *)
Fixpoint index_from (i : nat) (x : Q) (l : list Q) : result nat :=
  match l with
  | [] => Raise (ValueError "x is not in list")
  | y :: t => if Qeq_bool y x then Ok i else index_from (S i) x t
  end.

Definition index (l : list Q) (x : Q) : result nat := index_from 0 x l.

(** [l[i]] for [i >= 0]. *)
Definition getitem {A : Type} (l : list A) (i : nat) : result A :=
  match nth_error l i with
  | Some a => Ok a
  | None => Raise IndexError
  end.

(** [l[-1]]. *)
Fixpoint getlast {A : Type} (l : list A) : result A :=
  match l with
  | [] => Raise IndexError
  | [a] => Ok a
  | _ :: t => getlast t
  end.

(** [l[a:b]] for [0 <= a] and [0 <= b]. *)
Definition slice {A : Type} (l : list A) (a b : nat) : list A :=
  firstn (b - a) (skipn a l).

(** [range(a, b)]. *)
Definition range (a b : nat) : list nat := seq a (b - a).

(** [map f xs] for an [f] that may raise: a list comprehension. *)
Fixpoint map_each {X Y : Type} (f : X -> result Y) (xs : list X) : result (list Y) :=
  match xs with
  | [] => Ok []
  | x :: xs' => bind (f x) (fun y => bind (map_each f xs') (fun ys => Ok (y :: ys)))
  end.

(** *** The range of binary64 *)

(** The largest finite float, [(2 - 2^-52) * 2^1023]. *)
Definition float_max : Q := inject_Z (2 ^ 1024 - 2 ^ 971).

(** The reals from this bound on round to infinity: the largest float plus
    half the distance to its predecessor. *)
Definition overflow_bound : Q := inject_Z (2 ^ 1024 - 2 ^ 970).

(** Half the smallest positive float, [2^-1075]: the reals of at most this
    magnitude round to zero. *)
Definition underflow_bound : Q := 1 # (2 ^ 1075).

(** A value a float can hold. *)
Definition finite (x : Q) : Prop := Qabs x <= float_max.

Definition rounds_to_zero (x : Q) : bool := Qle_bool (Qabs x) underflow_bound.

(** The quotient as the float division returns it, as far as zero goes. *)
Definition flush (x : Q) : Q := if rounds_to_zero x then 0 else x.

(** [x / y] on floats: [ZeroDivisionError] on a zero divisor, else the
    quotient, which is [0.0] where it rounds to zero. *)
Definition div (x y : Q) : result Q :=
  if Qeq_bool y 0 then Raise ZeroDivisionError else Ok (flush (x / y)).

(** [v ** 2] on a float: Python raises [OverflowError] where the result
    is out of range. *)
Definition square_overflows (v : Q) : bool := Qle_bool overflow_bound (v * v).

Definition pow2 (v : Q) : result Q :=
  if square_overflows v then Raise OverflowError else Ok (v ^ 2).

(** [len(l)] used as a float. *)
Definition len_Q {A : Type} (l : list A) : Q := inject_Z (Z.of_nat (List.length l)).

(** *** Strings *)

(** [needle in hay]. *)
Fixpoint contains (needle hay : string) : bool :=
  if String.prefix needle hay then true
  else match hay with
       | EmptyString => false
       | String _ hay' => contains needle hay'
       end.

(** [str.isspace] on one character (code points below 256). *)
Definition isspace (c : ascii) : bool :=
  let n := nat_of_ascii c in
  ((9 <=? n) && (n <=? 13)) || ((28 <=? n) && (n <=? 32))
  || (n =? 133) || (n =? 160).

Fixpoint lstrip (s : string) : string :=
  match s with
  | EmptyString => EmptyString
  | String c s' => if isspace c then lstrip s' else s
  end.

Fixpoint rstrip (s : string) : string :=
  match s with
  | EmptyString => EmptyString
  | String c s' =>
      match rstrip s' with
      | EmptyString => if isspace c then EmptyString else String c EmptyString
      | r => String c r
      end
  end.

(** [s.strip()]. *)
Definition strip (s : string) : string := rstrip (lstrip s).

(** [s.split(sep)] for a one-character separator. *)
Fixpoint split (sep : ascii) (s : string) : list string :=
  match s with
  | EmptyString => [EmptyString]
  | String c s' =>
      if Ascii.eqb c sep then EmptyString :: split sep s'
      else match split sep s' with
           | [] => [String c EmptyString]
           | h :: t => String c h :: t
           end
  end.

Definition newline : ascii := "010"%char.

(** [file.readlines()] on the text of the file (after the translation of
    line ends that text mode performs): each line keeps its ["\n"]. *)
Fixpoint readlines (text : string) : list string :=
  match text with
  | EmptyString => []
  | String c rest =>
      if Ascii.eqb c newline then String c EmptyString :: readlines rest
      else match readlines rest with
           | [] => [String c EmptyString]
           | l :: ls => String c l :: ls
           end
  end.

End Py.

Import Py.

Declare Scope py_scope.
Delimit Scope py_scope with py.
Notation "x <- c ;; k" := (bind c (fun x => k))
  (at level 61, c at next level, right associativity) : py_scope.
Local Open Scope py_scope.

(** ** Data model: the dictionaries the worker builds *)

(** One parsed row: [{'time': ..., 'ch1': ..., 'ch2': ...}], with finite
    floats as values. *)
Record sample : Type := mk_sample {
  time : Q;
  ch1 : Q;
  ch2 : Q
}.

(** One entry of [trigger_points]. *)
Record trigger_point : Type := mk_trigger_point {
  tp_time : Q;
  tp_index : nat;
  tp_current : Q
}.

(** The value of [calculate_ringdown]. *)
Record ringdown_result : Type := mk_ringdown {
  ringdown_voltage : Q;
  decay_constant : Q
}.

Record ch1_stats : Type := mk_ch1 {
  ch1_min : Q;
  ch1_max : Q;
  ch1_peak_to_peak : Q;
  ch1_rms : Q;
  ch1_noise : Q;
  ch1_ringdown : ringdown_result
}.

Record ch2_stats : Type := mk_ch2 {
  ch2_min : Q;
  ch2_max : Q;
  ch2_peak_to_peak : Q;
  ch2_rms : Q
}.

Record trigger_info : Type := mk_trigger {
  trigger_threshold : Q;
  trigger_points : list trigger_point;
  trigger_count : nat
}.

Record metadata : Type := mk_metadata {
  data_points : nat;
  sample_rate : Q;
  duration : Q;
  time_start : Q;
  time_end : Q
}.

Record analysis_record : Type := mk_analysis {
  raw_data : list sample;
  an_ch1 : ch1_stats;
  an_ch2 : ch2_stats;
  an_trigger : trigger_info;
  an_metadata : metadata
}.

(** The value of [calculate_analysis]: the empty dictionary [{}] or the
    dictionary with all five keys. *)
Inductive analysis : Type :=
| EmptyDict
| Filled (a : analysis_record).

(** Truth value of an analysis dictionary ([if not analysis_data]). *)
Definition truthy (a : analysis) : bool :=
  match a with
  | EmptyDict => false
  | Filled _ => true
  end.

(** ** AnalysisWorker *)

Definition header_marker : string := "TIME,CH1,CH2".
Definition header_error : exn := ValueError "Could not find data header in CSV file".

(** The first loop of [load_csv_data]: [data_start] stays [-1] unless a
    line contains the marker, and the loop stops at the first such line. *)
Fixpoint find_data_start (i : Z) (lines : list string) : Z :=
  match lines with
  | [] => (-1)%Z
  | line :: rest =>
      if contains header_marker line then i else find_data_start (i + 1)%Z rest
  end.

(** [lines[k:]] for [k >= 0]. *)
Definition lines_from (k : Z) (lines : list string) : list string :=
  skipn (Z.to_nat k) lines.

Section Worker.

(** [float(s)] of Python on the literal of a finite float: [None] stands
    for its [ValueError]. *)
Variable float : string -> option Q.
(** [np.sqrt] on a non-negative argument, [np.log] on a positive one. *)
Variable np_sqrt : Q -> Q.
Variable ln : Q -> Q.
(** [np.mean] and [np.std] of a list of floats. *)
Variable np_mean : list Q -> Q.
Variable np_std : list Q -> Q.

Definition py_float (s : string) : result Q :=
  match float s with
  | Some q => Ok q
  | None => Raise (ValueError "could not convert string to float")
  end.

(** The [try] block of the row loop. *)
Definition parse_parts (parts : list string) : result sample :=
  p0 <- getitem parts 0 ;;
  f0 <- py_float p0 ;;
  let time := f0 * 1000 in
  p1 <- getitem parts 1 ;;
  ch1 <- py_float p1 ;;
  p2 <- getitem parts 2 ;;
  ch2 <- py_float p2 ;;
  Ok (mk_sample time ch1 ch2).

(** Body of the row loop: [data] after one more [line]. *)
Definition load_row (data : list sample) (line : string) : result (list sample) :=
  let line := strip line in
  match line with
  | EmptyString => Ok data
  | _ =>
      let parts := split ","%char line in
      if 3 <=? List.length parts then
        match parse_parts parts with
        | Ok s => Ok (data ++ [s])
        | Raise (ValueError _) => Ok data          (* except ValueError: continue *)
        | Raise e => Raise e
        end
      else Ok data
  end.

(** [load_csv_data], on the text of the file. *)
Definition load_csv_data (text : string) : result (list sample) :=
  let lines := readlines text in
  let data_start := find_data_start 0 lines in
  if (data_start =? -1)%Z then Raise header_error
  else for_each load_row (lines_from (data_start + 1) lines) [].

(** [np.log(x)]: finite exactly on positive arguments. *)
Definition np_log (x : Q) : result Q :=
  if Qltb 0 x then Ok (ln x) else Raise NotFinite.

Definition sentinel : ringdown_result := mk_ringdown 0 0.

Definition calculate_ringdown (values : list Q) : result ringdown_result :=
  if (Z.of_nat (List.length values) <? 50)%Z then Ok sentinel
  else
    let abs_values := map Qabs values in
    m <- max abs_values ;;
    max_idx <- index abs_values m ;;
    if (Z.of_nat max_idx >=? Z.of_nat (List.length values) - 20)%Z then Ok sentinel
    else
      let decay_segment :=
        slice values max_idx (Nat.min (max_idx + 100) (List.length values)) in
      first <- getitem decay_segment 0 ;;
      let initial_amp := Qabs first in
      last <- getlast decay_segment ;;
      let final_amp := Qabs last in
      let ringdown_voltage := (initial_amp - final_amp) * 1000 in
      dc <- (if Qltb final_amp initial_amp && Qltb 0 final_amp
             then ratio <- div initial_amp final_amp ;;
                  l <- np_log ratio ;;
                  Ok (l / len_Q decay_segment)
             else Ok 0) ;;
      Ok (mk_ringdown ringdown_voltage dc).

(** State of the trigger loop: [(trigger_points, in_trigger)]. *)
Definition trigger_state : Type := (list trigger_point * bool)%type.

(** Body of [for i in range(1, len(data))]. *)
Definition trigger_body (data : list sample) (trigger_threshold : Q)
    (st : trigger_state) (i : nat) : result trigger_state :=
  let '(trigger_points, in_trigger) := st in
  prev <- getitem data (i - 1) ;;
  let prev_current := Qabs (ch2 prev) in
  cur <- getitem data i ;;
  let current_current := Qabs (ch2 cur) in
  if negb in_trigger && Qltb trigger_threshold current_current
     && Qle_bool prev_current trigger_threshold
  then Ok (trigger_points ++ [mk_trigger_point (time cur) i (ch2 cur)], true)
  else if in_trigger && Qle_bool current_current trigger_threshold
  then Ok (trigger_points, false)
  else Ok (trigger_points, in_trigger).

(** The trigger loop, from its start to the end of [range(1, stop)]. *)
Definition trigger_loop (data : list sample) (trigger_threshold : Q) (stop : nat)
  : result trigger_state :=
  for_each (trigger_body data trigger_threshold) (range 1 stop) ([], false).

Definition calculate_analysis (data : list sample) (trigger_threshold : Q)
  : result analysis :=
  match data with
  | [] => Ok EmptyDict
  | _ =>
      let times := map time data in
      let ch1_values := map ch1 data in
      let ch2_values := map ch2 data in
      ch1_min <- min ch1_values ;;
      ch1_max <- max ch1_values ;;
      let ch1_peak_to_peak := (ch1_max - ch1_min) * 1000 in
      ch2_min <- min ch2_values ;;
      ch2_max <- max ch2_values ;;
      let ch2_peak_to_peak := ch2_max - ch2_min in
      ch1_squares <- map_each pow2 ch1_values ;;
      let ch1_rms := np_sqrt (np_mean ch1_squares) in
      ch2_squares <- map_each pow2 ch2_values ;;
      let ch2_rms := np_sqrt (np_mean ch2_squares) in
      let ch1_noise := np_std ch1_values * 1000 in
      st <- trigger_loop data trigger_threshold (List.length data) ;;
      let trigger_points := fst st in
      ringdown <- calculate_ringdown ch1_values ;;
      sample_rate <-
        (if 1 <? List.length times then
           tmax <- max times ;;
           tmin <- min times ;;
           let duration := tmax - tmin in
           if Qltb 0 duration then
             secs <- div duration 1000 ;;
             div (len_Q times) secs
           else Ok 0
         else Ok 0) ;;
      md_duration <-
        (match times with
         | [] => Ok 0
         | _ => tmax <- max times ;; tmin <- min times ;; Ok (tmax - tmin)
         end) ;;
      md_start <- (match times with [] => Ok 0 | _ => min times end) ;;
      md_end <- (match times with [] => Ok 0 | _ => max times end) ;;
      Ok (Filled
            (mk_analysis data
               (mk_ch1 ch1_min ch1_max ch1_peak_to_peak ch1_rms ch1_noise ringdown)
               (mk_ch2 ch2_min ch2_max ch2_peak_to_peak ch2_rms)
               (mk_trigger trigger_threshold trigger_points (List.length trigger_points))
               (mk_metadata (List.length data) sample_rate md_duration
                  md_start md_end)))
  end.

(** [run]: the value handed to [finished.emit]; any exception ends in
    [finished.emit({})]. *)
Definition run (text : string) (trigger_current : Q) : analysis :=
  match (data <- load_csv_data text ;; calculate_analysis data trigger_current) with
  | Ok analysis => analysis
  | Raise _ => EmptyDict
  end.

End Worker.

(** [on_analysis_finished] raises the "Failed to analyze data." box exactly
    when the emitted dictionary is falsy. *)
Definition reports_failure (analysis_data : analysis) : bool :=
  negb (truthy analysis_data).

(** ** OscilloscopeAnalyzer.evaluate_pass_fail *)

(** The keys of [test_type_configs], the items of the test-type combo box. *)
Inductive test_type : Type := DTT | DTR | DC02 | DC03_Skid | IDOD.

(** [test_type_configs[t].get('has_ringdown', False)]. *)
Definition has_ringdown (t : test_type) : bool :=
  match t with
  | DC02 => true
  | DTT | DTR | DC03_Skid | IDOD => false
  end.

(** The widget values [evaluate_pass_fail] reads. *)
Record window : Type := mk_window {
  current_analysis : option analysis;      (* [None] before the first run *)
  test_type_combo : test_type;
  trigger_current_spin : Q;
  peak_lsl_spin : Q;
  peak_usl_spin : Q;
  trigger_lsl_spin : Q;
  trigger_usl_spin : Q;
  noise_lsl_spin : Q;
  noise_usl_spin : Q;
  ringdown_lsl_spin : Q;
  ringdown_usl_spin : Q
}.

(** The dictionary [{'overall': ..., 'details': ...}]; [details] keeps the
    insertion order of the Python dictionary. *)
Record verdict : Type := mk_verdict {
  overall : string;
  details : list (string * bool)
}.

(** The chained comparison [lsl <= v <= usl]. *)
Definition within (lsl v usl : Q) : bool := Qle_bool lsl v && Qle_bool v usl.

(** [all(results.values())]. *)
Definition all_values (results : list (string * bool)) : bool := forallb snd results.

(** [results[key]]. *)
Fixpoint lookup (key : string) (results : list (string * bool)) : option bool :=
  match results with
  | [] => None
  | (k, v) :: rest => if String.eqb k key then Some v else lookup key rest
  end.

Definition evaluate_pass_fail (self : window) : verdict :=
  match current_analysis self with
  | None | Some EmptyDict => mk_verdict "unknown" []
  | Some (Filled a) =>
      let ch1 := an_ch1 a in
      let results :=
        [ ("peak_to_peak"%string,
            within (peak_lsl_spin self) (ch1_peak_to_peak ch1) (peak_usl_spin self));
          ("trigger_current"%string,
            within (trigger_lsl_spin self) (trigger_current_spin self)
                   (trigger_usl_spin self));
          ("noise"%string,
            within (noise_lsl_spin self) (ch1_noise ch1) (noise_usl_spin self)) ] in
      let results :=
        if has_ringdown (test_type_combo self) then
          let ringdown_voltage := ringdown_voltage (ch1_ringdown ch1) in
          results ++ [("ringdown"%string,
                        within (ringdown_lsl_spin self) ringdown_voltage
                               (ringdown_usl_spin self))]
        else results ++ [("ringdown"%string, true)] in
      let overall := (if all_values results then "pass" else "fail")%string in
      mk_verdict overall results
  end.

(** ** Vocabulary of the specification *)

(** The two states of the trigger detector. *)
Inductive detector_state : Type := BelowOrAt | Above.

Definition state_of (in_trigger : bool) : detector_state :=
  if in_trigger then Above else BelowOrAt.

(** One move of the detector as the specification words it: it leaves
    [BelowOrAt] at a sample whose magnitude is above the threshold while
    the magnitude of the sample before is at or below it, and it falls
    back from [Above] at a sample whose magnitude is at or below the
    threshold. *)
Definition detector_step (thr : Q) (st : detector_state) (previous current : Q)
  : detector_state :=
  match st with
  | BelowOrAt => if Qle_bool previous thr && Qltb thr current then Above else BelowOrAt
  | Above => if Qle_bool current thr then BelowOrAt else Above
  end.

(** [m] is the greatest (smallest) item of [l]. *)
Definition is_maximum (l : list Q) (m : Q) : Prop :=
  In m l /\ forall x, In x l -> x <= m.

Definition is_minimum (l : list Q) (m : Q) : Prop :=
  In m l /\ forall x, In x l -> m <= x.

(** Index of maximum absolute value: the first position whose magnitude
    no other sample exceeds. *)
Fixpoint peak_index (values : list Q) : nat :=
  match values with
  | [] => 0
  | v :: rest =>
      if forallb (fun w => Qle_bool (Qabs w) (Qabs v)) rest then 0
      else S (peak_index rest)
  end.

(** The ringdown estimate as the specification words it. *)
Definition ringdown_reference (ln : Q -> Q) (values : list Q) : ringdown_result :=
  let n := List.length values in
  let peak := peak_index values in
  if (n <? 50) || (n - 20 <=? peak) then mk_ringdown 0 0
  else
    let window := firstn 100 (skipn peak values) in
    let initial_amplitude := Qabs (hd 0 window) in
    let final_amplitude := Qabs (List.last window 0) in
    mk_ringdown
      ((initial_amplitude - final_amplitude) * 1000)
      (if Qltb final_amplitude initial_amplitude && Qltb 0 final_amplitude
       then ln (initial_amplitude / final_amplitude)
            / inject_Z (Z.of_nat (List.length window))
       else 0).

(** A row the parser keeps: non-blank, at least three comma-separated
    fields, the first three of them numeric. *)
Definition valid_row (float : string -> option Q) (line : string) : Prop :=
  exists f0 f1 f2 rest t a b,
    split ","%char (strip line) = f0 :: f1 :: f2 :: rest /\
    strip line <> EmptyString /\
    float f0 = Some t /\ float f1 = Some a /\ float f2 = Some b.

(** The sample rate the code stores when it returns, as one expression. *)
Definition sample_rate_of (times : list Q) (tmax tmin : Q) : Q :=
  if 1 <? List.length times then
    if Qltb 0 (tmax - tmin) then flush (len_Q times / ((tmax - tmin) / 1000)) else 0
  else 0.

(** No square of [values] is out of the range of a float. *)
Definition squares_fit (values : list Q) : bool :=
  forallb (fun v => negb (square_overflows v)) values.

(** The capture lasts a positive time whose thousandth rounds to zero. *)
Definition rate_underflows (times : list Q) (tmax tmin : Q) : bool :=
  (1 <? List.length times) && Qltb 0 (tmax - tmin)
  && rounds_to_zero ((tmax - tmin) / 1000).

(** A capture of finite floats: every field of every sample is within
    the range of a float. *)
Definition finite_sample (s : sample) : Prop :=
  finite (time s) /\ finite (ch1 s) /\ finite (ch2 s).

Definition finite_capture (data : list sample) : Prop :=
  forall s, In s data -> finite_sample s.

(** The text that a list of lines spells. *)
Definition join (lines : list string) : string :=
  fold_right String.append EmptyString lines.

(** *** The trigger loop without exceptions

    Inside [range(1, len(data))] no subscript of the loop is out of range;
    there the body is the following total step. *)

Definition sample_at (data : list sample) (i : nat) : sample :=
  nth i data (mk_sample 0 0 0).

(** Magnitude of channel 2 at index [i]. *)
Definition magnitude (data : list sample) (i : nat) : Q :=
  Qabs (ch2 (sample_at data i)).

(** The detector of the specification once it has read the samples
    [1 .. n]: it starts in [BelowOrAt], and the scan starts at the second
    sample. *)
Fixpoint detector_after (data : list sample) (thr : Q) (n : nat) : detector_state :=
  match n with
  | O => BelowOrAt
  | S m =>
      detector_step thr (detector_after data thr m)
        (magnitude data m) (magnitude data (S m))
  end.

(** Its state when it reaches index [i]. *)
Definition detector_before (data : list sample) (thr : Q) (i : nat) : detector_state :=
  detector_after data thr (i - 1).

(** Rising crossing at [i]: above the threshold now, at or below it one
    sample earlier. *)
Definition crosses (data : list sample) (thr : Q) (i : nat) : bool :=
  Qltb thr (magnitude data i) && Qle_bool (magnitude data (i - 1)) thr.

Definition event_at (data : list sample) (i : nat) : trigger_point :=
  mk_trigger_point (time (sample_at data i)) i (ch2 (sample_at data i)).

Definition trigger_step (data : list sample) (thr : Q) (st : trigger_state) (i : nat)
  : trigger_state :=
  let '(points, in_trigger) := st in
  if negb in_trigger && crosses data thr i then (points ++ [event_at data i], true)
  else if in_trigger && Qle_bool (magnitude data i) thr then (points, false)
  else (points, in_trigger).

(** State after the iterations [1 .. n]. *)
Definition scan (data : list sample) (thr : Q) (n : nat) : trigger_state :=
  fold_left (trigger_step data thr) (seq 1 n) ([], false).

(** The loop emits at [i]: it is not in a trigger when it reaches [i], and
    [i] is a rising crossing. *)
Definition fires (data : list sample) (thr : Q) (i : nat) : bool :=
  negb (snd (scan data thr (i - 1))) && crosses data thr i.

(** ** Concrete instances, to run the model *)

(** A [float] for plain decimal literals: optional sign, digits, at most
    one point, surrounding blanks ignored. *)
Definition digit_value (c : ascii) : option Z :=
  let n := nat_of_ascii c in
  if (48 <=? n) && (n <=? 57) then Some (Z.of_nat (n - 48)) else None.

Fixpoint scan_decimal (s : string) (num : Z) (den : positive) (seen_point : bool)
    (ndigits : nat) : option Q :=
  match s with
  | EmptyString => if 0 <? ndigits then Some (Qred (num # den)) else None
  | String c s' =>
      if Ascii.eqb c "."%char then
        if seen_point then None else scan_decimal s' num den true ndigits
      else
        match digit_value c with
        | Some d =>
            scan_decimal s' (10 * num + d)%Z
              (if seen_point then (10 * den)%positive else den) seen_point (S ndigits)
        | None => None
        end
  end.

Definition decimal_float (s : string) : option Q :=
  match strip s with
  | String c s' =>
      if Ascii.eqb c "-"%char then option_map Qopp (scan_decimal s' 0 1 false 0)
      else if Ascii.eqb c "+"%char then scan_decimal s' 0 1 false 0
      else scan_decimal (String c s') 0 1 false 0
  | EmptyString => None
  end.

(** The mean and the standard deviation in exact arithmetic, and rational
    approximations of [np.sqrt] (Newton steps) and [np.log] (the series of
    [2 * atanh ((x - 1) / (x + 1))]). *)
Definition approx_sqrt (x : Q) : Q :=
  if Qltb 0 x
  then Nat.iter 6 (fun y => Qred ((y + x / y) / 2)) (Qred ((x + 1) / 2))
  else 0.

Definition approx_ln (x : Q) : Q :=
  if Qltb 0 x then
    let t := Qred ((x - 1) / (x + 1)) in
    Qred (2 * fold_left (fun acc k => acc + t ^ (2 * Z.of_nat k + 1)
                                         / inject_Z (2 * Z.of_nat k + 1))
                (seq 0 6) 0)
  else 0.

Definition exact_mean (l : list Q) : Q := fold_left Qplus l 0 / len_Q l.

Definition approx_std (l : list Q) : Q :=
  let m := exact_mean l in
  approx_sqrt (exact_mean (map (fun v => Qabs (v - m) ^ 2) l)).

Definition nl : string := String newline EmptyString.

Definition text_of_lines (lines : list string) : string :=
  fold_right (fun l acc => String.append l (String.append nl acc)) EmptyString lines.

(** The example capture of the specification. *)
Definition example_text : string :=
  text_of_lines ["TIME,CH1,CH2"; "0.000,0.10,0.0"; "0.001,0.30,2.0"; "0.002,0.05,0.5"]%string.

(** A capture that holds the header row and nothing else. *)
Definition header_only_text : string := text_of_lines ["TIME,CH1,CH2"]%string.

(** A capture whose header row is missing. *)
Definition headerless_text : string :=
  text_of_lines ["0.000,0.10,0.0"; "0.001,0.30,2.0"]%string.

(** A capture with a preamble, the header row, and rows the parser skips:
    a blank one, one with two fields, one whose third field is no number. *)
Definition skipped_rows_text : string :=
  text_of_lines ["scope export"; "TIME,CH1,CH2"; ""; "0.001,0.30"; "0.002,0.05,amps"]%string.

(** The analysis of the example capture at a threshold of 1. *)
Definition example_analysis : analysis :=
  Eval vm_compute in run decimal_float approx_sqrt approx_ln exact_mean approx_std example_text 1.

(** The window with the limits it starts with, after a run. *)
Definition window_after (a : analysis) (t : test_type) : window :=
  mk_window (Some a) t 1 150 400 30 80 0 5 0 100.

(** Sixty channel-1 samples that decay from their first value:
    [1, 1/2, ..., 1/60]. *)
Definition decaying_values : list Q :=
  map (fun k => 1 # Pos.of_nat (S k)) (seq 0 60).

(** Samples whose time column runs backwards. *)
Definition backwards_data : list sample :=
  [ mk_sample 3 0 0; mk_sample 2 0 2; mk_sample 1 0 0; mk_sample 0 0 2 ].

(** Two bursts above a threshold of 1, with one quiet sample in between. *)
Definition two_bursts : list sample :=
  [ mk_sample 0 0 0; mk_sample 1 0 2; mk_sample 2 0 (-3); mk_sample 3 0 (1 # 2);
    mk_sample 4 0 (-2); mk_sample 5 0 0 ].

(** ** Further vocabulary: rows, mirrored captures *)

(** [line] is a valid row and [s] is the sample it stands for: the time is
    scaled to milliseconds, the channels are passed through. *)
Definition row_sample (float : string -> option Q) (line : string) (s : sample)
  : Prop :=
  exists f0 f1 f2 rest t a b,
    split ","%char (strip line) = f0 :: f1 :: f2 :: rest /\
    strip line <> EmptyString /\
    float f0 = Some t /\ float f1 = Some a /\ float f2 = Some b /\
    s = mk_sample (t * 1000) a b.

(** The samples of the valid rows of [lines], in the order of the lines. *)
Inductive kept_rows (float : string -> option Q)
  : list string -> list sample -> Prop :=
| kept_nil : kept_rows float [] []
| kept_skip (line : string) (lines : list string) (data : list sample) :
    ~ valid_row float line -> kept_rows float lines data ->
    kept_rows float (line :: lines) data
| kept_row (line : string) (lines : list string) (s : sample) (data : list sample) :
    row_sample float line s -> kept_rows float lines data ->
    kept_rows float (line :: lines) (s :: data).

(** No character of [s] is a line feed. *)
Fixpoint no_newline (s : string) : bool :=
  match s with
  | EmptyString => true
  | String c s' => negb (Ascii.eqb c newline) && no_newline s'
  end.

(** The capture with the sign of channel 2 flipped, and an event with the
    sign of its current flipped. *)
Definition mirror (data : list sample) : list sample :=
  map (fun s => mk_sample (time s) (ch1 s) (- ch2 s)) data.

Definition mirror_event (e : trigger_point) : trigger_point :=
  mk_trigger_point (tp_time e) (tp_index e) (- tp_current e).

(** ** MatplotlibWidget.plot_data and OscilloscopeAnalyzer.update_chart *)

(** [int(a / b)] for ints [a] and [b]: the quotient truncated toward zero. *)
Definition int_of_quotient (a b : Z) : Z := Z.quot a b.

(** A bound of a slice brought into [0 .. len]: negative bounds count from
    the end. *)
Definition slice_bound (len i : Z) : Z :=
  if (i <? 0)%Z then Z.max 0 (len + i) else Z.min i len.

(** [l[a:b]] for any ints [a] and [b]. *)
Definition slice_int {A : Type} (l : list A) (a b : Z) : list A :=
  let len := Z.of_nat (List.length l) in
  slice l (Z.to_nat (slice_bound len a)) (Z.to_nat (slice_bound len b)).

(** What [plot_data] draws: the two curves over [plot_times], the two
    dashed threshold lines of the lower axes, and one dotted vertical line
    per entry of [markers]. *)
Record chart : Type := mk_chart {
  plot_times : list Q;
  plot_ch1 : list Q;
  plot_ch2 : list Q;
  threshold_lines : list Q;
  markers : list Q
}.

(** [start_idx <= point['index'] < end_idx]. *)
Definition in_zoom (start_idx end_idx : Z) (point : trigger_point) : bool :=
  (start_idx <=? Z.of_nat (tp_index point))%Z
  && (Z.of_nat (tp_index point) <? end_idx)%Z.

(** [plot_data]: [None] is the cleared figure drawn as it is. *)
Definition plot_data (analysis_data : analysis) (trigger_current : Q)
    (zoom_range : Z * Z) : option chart :=
  match analysis_data with
  | EmptyDict => None
  | Filled a =>
      let data := raw_data a in
      match data with
      | [] => None
      | _ =>
          let times := map time data in
          let ch1_values := map ch1 data in
          let ch2_values := map ch2 data in
          let start_idx :=
            int_of_quotient (Z.of_nat (List.length data) * fst zoom_range) 100 in
          let end_idx :=
            int_of_quotient (Z.of_nat (List.length data) * snd zoom_range) 100 in
          let plot_times := slice_int times start_idx end_idx in
          let plot_ch1 := slice_int ch1_values start_idx end_idx in
          let plot_ch2 := slice_int ch2_values start_idx end_idx in
          let trigger_points := trigger_points (an_trigger a) in
          Some (mk_chart plot_times plot_ch1 plot_ch2
                  [trigger_current; - trigger_current]
                  (map tp_time (filter (in_zoom start_idx end_idx) trigger_points)))
      end
  end.

(** [update_chart], with the values of the two zoom spin boxes. *)
Definition update_chart (self : window) (zoom_start_spin zoom_end_spin : Z)
  : option chart :=
  match current_analysis self with
  | Some (Filled a) =>
      plot_data (Filled a) (trigger_current_spin self)
        (zoom_start_spin, zoom_end_spin)
  | Some EmptyDict | None => None
  end.

(** A capture with a preamble, two valid rows and two rows the parser
    skips between them. *)
Definition mixed_text : string :=
  text_of_lines ["scope export"; "TIME,CH1,CH2"; "0.001,0.30,2.0"; "";
                 "oops"; "0.002,0.05,0.5"]%string.

(** A capture of one sample whose channel-1 value is [1e200], and the
    file that holds it. *)
Definition overflow_data : list sample := [ mk_sample 0 (inject_Z (10 ^ 200)) 0 ].

Fixpoint zeros (n : nat) : string :=
  match n with
  | O => EmptyString
  | S m => String "0"%char (zeros m)
  end.

Definition overflow_text : string :=
  text_of_lines ["TIME,CH1,CH2"%string;
                 String.append "0,1" (String.append (zeros 200) ",0")].

(** Two samples whose times are [0.0] and the float [1e-322], which is
    [20 * 2^-1074]. *)
Definition underflow_data : list sample :=
  [ mk_sample 0 0 0; mk_sample (20 # (2 ^ 1074)) 0 0 ].

(** A capture that is above a threshold of 1 from its first sample on, falls
    below it at index 3 and rises again at index 4. *)
Definition burst_at_start : list sample :=
  [ mk_sample 0 0 2; mk_sample 1 0 3; mk_sample 2 0 2; mk_sample 3 0 0;
    mk_sample 4 0 2 ].

(** ** Database rows, table names, and OscilloscopeAnalyzer.save_analysis *)

(** The Python values that go into and come out of the database. *)
Inductive value : Type :=
| VNone                                (* None, SQL NULL *)
| VStr (s : string)
| VNum (q : Q)                         (* int, float, Decimal *)
| VDate (day : Z)                      (* datetime.date, as a day number *)
| VTimestamp (day : Z) (second : Z).   (* datetime.datetime *)

(** A dictionary with string keys, in insertion order. *)
Definition row : Type := list (string * value).

(** [r.get(key, default)]; [r.get(key)] is [get_or r key VNone]. *)
Fixpoint get_or (r : row) (key : string) (default : value) : value :=
  match r with
  | [] => default
  | (k, v) :: rest => if String.eqb k key then v else get_or rest key default
  end.

(** [list(data.keys())]. *)
Definition keys (r : row) : list string := map fst r.

(** [s.lower()] and [s.upper()] on ASCII letters. *)
Definition lower_char (c : ascii) : ascii :=
  let n := nat_of_ascii c in
  if (65 <=? n) && (n <=? 90) then ascii_of_nat (n + 32) else c.

Definition upper_char (c : ascii) : ascii :=
  let n := nat_of_ascii c in
  if (97 <=? n) && (n <=? 122) then ascii_of_nat (n - 32) else c.

Fixpoint lower (s : string) : string :=
  match s with
  | EmptyString => EmptyString
  | String c s' => String (lower_char c) (lower s')
  end.

Fixpoint upper (s : string) : string :=
  match s with
  | EmptyString => EmptyString
  | String c s' => String (upper_char c) (upper s')
  end.

(** [s.replace(old, new)] for a non-empty [old]: the occurrences of [old]
    are replaced from left to right, without overlap.  [skip] counts the
    characters of a matched occurrence that are still to be passed. *)
Fixpoint replace_from (skip : nat) (old new s : string) : string :=
  match s with
  | EmptyString => EmptyString
  | String c rest =>
      match skip with
      | S k => replace_from k old new rest
      | O =>
          if String.prefix old s
          then String.append new (replace_from (String.length old - 1) old new rest)
          else String c (replace_from 0 old new rest)
      end
  end.

Definition replace (old new s : string) : string := replace_from 0 old new s.

(** [sep.join(items)]. *)
Fixpoint join_with (sep : string) (items : list string) : string :=
  match items with
  | [] => EmptyString
  | [x] => x
  | x :: rest => String.append x (String.append sep (join_with sep rest))
  end.

(** The text of the items of [test_type_combo], the keys of
    [test_type_configs]. *)
Definition test_type_name (t : test_type) : string :=
  match t with
  | DTT => "DTT"
  | DTR => "DTR"
  | DC02 => "DC02"
  | DC03_Skid => "DC03 Skid"
  | IDOD => "IDOD"
  end.

Definition all_test_types : list test_type := [DTT; DTR; DC02; DC03_Skid; IDOD].

Definition dut_label (t : test_type) : string :=
  match t with
  | DTT => "DTT (SV/33053/0020) [DUT]"
  | DTR => "DTR (SV/33053/0031) [DUT]"
  | DC02 => "DC02 Innerblock (SV/103003/0016) [DUT]"
  | DC03_Skid => "DC03 Skid (SV/102503/0026) [DUT]"
  | IDOD => "IDOD skid [DUT]"
  end.

Definition reference_label (t : test_type) : string :=
  match t with
  | DTT => "DTR (SV/33053/0031) [Reference]"
  | DTR => "DTT (SV/33053/0020) [Reference]"
  | DC02 => "DCbox (SV/102603/0033) [Reference]"
  | DC03_Skid => "DC03 Innerblock (SV/33053/0029) [Reference]"
  | IDOD => "IDOD Innerblock (SV/33053/0028) [Reference]"
  end.

(** [test_type_configs[t].get('has_skid_plate', False)]. *)
Definition has_skid_plate (t : test_type) : bool :=
  match t with
  | IDOD => true
  | DTT | DTR | DC02 | DC03_Skid => false
  end.

(** The table name of [DatabaseManager.save_analysis] and [get_results]:
    [f"{test_type.lower().replace(' ', '_')}_analysis"]. *)
Definition table_name (test_type : string) : string :=
  String.append (replace " " "_" (lower test_type)) "_analysis".

(** The tables that [get_all_results] reads. *)
Definition tables : list string :=
  ["dtt_analysis"; "dtr_analysis"; "dc02_analysis"; "dc03_skid_analysis";
   "idod_analysis"]%string.

(** The test type that [get_all_results] gives the rows of a table:
    [table.replace('_analysis', '').upper().replace('_', ' ')]. *)
Definition table_test_type (table : string) : string :=
  replace "_" " " (upper (replace "_analysis" "" table)).

(** The test-type filter of [get_all_results]: the table is read unless a
    test type other than 'All' is asked for and it is not the one of the
    table. *)
Definition table_selected (filter_test_type : option string) (table : string)
  : bool :=
  match filter_test_type with
  | None => true
  | Some wanted =>
      if String.eqb wanted "" || String.eqb wanted "All" then true
      else String.eqb (table_test_type table) (upper wanted)
  end.

(** The statement that [DatabaseManager.save_analysis] executes. *)
Record insert_statement : Type := mk_insert {
  ins_table : string;
  ins_columns : list string;
  ins_placeholders : string;
  ins_query : string;
  ins_values : list value
}.

Definition indent12 : string := "            ".

Definition insert_of (test_type : string) (data : row) : insert_statement :=
  let table_name := table_name test_type in
  let columns := keys data in
  let values := map snd data in
  let placeholders := join_with ", " (repeat "%s"%string (List.length values)) in
  let query :=
    String.append nl (String.append indent12
      (String.append "INSERT INTO " (String.append table_name
        (String.append " (" (String.append (join_with ", " columns)
          (String.append ") " (String.append nl (String.append indent12
            (String.append "VALUES (" (String.append placeholders
              (String.append ")" (String.append nl indent12)))))))))))) in
  mk_insert table_name columns placeholders query values.

(** The columns that [generate_database_schema] declares for each table,
    in the order of the [CREATE TABLE] statements; the flag tells whether
    the column is declared [NOT NULL]. *)
Definition columns_head : list (string * bool) :=
  [ ("id", false); ("file_name", true); ("test_number", true);
    ("test_bench", true); ("tester_id", true); ("test_date", true);
    ("analysis_date", false); ("dut_device", false);
    ("reference_device", false) ]%string.

Definition columns_limits : list (string * bool) :=
  [ ("peak_to_peak_lsl", false); ("peak_to_peak_usl", false);
    ("trigger_current_lsl", false); ("trigger_current_usl", false);
    ("noise_lsl", false); ("noise_usl", false) ]%string.

Definition columns_plain : list (string * bool) :=
  columns_head
  ++ [ ("test_function", false); ("peak_to_peak_mv", false);
       ("trigger_current_a", false); ("noise_mv", false);
       ("frequency_khz", false); ("data_points", false);
       ("sample_rate_khz", false) ]%string
  ++ columns_limits
  ++ [ ("trigger_events", false); ("pass_fail", false) ]%string.

Definition columns_dc02 : list (string * bool) :=
  columns_head
  ++ [ ("test_function", false); ("peak_to_peak_mv", false);
       ("trigger_current_a", false); ("noise_mv", false);
       ("ringdown_voltage_mv", false); ("frequency_khz", false);
       ("data_points", false); ("sample_rate_khz", false) ]%string
  ++ columns_limits
  ++ [ ("ringdown_lsl", false); ("ringdown_usl", false);
       ("trigger_events", false); ("pass_fail", false) ]%string.

Definition columns_idod : list (string * bool) :=
  columns_head
  ++ [ ("skid_plate_diameter", false); ("test_function", false);
       ("peak_to_peak_mv", false); ("trigger_current_a", false);
       ("noise_mv", false); ("frequency_khz", false); ("data_points", false);
       ("sample_rate_khz", false) ]%string
  ++ columns_limits
  ++ [ ("trigger_events", false); ("pass_fail", false) ]%string.

Definition schema : list (string * list (string * bool)) :=
  [ ("dtt_analysis", columns_plain); ("dc02_analysis", columns_dc02);
    ("dtr_analysis", columns_plain); ("dc03_skid_analysis", columns_plain);
    ("idod_analysis", columns_idod) ]%string.

Fixpoint schema_columns (table : string)
    (tables : list (string * list (string * bool)))
  : option (list (string * bool)) :=
  match tables with
  | [] => None
  | (name, columns) :: rest =>
      if String.eqb name table then Some columns else schema_columns table rest
  end.

(** [os.path.basename] for paths with ["/"] as separator. *)
Fixpoint has_slash (p : string) : bool :=
  match p with
  | EmptyString => false
  | String c rest => Ascii.eqb c "/"%char || has_slash rest
  end.

Fixpoint basename (p : string) : string :=
  match p with
  | EmptyString => EmptyString
  | String c rest =>
      if Ascii.eqb c "/"%char || has_slash rest then basename rest else p
  end.

(** What [save_analysis] reads besides the window of [evaluate_pass_fail]:
    the path of the loaded file, the texts of the line edits and combo
    boxes, and the clock ([datetime.now()]). *)
Record save_form : Type := mk_save_form {
  form_window : window;
  current_file_path : string;
  test_number_edit : string;
  test_bench_edit : string;
  tester_id_edit : string;
  test_function_combo : string;
  skid_plate_combo : string;
  now_day : Z;
  now_second : Z
}.

(** Where [save_analysis] ends: one of its two warnings, or the call of
    [db_manager.save_analysis(test_type, data)]. *)
Inductive save_outcome : Type :=
| NoAnalysis
| MissingFields (names : list string)
| DatabaseSave (test_type : string) (data : row).

Definition blank (text : string) : bool :=
  match strip text with
  | EmptyString => true
  | String _ _ => false
  end.

Definition save_analysis (f : save_form) : save_outcome :=
  let self := form_window f in
  match current_analysis self with
  | None | Some EmptyDict => NoAnalysis
  | Some (Filled a) =>
      let required_fields :=
        [ (test_number_edit f, "Test Number"); (test_bench_edit f, "Test Bench");
          (tester_id_edit f, "Tester ID") ]%string in
      let missing_fields :=
        map snd (filter (fun field => blank (fst field)) required_fields) in
      match missing_fields with
      | _ :: _ => MissingFields missing_fields
      | [] =>
          let ch1 := an_ch1 a in
          let trigger := an_trigger a in
          let metadata := an_metadata a in
          let pass_fail_result := evaluate_pass_fail self in
          let t := test_type_combo self in
          let data : row :=
            [ ("file_name", VStr (basename (current_file_path f)));
              ("test_number", VStr (test_number_edit f));
              ("test_bench", VStr (test_bench_edit f));
              ("tester_id", VStr (tester_id_edit f));
              ("test_date", VDate (now_day f));
              ("analysis_date", VTimestamp (now_day f) (now_second f));
              ("dut_device", VStr (dut_label t));
              ("reference_device", VStr (reference_label t));
              ("test_function", VStr (test_function_combo f));
              ("peak_to_peak_mv", VNum (ch1_peak_to_peak ch1));
              ("trigger_current_a", VNum (trigger_current_spin self));
              ("noise_mv", VNum (ch1_noise ch1));
              ("frequency_khz", VNum (sample_rate metadata / 1000));
              ("data_points", VNum (inject_Z (Z.of_nat (data_points metadata))));
              ("sample_rate_khz", VNum (sample_rate metadata / 1000));
              ("peak_to_peak_lsl", VNum (peak_lsl_spin self));
              ("peak_to_peak_usl", VNum (peak_usl_spin self));
              ("trigger_current_lsl", VNum (trigger_lsl_spin self));
              ("trigger_current_usl", VNum (trigger_usl_spin self));
              ("noise_lsl", VNum (noise_lsl_spin self));
              ("noise_usl", VNum (noise_usl_spin self));
              ("trigger_events", VNum (inject_Z (Z.of_nat (trigger_count trigger))));
              ("pass_fail", VStr (overall pass_fail_result)) ]%string in
          let test_type := test_type_name t in
          let data :=
            if has_ringdown t then
              data ++ [ ("ringdown_voltage_mv",
                          VNum (ringdown_voltage (ch1_ringdown ch1)));
                        ("ringdown_lsl", VNum (ringdown_lsl_spin self));
                        ("ringdown_usl", VNum (ringdown_usl_spin self)) ]%string
            else data in
          let data :=
            if has_skid_plate t then
              data ++ [ ("skid_plate_diameter", VStr (skid_plate_combo f)) ]%string
            else data in
          DatabaseSave test_type data
      end
  end.

(** Checks on lists of names: pairwise distinct, included in another. *)
Fixpoint distinctb (l : list string) : bool :=
  match l with
  | [] => true
  | x :: t => negb (existsb (String.eqb x) t) && distinctb t
  end.

Definition includedb (l m : list string) : bool :=
  forallb (fun x => existsb (String.eqb x) m) l.

(** ** DatabaseManager.get_analytics_summary *)

(** Exceptions of the summary: the [TypeError] of an operation on a value
    of the wrong type, besides those of the builtins. *)
Inductive error : Type :=
| TypeError
| Builtin (e : exn).

Inductive attempt (A : Type) : Type :=
| Returns (a : A)
| Throws (e : error).
Arguments Returns {A} a.
Arguments Throws {A} e.

Definition and_then {A B : Type} (c : attempt A) (k : A -> attempt B) : attempt B :=
  match c with
  | Returns a => k a
  | Throws e => Throws e
  end.

Definition of_result {A : Type} (c : result A) : attempt A :=
  match c with
  | Ok a => Returns a
  | Raise e => Throws (Builtin e)
  end.

(** [a == b] on database values. *)
Definition value_eqb (a b : value) : bool :=
  match a, b with
  | VNone, VNone => true
  | VStr s, VStr t => String.eqb s t
  | VNum p, VNum q => Qeq_bool p q
  | VDate d, VDate e => Z.eqb d e
  | VTimestamp d s, VTimestamp e t => Z.eqb d e && Z.eqb s t
  | _, _ => false
  end.

(** Truth value of a database value: [None], the empty string and zero are
    false. *)
Definition truthy_value (v : value) : bool :=
  match v with
  | VNone => false
  | VStr s => negb (String.eqb s "")
  | VNum q => negb (Qeq_bool q 0)
  | VDate _ | VTimestamp _ _ => true
  end.

(** [r.get('pass_fail') == 'pass']. *)
Definition is_pass (r : row) : bool :=
  value_eqb (get_or r "pass_fail" VNone) (VStr "pass").

(** One entry [{'total': ..., 'pass': ..., 'fail': ...}] of a breakdown,
    and a breakdown: a dictionary from names to entries, in insertion
    order. *)
Record counts : Type := mk_counts {
  total : nat;
  passed : nat;
  failed : nat
}.

Definition breakdown : Type := list (value * counts).

(** [k in d] and [d[k] = f(d[k])]. *)
Definition has_key (k : value) (d : breakdown) : bool :=
  existsb (fun entry => value_eqb (fst entry) k) d.

Fixpoint update (k : value) (f : counts -> counts) (d : breakdown) : breakdown :=
  match d with
  | [] => []
  | (k', c) :: rest =>
      if value_eqb k' k then (k', f c) :: rest else (k', c) :: update k f rest
  end.

(** Body of each of the three breakdown loops, for the column [key]. *)
Definition tally_step (key : string) (d : breakdown) (result : row) : breakdown :=
  let name := get_or result key (VStr "Unknown") in
  let d := if has_key name d then d else d ++ [(name, mk_counts 0 0 0)] in
  let d := update name (fun c => mk_counts (total c + 1) (passed c) (failed c)) d in
  if is_pass result
  then update name (fun c => mk_counts (total c) (passed c + 1) (failed c)) d
  else update name (fun c => mk_counts (total c) (passed c) (failed c + 1)) d.

Definition tally (key : string) (results : list row) : breakdown :=
  fold_left (tally_step key) results [].

(** [r.get('test_date') and r['test_date'] >= recent_date]: a date
    compares with a date only. *)
Definition is_recent (recent_date : Z) (r : row) : attempt bool :=
  let v := get_or r "test_date" VNone in
  if truthy_value v then
    match v with
    | VDate day => Returns (recent_date <=? day)%Z
    | _ => Throws TypeError
    end
  else Returns false.

(** A list comprehension with a condition that may raise. *)
Fixpoint filter_attempt {A : Type} (cond : A -> attempt bool) (l : list A)
  : attempt (list A) :=
  match l with
  | [] => Returns []
  | x :: rest =>
      and_then (cond x) (fun keep =>
      and_then (filter_attempt cond rest) (fun kept =>
      Returns (if keep then x :: kept else kept)))
  end.

Section Summary.

Variable float : string -> option Q.
(** [np.mean] and [np.std] of a list of floats. *)
Variable np_mean : list Q -> Q.
Variable np_std : list Q -> Q.

(** [float(v)] on a database value. *)
Definition float_of (v : value) : attempt Q :=
  match v with
  | VNum q => Returns q
  | VStr s => of_result (py_float float s)
  | VNone | VDate _ | VTimestamp _ _ => Throws TypeError
  end.

(** [[float(r.get(key, 0)) for r in results if r.get(key)]]. *)
Fixpoint parameter_values (key : string) (results : list row) : attempt (list Q) :=
  match results with
  | [] => Returns []
  | r :: rest =>
      if truthy_value (get_or r key VNone) then
        and_then (float_of (get_or r key (VNum 0))) (fun x =>
        and_then (parameter_values key rest) (fun xs => Returns (x :: xs)))
      else parameter_values key rest
  end.

Record parameter_stats : Type := mk_stats {
  stat_mean : Q;
  stat_std : Q;
  stat_min : Q;
  stat_max : Q
}.

(** The four entries [... if values else 0]. *)
Definition stats_of (values : list Q) : attempt parameter_stats :=
  match values with
  | [] => Returns (mk_stats 0 0 0 0)
  | _ =>
      and_then (of_result (min values)) (fun lo =>
      and_then (of_result (max values)) (fun hi =>
      Returns (mk_stats (np_mean values) (np_std values) lo hi)))
  end.

Record summary : Type := mk_summary {
  total_tests : nat;
  pass_count : nat;
  fail_count : nat;
  pass_rate : Q;
  recent_pass_rate : Q;
  recent_tests : nat;
  test_types : breakdown;
  testers : breakdown;
  test_benches : breakdown;
  peak_to_peak_stats : parameter_stats;
  trigger_current_stats : parameter_stats;
  noise_stats : parameter_stats
}.

(** [len(a) / len(b) * 100]. *)
Definition percentage (part whole : nat) : Q :=
  inject_Z (Z.of_nat part) / inject_Z (Z.of_nat whole) * 100.

(** [get_analytics_summary] on the rows that [get_all_results] returned and
    the date of today; [None] is the empty dictionary. *)
Definition get_analytics_summary (results : list row) (today : Z)
  : attempt (option summary) :=
  match results with
  | [] => Returns None
  | _ =>
      let total_tests := List.length results in
      let pass_count := List.length (filter is_pass results) in
      let fail_count := (total_tests - pass_count)%nat in
      let pass_rate :=
        if 0 <? total_tests then percentage pass_count total_tests else 0 in
      let test_types := tally "test_type" results in
      let testers := tally "tester_id" results in
      let test_benches := tally "test_bench" results in
      let recent_date := (today - 30)%Z in
      and_then (filter_attempt (is_recent recent_date) results) (fun recent_results =>
      let recent_pass_rate :=
        match recent_results with
        | [] => 0
        | _ => percentage (List.length (filter is_pass recent_results))
                          (List.length recent_results)
        end in
      and_then (parameter_values "peak_to_peak_mv" results) (fun peak_to_peak_values =>
      and_then (parameter_values "trigger_current_a" results) (fun trigger_current_values =>
      and_then (parameter_values "noise_mv" results) (fun noise_values =>
      and_then (stats_of peak_to_peak_values) (fun peak_stats =>
      and_then (stats_of trigger_current_values) (fun trigger_stats =>
      and_then (stats_of noise_values) (fun noise_stats' =>
      Returns (Some (mk_summary total_tests pass_count fail_count pass_rate
                       recent_pass_rate (List.length recent_results)
                       test_types testers test_benches
                       peak_stats trigger_stats noise_stats')))))))))
  end.

End Summary.

(** [stats['pass'] / stats['total'] * 100 if stats['total'] > 0 else 0], the
    pass rate that [update_analytics] and [plot_analytics_charts] show for
    an entry of a breakdown. *)
Definition entry_pass_rate (stats : counts) : Q :=
  if 0 <? total stats then percentage (passed stats) (total stats) else 0.

(** The name under which a row is counted for the column [key], and the
    entry that the rows with the name [k] add up to. *)
Definition name_of (key : string) (r : row) : value :=
  get_or r key (VStr "Unknown").

Definition counts_of (key : string) (k : value) (results : list row) : counts :=
  let group := filter (fun r => value_eqb (name_of key r) k) results in
  mk_counts (List.length group)
            (List.length (filter is_pass group))
            (List.length (filter (fun r => negb (is_pass r)) group)).

(** Rows as the columns of the schema type them: a date or nothing as
    [test_date], a number or nothing as each measured parameter. *)
Definition date_or_null (v : value) : Prop :=
  v = VNone \/ exists day, v = VDate day.

Definition number_or_null (v : value) : Prop :=
  v = VNone \/ exists q, v = VNum q.

Definition typed_row (r : row) : Prop :=
  date_or_null (get_or r "test_date" VNone) /\
  number_or_null (get_or r "peak_to_peak_mv" VNone) /\
  number_or_null (get_or r "trigger_current_a" VNone) /\
  number_or_null (get_or r "noise_mv" VNone).

(** No two entries of a breakdown have equal names. *)
Fixpoint distinct_names (d : breakdown) : Prop :=
  match d with
  | [] => True
  | entry :: rest => has_key (fst entry) rest = false /\ distinct_names rest
  end.

(** An entry after [d[k] = f(d[k])]. *)
Definition modify (k : value) (f : counts -> counts) (entry : value * counts)
  : value * counts :=
  if value_eqb (fst entry) k then (fst entry, f (snd entry)) else entry.

(** The entry of one more row. *)
Definition count_row (pass : bool) (c : counts) : counts :=
  if pass then mk_counts (total c + 1) (passed c + 1) (failed c)
  else mk_counts (total c + 1) (passed c) (failed c + 1).

(** The totals of a breakdown, added up. *)
Definition sum_total (d : breakdown) : nat :=
  fold_right (fun entry acc => (total (snd entry) + acc)%nat) 0%nat d.

(** The values that count for the statistics of the column [key]: the
    numbers other than zero. *)
Definition counted_values (key : string) (results : list row) : list Q :=
  flat_map (fun r => match get_or r key VNone with
                     | VNum q => if Qeq_bool q 0 then [] else [q]
                     | _ => []
                     end) results.

(** What the breakdown loop keeps true of the rows it has seen. *)
Definition tallied (key : string) (rows : list row) (d : breakdown) : Prop :=
  distinct_names d /\
  (forall entry, In entry d ->
                 snd entry = counts_of key (fst entry) rows
                 /\ (1 <= total (snd entry))%nat) /\
  (forall r, In r rows -> has_key (name_of key r) d = true) /\
  sum_total d = List.length rows.

(** The sample index a zoom percentage stands for in a capture of [len]
    samples. *)
Definition zoom_index (len : nat) (percent : Z) : nat :=
  Z.to_nat (int_of_quotient (Z.of_nat len * percent) 100).

(** [wide] has the analysis, test type and trigger current of [self], and
    every limit interval of [wide] includes the one of [self]. *)
Definition limits_widened (self wide : window) : Prop :=
  current_analysis wide = current_analysis self /\
  test_type_combo wide = test_type_combo self /\
  trigger_current_spin wide = trigger_current_spin self /\
  peak_lsl_spin wide <= peak_lsl_spin self /\
  peak_usl_spin self <= peak_usl_spin wide /\
  trigger_lsl_spin wide <= trigger_lsl_spin self /\
  trigger_usl_spin self <= trigger_usl_spin wide /\
  noise_lsl_spin wide <= noise_lsl_spin self /\
  noise_usl_spin self <= noise_usl_spin wide /\
  ringdown_lsl_spin wide <= ringdown_lsl_spin self /\
  ringdown_usl_spin self <= ringdown_usl_spin wide.

(** Two windows on the example analysis, with a trigger current of 50 A:
    limits under which it passes, and wider ones. *)
Definition passing_window : window :=
  mk_window (Some example_analysis) DC02 50 150 400 30 80 0 200 0 100.

Definition wider_window : window :=
  mk_window (Some example_analysis) DC02 50 100 500 0 100 0 300 0 200.

(** The save form filled in for the example analysis. *)
Definition example_form : save_form :=
  mk_save_form passing_window "/captures/run1.csv" "T001" "Bench A" "admin"
    "Performance test" "100mm" 739000 0.

(** Four rows as [get_all_results] returns them: two passes and a fail of
    one tester on two benches, and a row of another tester without a
    verdict, with a zero and a missing measurement. *)
Definition example_rows : list row :=
  [ [ ("test_type", VStr "DTT"); ("tester_id", VStr "ann");
      ("test_bench", VStr "A"); ("test_date", VDate 739000);
      ("pass_fail", VStr "pass"); ("peak_to_peak_mv", VNum 300);
      ("trigger_current_a", VNum 50); ("noise_mv", VNum 2) ];
    [ ("test_type", VStr "DTT"); ("tester_id", VStr "ann");
      ("test_bench", VStr "B"); ("test_date", VDate 738900);
      ("pass_fail", VStr "fail"); ("peak_to_peak_mv", VNum 500);
      ("trigger_current_a", VNum 50); ("noise_mv", VNum 0) ];
    [ ("test_type", VStr "DC02"); ("tester_id", VStr "ann");
      ("test_bench", VStr "A"); ("test_date", VDate 739010);
      ("pass_fail", VStr "pass"); ("peak_to_peak_mv", VNum 200);
      ("trigger_current_a", VNum 40); ("noise_mv", VNum 4) ];
    [ ("test_type", VStr "DC02"); ("tester_id", VStr "bob");
      ("test_bench", VStr "A"); ("test_date", VDate 739011);
      ("pass_fail", VNone); ("peak_to_peak_mv", VNone);
      ("trigger_current_a", VNum 40); ("noise_mv", VNum 6) ] ]%string.

(** The example scenario of the specification: channel-2 peak-to-peak 2,
    one trigger event at 1 ms, index 1, value 2, and a channel-1
    peak-to-peak of 250 mV. *)
Example example_scenario :
  exists r : analysis_record,
    example_analysis = Filled r /\
    ch2_peak_to_peak (an_ch2 r) == 2 /\
    ch1_peak_to_peak (an_ch1 r) == 250 /\
    map tp_index (trigger_points (an_trigger r)) = [1%nat] /\
    Forall2 Qeq (map tp_time (trigger_points (an_trigger r))) [1] /\
    map tp_current (trigger_points (an_trigger r)) = [2] /\
    data_points (an_metadata r) = 3%nat.
Proof.
  eexists. split; [reflexivity|]. cbn.
  repeat split; try reflexivity. repeat constructor.
Qed.

Example example_text_loads :
  load_csv_data decimal_float example_text
  = Ok [ mk_sample 0 (1 # 10) 0; mk_sample (1000 # 1000) (3 # 10) 2;
         mk_sample (1000 # 500) (1 # 20) (1 # 2) ].
Proof. vm_compute. reflexivity. Qed.

(** ** Comparisons on [Q] *)

Lemma Qltb_lt (x y : Q) : Qltb x y = true <-> x < y.
Proof. unfold Qltb, Qlt. apply Z.ltb_lt. Qed.

Lemma Qltb_ge (x y : Q) : Qltb x y = false <-> y <= x.
Proof. unfold Qltb, Qle. apply Z.ltb_ge. Qed.

Lemma Qle_bool_false (x y : Q) : Qle_bool x y = false <-> y < x.
Proof.
  split; intro H.
  - apply Qnot_le_lt. intro Hle. apply Qle_bool_iff in Hle. congruence.
  - destruct (Qle_bool x y) eqn:E; [|reflexivity].
    apply Qle_bool_iff in E. exfalso. exact (Qlt_not_le _ _ H E).
Qed.

Lemma above_not_below (x thr : Q) :
  Qltb thr x = true -> Qle_bool x thr = true -> False.
Proof.
  intros H1 H2. apply Qltb_lt in H1. apply Qle_bool_iff in H2.
  exact (Qlt_not_le _ _ H1 H2).
Qed.

(** ** [min] and [max] *)

Lemma max_from_ge_best (l : list Q) : forall best, best <= max_from best l.
Proof.
  induction l as [|x t IH]; intro best; simpl.
  - apply Qle_refl.
  - destruct (Qltb best x) eqn:E.
    + apply Qltb_lt in E. eapply Qle_trans; [apply Qlt_le_weak, E | apply IH].
    + apply IH.
Qed.

Lemma max_from_ge (l : list Q) : forall best x, In x l -> x <= max_from best l.
Proof.
  induction l as [|y t IH]; intros best x Hin; simpl in *; [contradiction|].
  destruct Hin as [-> | Hin]; [|now apply IH].
  destruct (Qltb best x) eqn:E.
  - apply max_from_ge_best.
  - apply Qltb_ge in E. eapply Qle_trans; [exact E | apply max_from_ge_best].
Qed.

Lemma max_from_in (l : list Q) : forall best, In (max_from best l) (best :: l).
Proof.
  induction l as [|y t IH]; intro best; simpl; [now left|].
  destruct (IH (if Qltb best y then y else best)) as [H | H].
  - destruct (Qltb best y); [right; left | left]; exact H.
  - right; right; exact H.
Qed.

Lemma min_from_le_best (l : list Q) : forall best, min_from best l <= best.
Proof.
  induction l as [|x t IH]; intro best; simpl.
  - apply Qle_refl.
  - destruct (Qltb x best) eqn:E.
    + apply Qltb_lt in E. eapply Qle_trans; [apply IH | apply Qlt_le_weak, E].
    + apply IH.
Qed.

Lemma min_from_le (l : list Q) : forall best x, In x l -> min_from best l <= x.
Proof.
  induction l as [|y t IH]; intros best x Hin; simpl in *; [contradiction|].
  destruct Hin as [-> | Hin]; [|now apply IH].
  destruct (Qltb x best) eqn:E.
  - apply min_from_le_best.
  - apply Qltb_ge in E. eapply Qle_trans; [apply min_from_le_best | exact E].
Qed.

Lemma min_from_in (l : list Q) : forall best, In (min_from best l) (best :: l).
Proof.
  induction l as [|y t IH]; intro best; simpl; [now left|].
  destruct (IH (if Qltb y best then y else best)) as [H | H].
  - destruct (Qltb y best); [right; left | left]; exact H.
  - right; right; exact H.
Qed.

Lemma max_is_maximum (x : Q) (t : list Q) :
  max (x :: t) = Ok (max_from x t) /\ is_maximum (x :: t) (max_from x t).
Proof.
  split; [reflexivity|]. split.
  - apply max_from_in.
  - intros y [<- | Hin]; [apply max_from_ge_best | now apply max_from_ge].
Qed.

Lemma min_is_minimum (x : Q) (t : list Q) :
  min (x :: t) = Ok (min_from x t) /\ is_minimum (x :: t) (min_from x t).
Proof.
  split; [reflexivity|]. split.
  - apply min_from_in.
  - intros y [<- | Hin]; [apply min_from_le_best | now apply min_from_le].
Qed.

Lemma min_le_max (x : Q) (t : list Q) : min_from x t <= max_from x t.
Proof.
  eapply Qle_trans; [apply min_from_le_best | apply max_from_ge_best].
Qed.

(** ** Lists: first item, last item, slices *)

Lemma getitem_hd {A : Type} (d : A) (l : list A) :
  l <> [] -> getitem l 0 = Ok (hd d l).
Proof. destruct l; [congruence | reflexivity]. Qed.

Lemma getlast_last {A : Type} (d : A) (l : list A) :
  l <> [] -> getlast l = Ok (List.last l d).
Proof.
  induction l as [|a t IH]; [congruence|]. intros _.
  destruct t as [|b t']; [reflexivity|].
  change (getlast (a :: b :: t')) with (getlast (b :: t')).
  change (List.last (a :: b :: t') d) with (List.last (b :: t') d).
  apply IH. discriminate.
Qed.

Lemma last_In {A : Type} (d : A) (l : list A) : l <> [] -> In (List.last l d) l.
Proof.
  induction l as [|a t IH]; [congruence|]. intros _.
  destruct t as [|b t']; [now left|].
  right. apply IH. discriminate.
Qed.

Lemma slice_window {A : Type} (l : list A) (i : nat) :
  slice l i (Nat.min (i + 100) (List.length l)) = firstn 100 (skipn i l).
Proof.
  unfold slice.
  destruct (Nat.le_gt_cases (i + 100) (List.length l)) as [H | H].
  - rewrite Nat.min_l by exact H. f_equal. lia.
  - rewrite Nat.min_r by lia.
    rewrite !firstn_all2; [reflexivity | |]; rewrite length_skipn; lia.
Qed.

Lemma hd_firstn_skipn {A : Type} (d : A) (n : nat) :
  forall (i : nat) (l : list A), hd d (firstn (S n) (skipn i l)) = nth i l d.
Proof.
  induction i as [|i IH]; intros [|a t]; simpl; try reflexivity.
  apply IH.
Qed.

Lemma hd_window {A : Type} (d : A) (l : list A) (i : nat) :
  hd d (firstn 100 (skipn i l)) = nth i l d.
Proof. exact (hd_firstn_skipn d 99 i l). Qed.

Lemma In_window {A : Type} (l : list A) (i : nat) (x : A) :
  In x (firstn 100 (skipn i l)) -> In x l.
Proof.
  intro H. rewrite <- (firstn_skipn i l). apply in_or_app. right.
  rewrite <- (firstn_skipn 100 (skipn i l)). apply in_or_app. now left.
Qed.

Lemma window_nonempty {A : Type} (l : list A) (i : nat) :
  (i < List.length l)%nat -> firstn 100 (skipn i l) <> [].
Proof.
  intros Hi Hnil.
  assert (Hlen : List.length (firstn 100 (skipn i l))
                 = Nat.min 100 (List.length l - i))
    by (rewrite length_firstn, length_skipn; reflexivity).
  rewrite Hnil in Hlen. change (List.length (@nil A)) with 0%nat in Hlen. lia.
Qed.

(** ** The peak: [abs_values.index(max(abs_values))] *)

Lemma index_from_peak (l : list Q) : forall (i : nat) (m : Q),
  (forall x, In x l -> Qabs x <= m) ->
  (exists x, In x l /\ Qabs x == m) ->
  index_from i m (map Qabs l) = Ok (i + peak_index l)%nat.
Proof.
  induction l as [|v rest IH]; intros i m Hub [x [Hin Hx]]; [destruct Hin|].
  simpl. destruct (Qeq_bool (Qabs v) m) eqn:E.
  - apply Qeq_bool_iff in E.
    replace (forallb (fun w => Qle_bool (Qabs w) (Qabs v)) rest) with true.
    + f_equal. lia.
    + symmetry. apply forallb_forall. intros w Hw. apply Qle_bool_iff.
      rewrite E. apply Hub. now right.
  - assert (Hlt : Qabs v < m).
    { pose proof (Hub v (or_introl eq_refl)) as H.
      apply Qle_lteq in H. destruct H as [H | H]; [exact H|].
      apply Qeq_bool_neq in E. contradiction. }
    destruct Hin as [-> | Hin].
    { apply Qeq_bool_neq in E. contradiction. }
    replace (forallb (fun w => Qle_bool (Qabs w) (Qabs v)) rest) with false.
    + rewrite IH with (i := S i) (m := m).
      * f_equal. lia.
      * intros y Hy. apply Hub. now right.
      * exists x. split; assumption.
    + symmetry. apply not_true_is_false. intro Hall.
      rewrite forallb_forall in Hall. specialize (Hall x Hin).
      apply Qle_bool_iff in Hall. rewrite Hx in Hall.
      exact (Qlt_not_le _ _ Hlt Hall).
Qed.

Lemma peak_index_lt (l : list Q) : l <> [] -> (peak_index l < List.length l)%nat.
Proof.
  induction l as [|v rest IH]; [congruence|]. intros _. simpl.
  destruct (forallb _ rest) eqn:E; [lia|].
  destruct rest as [|w rest']; [discriminate E|].
  apply -> Nat.succ_lt_mono. apply IH. discriminate.
Qed.

(** The sample at [peak_index] has the greatest magnitude. *)
Lemma peak_index_maximal (l : list Q) :
  forall x, In x l -> Qabs x <= Qabs (nth (peak_index l) l 0).
Proof.
  induction l as [|v rest IH]; intros x Hin; [destruct Hin|].
  simpl. destruct (forallb _ rest) eqn:E.
  - destruct Hin as [<- | Hin]; [apply Qle_refl|].
    rewrite forallb_forall in E. apply Qle_bool_iff. now apply E.
  - destruct Hin as [<- | Hin]; [|now apply IH].
    assert (Hex : existsb (fun w => negb (Qle_bool (Qabs w) (Qabs v))) rest = true).
    { clear IH. induction rest as [|w r IHr]; [discriminate E|].
      simpl in *. destruct (Qle_bool (Qabs w) (Qabs v)); simpl in *; auto. }
    apply existsb_exists in Hex. destruct Hex as [w [Hw Hgt]].
    apply negb_true_iff, Qle_bool_false in Hgt.
    eapply Qle_trans; [apply Qlt_le_weak, Hgt | now apply IH].
Qed.

(** ** Floats: quotients that round to zero *)

Lemma flush_keeps (x : Q) : rounds_to_zero x = false -> flush x = x.
Proof. unfold flush. now intros ->. Qed.

Lemma flush_zero (x : Q) : rounds_to_zero x = true -> flush x = 0.
Proof. unfold flush. now intros ->. Qed.

Lemma flush_nonneg (x : Q) : 0 <= x -> 0 <= flush x.
Proof.
  intro H. unfold flush. destruct (rounds_to_zero x); [apply Qle_refl | exact H].
Qed.

Lemma underflow_bound_lt_1 : underflow_bound < 1.
Proof. reflexivity. Qed.

Lemma large_not_flushed (x : Q) : 1 <= x -> rounds_to_zero x = false.
Proof.
  intro H. unfold rounds_to_zero. apply Qle_bool_false.
  rewrite Qabs_pos by (eapply Qle_trans; [|exact H]; discriminate).
  eapply Qlt_le_trans; [exact underflow_bound_lt_1 | exact H].
Qed.

(** ** [calculate_ringdown] *)

Section Ringdown.

Variable ln : Q -> Q.

Lemma ratio_positive (a b : Q) : 0 < b -> b < a -> 0 < a / b.
Proof.
  intros Hb Hab. apply Qlt_shift_div_l; [exact Hb|].
  rewrite Qmult_0_l. eapply Qlt_trans; eassumption.
Qed.

Lemma decay_constant_defined (a b n : Q) :
  Qltb b a && Qltb 0 b = true ->
  (ratio <- div a b ;; l <- np_log ln ratio ;; Ok (l / n)) = Ok (ln (a / b) / n).
Proof.
  intro H. apply andb_true_iff in H. destruct H as [Hba Hb].
  apply Qltb_lt in Hba, Hb. unfold div.
  destruct (Qeq_bool b 0) eqn:E.
  - apply Qeq_bool_iff in E. rewrite E in Hb. exfalso. exact (Qlt_irrefl _ Hb).
  - rewrite flush_keeps.
    + cbn [bind]. unfold np_log.
      pose proof (ratio_positive a b Hb Hba) as Hr. apply Qltb_lt in Hr.
      rewrite Hr. reflexivity.
    + apply large_not_flushed. apply Qle_shift_div_l; [exact Hb|].
      rewrite Qmult_1_l. now apply Qlt_le_weak.
Qed.

Lemma peak_of_max (v : Q) (t : list Q) :
  index (map Qabs (v :: t)) (max_from (Qabs v) (map Qabs t))
  = Ok (peak_index (v :: t)).
Proof.
  unfold index. apply (index_from_peak (v :: t) 0).
  - intros x Hin. apply (in_map Qabs) in Hin.
    destruct Hin as [<- | Hin]; [apply max_from_ge_best | now apply max_from_ge].
  - pose proof (max_from_in (map Qabs t) (Qabs v)) as Hin.
    change (Qabs v :: map Qabs t) with (map Qabs (v :: t)) in Hin.
    apply in_map_iff in Hin. destruct Hin as [x [Hx Hin]].
    exists x. split; [exact Hin | rewrite Hx; reflexivity].
Qed.

(** The code computes the reference estimate, and never raises. *)
Lemma calculate_ringdown_eq (values : list Q) :
  calculate_ringdown ln values = Ok (ringdown_reference ln values).
Proof.
  unfold calculate_ringdown, ringdown_reference.
  destruct (Z.of_nat (List.length values) <? 50)%Z eqn:Hshort.
  - apply Z.ltb_lt in Hshort.
    replace (List.length values <? 50) with true
      by (symmetry; apply Nat.ltb_lt; lia).
    reflexivity.
  - apply Z.ltb_ge in Hshort.
    replace (List.length values <? 50) with false
      by (symmetry; apply Nat.ltb_ge; lia).
    destruct values as [|v t]; [simpl in Hshort; lia|].
    change (max (map Qabs (v :: t))) with (Ok (max_from (Qabs v) (map Qabs t))).
    cbn [bind]. rewrite peak_of_max. cbn [bind orb].
    set (values := v :: t) in *. set (peak := peak_index values).
    assert (Hpeak : (peak < List.length values)%nat)
      by (apply peak_index_lt; discriminate).
    destruct (Z.of_nat peak >=? Z.of_nat (List.length values) - 20)%Z eqn:Htail.
    + apply Z.geb_le in Htail.
      replace (List.length values - 20 <=? peak) with true
        by (symmetry; apply Nat.leb_le; lia).
      reflexivity.
    + rewrite Z.geb_leb in Htail. apply Z.leb_gt in Htail.
      replace (List.length values - 20 <=? peak) with false
        by (symmetry; apply Nat.leb_gt; lia).
      rewrite slice_window.
      set (window := firstn 100 (skipn peak values)).
      assert (Hwin : window <> []).
      { apply (window_nonempty values peak). exact Hpeak. }
      rewrite (getitem_hd 0 window Hwin). cbn [bind].
      rewrite (getlast_last 0 window Hwin). cbn [bind].
      destruct (Qltb (Qabs (List.last window 0)) (Qabs (hd 0 window))
                && Qltb 0 (Qabs (List.last window 0))) eqn:Hcond.
      * rewrite decay_constant_defined by exact Hcond. reflexivity.
      * reflexivity.
Qed.

(** Outside the sentinel cases the estimate is read off the window that
    starts at the peak. *)
Lemma ringdown_reference_nonneg (values : list Q) :
  0 <= ringdown_voltage (ringdown_reference ln values).
Proof.
  unfold ringdown_reference.
  destruct ((List.length values <? 50) || (List.length values - 20 <=? peak_index values))
    eqn:Hs; [simpl; apply Qle_refl|].
  apply orb_false_iff in Hs. destruct Hs as [Hlen Htail].
  apply Nat.ltb_ge in Hlen. apply Nat.leb_gt in Htail.
  cbn [ringdown_voltage].
  set (window := firstn 100 (skipn (peak_index values) values)).
  assert (Hwin : window <> []).
  { apply (window_nonempty values (peak_index values)). lia. }
  assert (Hle : Qabs (List.last window 0) <= Qabs (hd 0 window)).
  { unfold window at 2. rewrite hd_window. apply peak_index_maximal.
    apply (In_window values (peak_index values)). apply last_In. exact Hwin. }
  apply Qmult_le_0_compat; [|discriminate].
  unfold Qminus. rewrite <- Qle_minus_iff. exact Hle.
Qed.

End Ringdown.

(** ** The trigger loop *)

Lemma for_each_total {S X : Type} (body : S -> X -> result S) (f : S -> X -> S)
    (xs : list X) :
  (forall x, In x xs -> forall s, body s x = Ok (f s x)) ->
  forall s, for_each body xs s = Ok (fold_left f xs s).
Proof.
  induction xs as [|x xs IH]; intros Hbody s; [reflexivity|].
  simpl. rewrite Hbody by now left. simpl. apply IH.
  intros y Hy. apply Hbody. now right.
Qed.

Lemma getitem_sample_at (data : list sample) (i : nat) :
  (i < List.length data)%nat -> getitem data i = Ok (sample_at data i).
Proof.
  intro Hi. unfold getitem, sample_at.
  rewrite (nth_error_nth' data (mk_sample 0 0 0) Hi). reflexivity.
Qed.

Section TriggerLoop.

Variable data : list sample.
Variable thr : Q.

(** No subscript of the loop body is out of range. *)
Lemma trigger_body_step (st : trigger_state) (i : nat) :
  (1 <= i < List.length data)%nat ->
  trigger_body data thr st i = Ok (trigger_step data thr st i).
Proof.
  intros [H1 Hi]. destruct st as [points in_trigger].
  unfold trigger_body, trigger_step, crosses, magnitude.
  rewrite getitem_sample_at by lia. cbn [bind].
  rewrite getitem_sample_at by lia. cbn [bind].
  rewrite <- andb_assoc.
  destruct (negb in_trigger && _); [reflexivity|].
  destruct (in_trigger && _); reflexivity.
Qed.

Lemma trigger_loop_scan (stop : nat) :
  (stop <= List.length data)%nat ->
  trigger_loop data thr stop = Ok (scan data thr (stop - 1)).
Proof.
  intro Hstop. unfold trigger_loop, scan, range.
  apply for_each_total. intros i Hi s. apply in_seq in Hi.
  apply trigger_body_step. lia.
Qed.

Lemma scan_succ (n : nat) :
  scan data thr (S n) = trigger_step data thr (scan data thr n) (S n).
Proof.
  unfold scan. rewrite seq_S, fold_left_app. reflexivity.
Qed.

Lemma trigger_step_points (st : trigger_state) (i : nat) :
  fst (trigger_step data thr st i)
  = fst st ++ (if negb (snd st) && crosses data thr i then [event_at data i] else []).
Proof.
  destruct st as [points in_trigger]. unfold trigger_step. cbn [fst snd].
  destruct (negb in_trigger && crosses data thr i); [reflexivity|].
  rewrite app_nil_r. destruct (in_trigger && _); reflexivity.
Qed.

(** The emitted events are the events of the firing indices, in order. *)
Lemma scan_points (n : nat) :
  fst (scan data thr n) = map (event_at data) (filter (fires data thr) (seq 1 n)).
Proof.
  induction n as [|n IH]; [reflexivity|].
  rewrite scan_succ, trigger_step_points, IH, seq_S, filter_app, map_app.
  f_equal. cbn [filter]. change (1 + n)%nat with (S n). unfold fires.
  replace (S n - 1)%nat with n by lia.
  destruct (negb (snd (scan data thr n)) && crosses data thr (S n)); reflexivity.
Qed.

Lemma scan_indices (n : nat) :
  map tp_index (fst (scan data thr n)) = filter (fires data thr) (seq 1 n).
Proof.
  rewrite scan_points, map_map. apply map_id.
Qed.

(** Hysteresis: a sample at or below the threshold always leaves the
    detector out of the trigger. *)
Lemma quiet_sample_resets (n : nat) :
  Qle_bool (magnitude data n) thr = true -> snd (scan data thr n) = false.
Proof.
  destruct n as [|n]; [reflexivity|]. intro Hq.
  rewrite scan_succ. destruct (scan data thr n) as [points in_trigger].
  unfold trigger_step, crosses. rewrite Hq.
  destruct (Qltb thr (magnitude data (S n))) eqn:Habove.
  - exfalso. exact (above_not_below _ _ Habove Hq).
  - rewrite andb_false_r. cbn [andb]. destruct in_trigger; reflexivity.
Qed.

(** The flag of the loop is the state of the specification's detector. *)
Lemma scan_detector (n : nat) :
  state_of (snd (scan data thr n)) = detector_after data thr n.
Proof.
  induction n as [|n IH]; [reflexivity|].
  rewrite scan_succ. cbn [detector_after]. rewrite <- IH.
  destruct (scan data thr n) as [points in_trigger].
  unfold trigger_step, crosses. replace (S n - 1)%nat with n by lia.
  cbn [snd]. destruct in_trigger; cbn [negb andb state_of detector_step].
  - destruct (Qle_bool (magnitude data (S n)) thr); reflexivity.
  - rewrite andb_comm.
    destruct (Qle_bool (magnitude data n) thr && Qltb thr (magnitude data (S n)));
      reflexivity.
Qed.

(** So the loop fires at every rising crossing, and only there. *)
Lemma fires_crosses (i : nat) : fires data thr i = crosses data thr i.
Proof.
  unfold fires. destruct (crosses data thr i) eqn:Hc; [|apply andb_false_r].
  unfold crosses in Hc. apply andb_true_iff in Hc. destruct Hc as [_ Hprev].
  rewrite (quiet_sample_resets _ Hprev). reflexivity.
Qed.

End TriggerLoop.

(** ** Strictly increasing lists *)

Lemma StronglySorted_seq (n : nat) : forall a, StronglySorted lt (seq a n).
Proof.
  induction n as [|n IH]; intro a; simpl; constructor.
  - apply IH.
  - apply Forall_forall. intros x Hx. apply in_seq in Hx. lia.
Qed.

Lemma StronglySorted_filter {A : Type} (R : A -> A -> Prop) (f : A -> bool)
    (l : list A) :
  StronglySorted R l -> StronglySorted R (filter f l).
Proof.
  induction 1 as [|a l Hs IH Hall]; simpl; [constructor|].
  destruct (f a); [|exact IH]. constructor; [exact IH|].
  apply Forall_forall. intros x Hx. apply filter_In in Hx.
  rewrite Forall_forall in Hall. now apply Hall.
Qed.

Lemma StronglySorted_map {A B : Type} (R : A -> A -> Prop) (R' : B -> B -> Prop)
    (f : A -> B) (l : list A) :
  (forall x y, In x l -> In y l -> R x y -> R' (f x) (f y)) ->
  StronglySorted R l -> StronglySorted R' (map f l).
Proof.
  intros Hmono Hs. induction Hs as [|a l Hs IH Hall]; simpl; constructor.
  - apply IH. intros x y Hx Hy. apply Hmono; now right.
  - rewrite Forall_forall in *. intros y Hy. apply in_map_iff in Hy.
    destruct Hy as [x [<- Hx]]. apply Hmono; [now left | now right | now apply Hall].
Qed.

Lemma StronglySorted_nth {A : Type} (R : A -> A -> Prop) (d : A) (l : list A) :
  StronglySorted R l ->
  forall i j, (i < j < List.length l)%nat -> R (nth i l d) (nth j l d).
Proof.
  induction 1 as [|a l Hs IH Hall]; intros i j [Hij Hj]; simpl in Hj; [lia|].
  destruct j as [|j]; [lia|]. destruct i as [|i]; simpl.
  - rewrite Forall_forall in Hall. apply Hall. apply nth_In. lia.
  - apply IH. lia.
Qed.

Lemma StronglySorted_adjacent {A : Type} (R : A -> A -> Prop) (l1 l2 : list A)
    (a b : A) :
  StronglySorted R (l1 ++ a :: b :: l2) -> R a b.
Proof.
  induction l1 as [|x l1 IH]; simpl; intro Hs; inversion Hs as [|? ? Hs' Hall]; subst.
  - rewrite Forall_forall in Hall. apply Hall. now left.
  - now apply IH.
Qed.

(** ** What the trigger loop emits *)

Section TriggerEvents.

Variable data : list sample.
Variable thr : Q.

Lemma nth_error_sample_at (i : nat) (s : sample) :
  nth_error data i = Some s -> (i < List.length data)%nat /\ sample_at data i = s.
Proof.
  intro H. split.
  - apply nth_error_Some. congruence.
  - unfold sample_at. now apply nth_error_nth.
Qed.

Lemma trigger_loop_points :
  trigger_loop data thr (List.length data)
  = Ok (map (event_at data)
            (filter (fires data thr) (seq 1 (List.length data - 1))),
        snd (scan data thr (List.length data - 1))).
Proof.
  rewrite trigger_loop_scan by lia. rewrite <- scan_points.
  destruct (scan data thr (List.length data - 1)); reflexivity.
Qed.

Lemma In_points (e : trigger_point) :
  In e (map (event_at data) (filter (fires data thr) (seq 1 (List.length data - 1))))
  <-> exists i, (1 <= i < List.length data)%nat /\ fires data thr i = true
                /\ e = event_at data i.
Proof.
  rewrite in_map_iff. split.
  - intros [i [<- Hi]]. apply filter_In in Hi. destruct Hi as [Hi Hf].
    apply in_seq in Hi. exists i. repeat split; try assumption; lia.
  - intros [i [Hi [Hf ->]]]. exists i. split; [reflexivity|].
    apply filter_In. split; [apply in_seq; lia | exact Hf].
Qed.

Lemma points_indices_increasing :
  StronglySorted lt
    (map tp_index
       (map (event_at data) (filter (fires data thr) (seq 1 (List.length data - 1))))).
Proof.
  rewrite map_map. cbn [event_at tp_index]. rewrite map_id.
  apply StronglySorted_filter, StronglySorted_seq.
Qed.

Lemma fires_unfold (i : nat) :
  (1 <= i < List.length data)%nat ->
  fires data thr i = true <->
  detector_before data thr i = BelowOrAt
  /\ magnitude data (i - 1) <= thr /\ thr < magnitude data i.
Proof.
  intros _. unfold detector_before. rewrite <- scan_detector. unfold fires, crosses.
  rewrite !andb_true_iff, negb_true_iff, Qltb_lt, Qle_bool_iff.
  destruct (snd (scan data thr (i - 1))); cbn [state_of]; intuition congruence.
Qed.

Lemma crosses_unfold (i : nat) :
  crosses data thr i = true <->
  magnitude data (i - 1) <= thr /\ thr < magnitude data i.
Proof.
  unfold crosses. rewrite andb_true_iff, Qltb_lt, Qle_bool_iff. tauto.
Qed.

End TriggerEvents.

(** ** Trigger detection: the claims *)

(** C4.  For every sample sequence and every threshold (positive or not) the
    trigger loop runs to its end without raising, and it emits an event for
    index [i] exactly when [i >= 1], the detector of the specification is
    in state [BelowOrAt] when it reaches [i], [abs(ch2[i-1]) <= threshold]
    and [abs(ch2[i]) > threshold].  The state adds nothing to the two
    comparisons: the loop emits an event for index [i] exactly when
    [i >= 1], [abs(ch2[i-1]) <= threshold] and [abs(ch2[i]) > threshold].
    The event carries the time of sample [i], the index [i] and the signed
    channel-2 value of sample [i]; the flag the loop ends with is the state
    of the detector after the last sample; no event has index 0, and no
    index is reported twice. *)
Theorem trigger_event_iff (data : list sample) (thr : Q) :
  exists points in_trigger,
    trigger_loop data thr (List.length data) = Ok (points, in_trigger) /\
    (forall e : trigger_point,
        In e points <->
        exists (i : nat) (prev cur : sample),
          (1 <= i)%nat /\
          nth_error data (i - 1) = Some prev /\
          nth_error data i = Some cur /\
          detector_before data thr i = BelowOrAt /\
          Qabs (ch2 prev) <= thr /\
          thr < Qabs (ch2 cur) /\
          e = mk_trigger_point (time cur) i (ch2 cur)) /\
    (forall e : trigger_point,
        In e points <->
        exists (i : nat) (prev cur : sample),
          (1 <= i)%nat /\
          nth_error data (i - 1) = Some prev /\
          nth_error data i = Some cur /\
          Qabs (ch2 prev) <= thr /\
          thr < Qabs (ch2 cur) /\
          e = mk_trigger_point (time cur) i (ch2 cur)) /\
    state_of in_trigger = detector_before data thr (List.length data) /\
    (forall e, In e points -> tp_index e <> 0%nat) /\
    NoDup (map tp_index points).
Proof.
  eexists. eexists. split; [apply trigger_loop_points|].
  split; [|split; [|split; [|split]]].
  - intro e. rewrite In_points. split.
    + intros [i [Hi [Hf ->]]]. apply fires_unfold in Hf; [|exact Hi].
      destruct Hf as [Hst [Hprev Hcur]].
      exists i, (sample_at data (i - 1)), (sample_at data i).
      repeat split; try assumption; try lia.
      * apply (nth_error_nth' data (mk_sample 0 0 0)). lia.
      * apply (nth_error_nth' data (mk_sample 0 0 0)). lia.
    + intros [i [prev [cur [H1 [Hp [Hc [Hst [Hprev [Hcur ->]]]]]]]]].
      apply nth_error_sample_at in Hp, Hc.
      destruct Hp as [_ Hp]. destruct Hc as [Hi Hc].
      exists i. split; [lia|]. split.
      * apply fires_unfold; [lia|]. unfold magnitude. rewrite Hp, Hc. auto.
      * unfold event_at. rewrite Hc. reflexivity.
  - intro e. rewrite In_points. split.
    + intros [i [Hi [Hf ->]]]. rewrite fires_crosses in Hf.
      apply crosses_unfold in Hf. destruct Hf as [Hprev Hcur].
      exists i, (sample_at data (i - 1)), (sample_at data i).
      repeat split; try assumption; try lia.
      * apply (nth_error_nth' data (mk_sample 0 0 0)). lia.
      * apply (nth_error_nth' data (mk_sample 0 0 0)). lia.
    + intros [i [prev [cur [H1 [Hp [Hc [Hprev [Hcur ->]]]]]]]].
      apply nth_error_sample_at in Hp, Hc.
      destruct Hp as [_ Hp]. destruct Hc as [Hi Hc].
      exists i. split; [lia|]. split.
      * rewrite fires_crosses. apply crosses_unfold.
        unfold magnitude. rewrite Hp, Hc. auto.
      * unfold event_at. rewrite Hc. reflexivity.
  - unfold detector_before. apply scan_detector.
  - intros e He. apply In_points in He. destruct He as [i [Hi [_ ->]]].
    cbn [event_at tp_index]. lia.
  - pose proof (points_indices_increasing data thr) as Hs.
    remember (map tp_index _) as l eqn:El. clear El.
    induction Hs as [|a l Hs IH Hall]; constructor; [|exact IH].
    intro Hin. rewrite Forall_forall in Hall. specialize (Hall a Hin). lia.
Qed.

(** C5.  Hysteresis: whenever the loop emits two consecutive events, at
    indices [i] and [j], then [i < j] and some sample index [k] with
    [i <= k < j] has channel-2 magnitude at or below the threshold; so the
    magnitude does not stay above the threshold from [i] up to [j]. *)
Theorem trigger_hysteresis (data : list sample) (thr : Q)
    (before after : list trigger_point) (e1 e2 : trigger_point) (in_trigger : bool) :
  trigger_loop data thr (List.length data)
  = Ok (before ++ e1 :: e2 :: after, in_trigger) ->
  (tp_index e1 < tp_index e2)%nat /\
  (exists (k : nat) (s : sample),
      (tp_index e1 <= k < tp_index e2)%nat /\
      nth_error data k = Some s /\ Qabs (ch2 s) <= thr) /\
  ~ (forall (k : nat) (s : sample),
        (tp_index e1 <= k < tp_index e2)%nat ->
        nth_error data k = Some s -> thr < Qabs (ch2 s)).
Proof.
  intro Hloop. rewrite trigger_loop_points in Hloop.
  injection Hloop as Hpoints _.
  assert (Hlt : (tp_index e1 < tp_index e2)%nat).
  { pose proof (points_indices_increasing data thr) as Hs.
    rewrite Hpoints, map_app in Hs. cbn [map] in Hs.
    exact (StronglySorted_adjacent _ _ _ _ _ Hs). }
  assert (He2 : In e2 (map (event_at data)
                   (filter (fires data thr) (seq 1 (List.length data - 1))))).
  { rewrite Hpoints. apply in_or_app. right. right. now left. }
  apply In_points in He2. destruct He2 as [j [Hj [Hf He2]]].
  apply fires_unfold in Hf; [|exact Hj]. destruct Hf as [_ [Hprev _]].
  assert (Hidx : tp_index e2 = j) by (rewrite He2; reflexivity).
  assert (Hk : nth_error data (j - 1) = Some (sample_at data (j - 1)))
    by (apply (nth_error_nth' data (mk_sample 0 0 0)); lia).
  split; [exact Hlt|]. split.
  - exists (j - 1)%nat, (sample_at data (j - 1)).
    split; [lia|]. split; [exact Hk | exact Hprev].
  - intro Habove. specialize (Habove (j - 1)%nat (sample_at data (j - 1))).
    apply (Qlt_not_le thr (magnitude data (j - 1))); [|exact Hprev].
    apply Habove; [lia | exact Hk].
Qed.

Lemma trigger_hysteresis_witness :
  (1 < 4)%nat /\
  (exists (k : nat) (s : sample),
      (1 <= k < 4)%nat /\ nth_error two_bursts k = Some s /\ Qabs (ch2 s) <= 1) /\
  ~ (forall (k : nat) (s : sample),
        (1 <= k < 4)%nat -> nth_error two_bursts k = Some s -> 1 < Qabs (ch2 s)).
Proof.
  exact (trigger_hysteresis two_bursts 1 []
           [] (mk_trigger_point 1 1 2) (mk_trigger_point 4 4 (-2)) false eq_refl).
Defined.

Lemma sample_times_increasing (data : list sample) :
  Sorted Qlt (map time data) ->
  forall i j, (i < j < List.length data)%nat ->
              time (sample_at data i) < time (sample_at data j).
Proof.
  intros Hs i j Hij.
  apply Sorted_StronglySorted in Hs; [|exact Qlt_trans].
  pose proof (StronglySorted_nth Qlt 0 (map time data) Hs i j) as H.
  rewrite length_map in H. specialize (H Hij).
  change 0 with (time (mk_sample 0 0 0)) in H. rewrite !map_nth in H. exact H.
Qed.

(** C8, as the specification states it, fails: the loop reports the time
    column of the samples as it finds it, and on a capture whose times run
    backwards the second event carries a smaller time than the first. *)
Lemma trigger_times_not_increasing :
  0 < 1 /\
  exists points in_trigger,
    trigger_loop backwards_data 1 (List.length backwards_data) = Ok (points, in_trigger) /\
    map tp_time points = [2; 0] /\
    ~ StronglySorted Qlt (map tp_time points).
Proof.
  split; [reflexivity|].
  exists [mk_trigger_point 2 1 2; mk_trigger_point 0 3 2], true.
  split; [reflexivity|]. split; [reflexivity|].
  cbn [map tp_time]. intro Hs. inversion Hs as [|? ? _ Hall]; subst.
  inversion Hall as [|? ? Hlt _]; subst. discriminate Hlt.
Qed.

(** C8, amended.  The sample indices of the emitted events are strictly
    increasing for every sample sequence and threshold; when the times of
    the samples are strictly increasing along the sequence, the times of
    the emitted events, in emission order, are strictly increasing too. *)
Theorem trigger_times_increasing (data : list sample) (thr : Q) :
  exists points in_trigger,
    trigger_loop data thr (List.length data) = Ok (points, in_trigger) /\
    StronglySorted lt (map tp_index points) /\
    (Sorted Qlt (map time data) -> StronglySorted Qlt (map tp_time points)).
Proof.
  eexists. eexists. split; [apply trigger_loop_points|].
  split; [apply points_indices_increasing|].
  intro Htimes. rewrite map_map. cbn [event_at tp_time].
  apply (StronglySorted_map lt Qlt).
  - intros i j Hi Hj Hij. apply filter_In in Hi, Hj.
    destruct Hi as [Hi _]. destruct Hj as [Hj _]. apply in_seq in Hi, Hj.
    apply sample_times_increasing; [exact Htimes | lia].
  - apply StronglySorted_filter, StronglySorted_seq.
Qed.

Lemma trigger_times_increasing_witness :
  Sorted Qlt (map time two_bursts) /\
  exists points in_trigger,
    trigger_loop two_bursts 1 (List.length two_bursts) = Ok (points, in_trigger) /\
    StronglySorted lt (map tp_index points) /\
    StronglySorted Qlt (map tp_time points).
Proof.
  assert (Htimes : Sorted Qlt (map time two_bursts))
    by (cbn [two_bursts map time]; repeat constructor).
  split; [exact Htimes|].
  destruct (trigger_times_increasing two_bursts 1)
    as (points & in_trigger & Hloop & Hindex & Htime).
  exists points, in_trigger.
  split; [exact Hloop|]. split; [exact Hindex | exact (Htime Htimes)].
Defined.

(** ** [calculate_analysis] on a non-empty capture *)

(** The squares of a list comprehension: all of them, or [OverflowError]. *)
Lemma map_each_pow2 (values : list Q) :
  map_each pow2 values
  = if squares_fit values then Ok (map (fun v => v ^ 2) values)
    else Raise OverflowError.
Proof.
  unfold squares_fit. induction values as [|v t IH]; [reflexivity|].
  cbn [map_each forallb map]. unfold pow2 at 1.
  destruct (square_overflows v); cbn [bind negb andb]; [reflexivity|].
  rewrite IH. destruct (forallb _ t); reflexivity.
Qed.

Lemma squares_fit_false (values : list Q) :
  squares_fit values = false ->
  exists v, In v values /\ overflow_bound <= v * v.
Proof.
  unfold squares_fit. induction values as [|v t IH]; [discriminate|].
  cbn [forallb]. intro H. apply andb_false_iff in H. destruct H as [H | H].
  - exists v. split; [now left|]. apply negb_false_iff in H.
    unfold square_overflows in H. now apply Qle_bool_iff.
  - destruct (IH H) as (w & Hw & Hover). exists w. split; [now right | exact Hover].
Qed.

Lemma squares_fit_true (values : list Q) :
  squares_fit values = true ->
  forall v, In v values -> ~ overflow_bound <= v * v.
Proof.
  unfold squares_fit. intros H v Hv Hover.
  rewrite forallb_forall in H. specialize (H v Hv).
  apply negb_true_iff in H. unfold square_overflows in H.
  apply Qle_bool_iff in Hover. congruence.
Qed.

(** The guard [duration > 0] does not see a quotient that rounds to zero. *)
Lemma sample_rate_outcome (times : list Q) (tmax tmin : Q) :
  (if 1 <? List.length times then
     if Qltb 0 (tmax - tmin) then
       secs <- div (tmax - tmin) 1000 ;;
       div (len_Q times) secs
     else Ok 0
   else Ok 0)
  = if rate_underflows times tmax tmin then Raise ZeroDivisionError
    else Ok (sample_rate_of times tmax tmin).
Proof.
  unfold rate_underflows, sample_rate_of.
  destruct (1 <? List.length times); [|reflexivity]. cbn [andb].
  destruct (Qltb 0 (tmax - tmin)) eqn:E; [|reflexivity]. cbn [andb].
  unfold div at 1. change (Qeq_bool 1000 0) with false. cbn [bind].
  destruct (rounds_to_zero ((tmax - tmin) / 1000)) eqn:R.
  - rewrite (flush_zero _ R). reflexivity.
  - rewrite (flush_keeps _ R). unfold div.
    destruct (Qeq_bool ((tmax - tmin) / 1000) 0) eqn:Z; [|reflexivity].
    apply Qeq_bool_iff in Z. apply Qltb_lt in E.
    assert (H : 0 < (tmax - tmin) / 1000).
    { apply Qlt_shift_div_l; [reflexivity | rewrite Qmult_0_l; exact E]. }
    rewrite Z in H. exfalso. exact (Qlt_irrefl _ H).
Qed.



Section Analysis.

Variable np_sqrt : Q -> Q.
Variable ln : Q -> Q.
Variable np_mean : list Q -> Q.
Variable np_std : list Q -> Q.

(** The three ways out of the analysis of a non-empty capture, in the
    order in which the code reaches them. *)
Lemma calculate_analysis_nonempty (s : sample) (rest : list sample) (thr : Q) :
  let data := s :: rest in
  let tmax := max_from (time s) (map time rest) in
  let tmin := min_from (time s) (map time rest) in
  let min1 := min_from (ch1 s) (map ch1 rest) in
  let max1 := max_from (ch1 s) (map ch1 rest) in
  let min2 := min_from (ch2 s) (map ch2 rest) in
  let max2 := max_from (ch2 s) (map ch2 rest) in
  let points :=
    map (event_at data) (filter (fires data thr) (seq 1 (List.length data - 1))) in
  calculate_analysis np_sqrt ln np_mean np_std data thr
  = if squares_fit (map ch1 data) then
      if squares_fit (map ch2 data) then
        if rate_underflows (map time data) tmax tmin then Raise ZeroDivisionError
        else
          Ok (Filled
                (mk_analysis data
                   (mk_ch1 min1 max1 ((max1 - min1) * 1000)
                      (np_sqrt (np_mean (map (fun v => v ^ 2) (map ch1 data))))
                      (np_std (map ch1 data) * 1000)
                      (ringdown_reference ln (map ch1 data)))
                   (mk_ch2 min2 max2 (max2 - min2)
                      (np_sqrt (np_mean (map (fun v => v ^ 2) (map ch2 data)))))
                   (mk_trigger thr points (List.length points))
                   (mk_metadata (List.length data)
                      (sample_rate_of (map time data) tmax tmin)
                      (tmax - tmin) tmin tmax)))
      else Raise OverflowError
    else Raise OverflowError.
Proof.
  intros data tmax tmin min1 max1 min2 max2 points.
  subst data tmax tmin min1 max1 min2 max2 points.
  unfold calculate_analysis. cbn [map min max bind].
  change (ch1 s :: map ch1 rest) with (map ch1 (s :: rest)).
  change (ch2 s :: map ch2 rest) with (map ch2 (s :: rest)).
  rewrite (map_each_pow2 (map ch1 (s :: rest))).
  destruct (squares_fit (map ch1 (s :: rest))); cbn [bind]; [|reflexivity].
  rewrite (map_each_pow2 (map ch2 (s :: rest))).
  destruct (squares_fit (map ch2 (s :: rest))); cbn [bind]; [|reflexivity].
  rewrite trigger_loop_points. cbn [bind fst].
  rewrite calculate_ringdown_eq. cbn [bind].
  rewrite (sample_rate_outcome (time s :: map time rest)
             (max_from (time s) (map time rest))
             (min_from (time s) (map time rest))).
  destruct (rate_underflows _ _ _); reflexivity.
Qed.

(** Every result of the analysis comes from a non-empty capture whose
    squares fit and whose sample rate is defined, and its fields are as
    follows. *)
Lemma calculate_analysis_returns (data : list sample) (thr : Q) (r : analysis_record) :
  calculate_analysis np_sqrt ln np_mean np_std data thr = Ok (Filled r) ->
  exists (s : sample) (rest : list sample),
    let tmax := max_from (time s) (map time rest) in
    let tmin := min_from (time s) (map time rest) in
    data = s :: rest /\
    squares_fit (map ch1 data) = true /\
    squares_fit (map ch2 data) = true /\
    rate_underflows (map time data) tmax tmin = false /\
    raw_data r = data /\
    ch1_min (an_ch1 r) = min_from (ch1 s) (map ch1 rest) /\
    ch1_max (an_ch1 r) = max_from (ch1 s) (map ch1 rest) /\
    ch1_peak_to_peak (an_ch1 r)
    = (ch1_max (an_ch1 r) - ch1_min (an_ch1 r)) * 1000 /\
    ch1_ringdown (an_ch1 r) = ringdown_reference ln (map ch1 data) /\
    ch2_min (an_ch2 r) = min_from (ch2 s) (map ch2 rest) /\
    ch2_max (an_ch2 r) = max_from (ch2 s) (map ch2 rest) /\
    ch2_peak_to_peak (an_ch2 r) = ch2_max (an_ch2 r) - ch2_min (an_ch2 r) /\
    trigger_threshold (an_trigger r) = thr /\
    trigger_loop data thr (List.length data)
    = Ok (trigger_points (an_trigger r),
          snd (scan data thr (List.length data - 1))) /\
    trigger_count (an_trigger r) = List.length (trigger_points (an_trigger r)) /\
    data_points (an_metadata r) = List.length data /\
    duration (an_metadata r) = tmax - tmin /\
    time_start (an_metadata r) = tmin /\
    time_end (an_metadata r) = tmax /\
    sample_rate (an_metadata r) = sample_rate_of (map time data) tmax tmin /\
    ch1_rms (an_ch1 r) = np_sqrt (np_mean (map (fun v => v ^ 2) (map ch1 data))) /\
    ch2_rms (an_ch2 r) = np_sqrt (np_mean (map (fun v => v ^ 2) (map ch2 data))) /\
    ch1_noise (an_ch1 r) = np_std (map ch1 data) * 1000.
Proof.
  intro Hr. destruct data as [|s rest]; [discriminate Hr|].
  exists s, rest. intros tmax tmin.
  rewrite calculate_analysis_nonempty in Hr.
  destruct (squares_fit (map ch1 (s :: rest))); [|discriminate Hr].
  destruct (squares_fit (map ch2 (s :: rest))); [|discriminate Hr].
  fold tmax tmin in Hr.
  destruct (rate_underflows (map time (s :: rest)) tmax tmin); [discriminate Hr|].
  injection Hr as <-.
  cbn [raw_data an_ch1 an_ch2 an_trigger an_metadata trigger_points trigger_count
       trigger_threshold ch1_min ch1_max ch1_peak_to_peak ch1_ringdown ch1_rms
       ch1_noise ch2_min ch2_max ch2_peak_to_peak ch2_rms data_points duration
       time_start time_end sample_rate].
  rewrite trigger_loop_points.
  repeat split; reflexivity.
Qed.

End Analysis.

(** ** Peak-to-peak and run metadata: the claims *)

Lemma two_bursts_finite : finite_capture two_bursts.
Proof.
  intros s Hs. cbn [two_bursts In] in Hs.
  repeat (destruct Hs as [<- | Hs]; [repeat split; vm_compute; discriminate|]).
  destruct Hs.
Qed.

Lemma overflow_data_finite : finite_capture overflow_data.
Proof.
  intros s [<- | []]. repeat split; vm_compute; discriminate.
Qed.

Lemma underflow_data_finite : finite_capture underflow_data.
Proof.
  intros s [<- | [<- | []]]; repeat split; vm_compute; discriminate.
Qed.

(** Evaluates the test of the conditional that [H] states. *)
Ltac decide_test H :=
  match type of H with
  | (if ?c then _ else _) =>
      let b := eval vm_compute in c in
      replace c with b in H by (vm_compute; reflexivity);
      cbv beta iota in H
  end.

Lemma Qminus_nonneg (a b : Q) : a <= b -> 0 <= b - a.
Proof. intro H. unfold Qminus. now rewrite <- Qle_minus_iff. Qed.


(** C6, as the specification states it, fails: the capture that holds the
    one sample [0, 1e200, 0] is not empty, and the analysis of it raises
    [OverflowError] at [v**2], so that no [peak_to_peak] is reported and
    the worker emits [{}]. *)
Lemma peak_to_peak_overflow :
  finite_capture overflow_data /\
  overflow_data <> [] /\
  load_csv_data decimal_float overflow_text = Ok overflow_data /\
  calculate_analysis approx_sqrt approx_ln exact_mean approx_std overflow_data 1 = Raise OverflowError /\
  (forall r : analysis_record, calculate_analysis approx_sqrt approx_ln exact_mean approx_std overflow_data 1 <> Ok (Filled r)) /\
  run decimal_float approx_sqrt approx_ln exact_mean approx_std overflow_text 1 = EmptyDict.
Proof.
  assert (H : calculate_analysis approx_sqrt approx_ln exact_mean approx_std overflow_data 1 = Raise OverflowError)
    by (vm_compute; reflexivity).
  split; [exact overflow_data_finite|].
  split; [discriminate|]. split; [vm_compute; reflexivity|].
  split; [exact H|]. split; [intros r Hr; rewrite H in Hr; discriminate Hr|].
  vm_compute. reflexivity.
Qed.

(** C6, amended.  For every non-empty sequence of finite samples the
    analysis raises [OverflowError] exactly when the square of a channel-1
    or channel-2 value is out of the range of a float; and in every result
    that it returns, channel 2's [peak_to_peak] is the greatest channel-2
    value minus the smallest one, channel 1's [peak_to_peak] is the
    greatest channel-1 value minus the smallest one, times 1000, and both
    are [>= 0]. *)
Theorem peak_to_peak_correct (np_sqrt ln : Q -> Q) (np_mean np_std : list Q -> Q)
    (data : list sample) (thr : Q) :
  finite_capture data ->
  data <> [] ->
  (calculate_analysis np_sqrt ln np_mean np_std data thr = Raise OverflowError <->
   exists v, In v (map ch1 data ++ map ch2 data) /\ overflow_bound <= v * v) /\
  forall r : analysis_record,
    calculate_analysis np_sqrt ln np_mean np_std data thr = Ok (Filled r) ->
    exists max1 min1 max2 min2 : Q,
      is_maximum (map ch1 data) max1 /\
      is_minimum (map ch1 data) min1 /\
      is_maximum (map ch2 data) max2 /\
      is_minimum (map ch2 data) min2 /\
      ch2_peak_to_peak (an_ch2 r) = max2 - min2 /\
      ch1_peak_to_peak (an_ch1 r) = (max1 - min1) * 1000 /\
      0 <= ch2_peak_to_peak (an_ch2 r) /\
      0 <= ch1_peak_to_peak (an_ch1 r).
Proof.
  intros _ Hne. split.
  - destruct data as [|s rest]; [congruence|].
    rewrite calculate_analysis_nonempty.
    destruct (squares_fit (map ch1 (s :: rest))) eqn:H1.
    + destruct (squares_fit (map ch2 (s :: rest))) eqn:H2.
      * split.
        -- destruct (rate_underflows _ _ _); discriminate.
        -- intros (v & Hv & Hover). exfalso. apply in_app_or in Hv.
           destruct Hv as [Hv | Hv];
             [exact (squares_fit_true _ H1 v Hv Hover)
             | exact (squares_fit_true _ H2 v Hv Hover)].
      * split; [|reflexivity]. intros _.
        destruct (squares_fit_false _ H2) as (v & Hv & Hover).
        exists v. split; [apply in_or_app; now right | exact Hover].
    + split; [|reflexivity]. intros _.
      destruct (squares_fit_false _ H1) as (v & Hv & Hover).
      exists v. split; [apply in_or_app; now left | exact Hover].
  - intros r Hr.
    destruct (calculate_analysis_returns np_sqrt ln np_mean np_std data thr r Hr)
      as (s & rest & -> & _ & _ & _ & _ & Hmin1 & Hmax1 & Hpp1 & _ & Hmin2 & Hmax2
          & Hpp2 & _).
    exists (max_from (ch1 s) (map ch1 rest)), (min_from (ch1 s) (map ch1 rest)),
      (max_from (ch2 s) (map ch2 rest)), (min_from (ch2 s) (map ch2 rest)).
    rewrite Hpp1, Hpp2, Hmin1, Hmax1, Hmin2, Hmax2.
    split; [apply (max_is_maximum (ch1 s) (map ch1 rest))|].
    split; [apply (min_is_minimum (ch1 s) (map ch1 rest))|].
    split; [apply (max_is_maximum (ch2 s) (map ch2 rest))|].
    split; [apply (min_is_minimum (ch2 s) (map ch2 rest))|].
    split; [reflexivity|]. split; [reflexivity|]. split.
    + apply Qminus_nonneg, min_le_max.
    + apply Qmult_le_0_compat; [apply Qminus_nonneg, min_le_max | discriminate].
Qed.

Lemma peak_to_peak_correct_witness :
  exists r : analysis_record,
    finite_capture two_bursts /\
    two_bursts <> [] /\
    calculate_analysis approx_sqrt approx_ln exact_mean approx_std two_bursts 1 = Ok (Filled r) /\
    exists max1 min1 max2 min2 : Q,
      is_maximum (map ch1 two_bursts) max1 /\
      is_minimum (map ch1 two_bursts) min1 /\
      is_maximum (map ch2 two_bursts) max2 /\
      is_minimum (map ch2 two_bursts) min2 /\
      ch2_peak_to_peak (an_ch2 r) = max2 - min2 /\
      ch1_peak_to_peak (an_ch1 r) = (max1 - min1) * 1000 /\
      0 <= ch2_peak_to_peak (an_ch2 r) /\
      0 <= ch1_peak_to_peak (an_ch1 r).
Proof.
  assert (H : exists r, calculate_analysis approx_sqrt approx_ln exact_mean approx_std two_bursts 1 = Ok (Filled r))
    by (vm_compute; eexists; reflexivity).
  assert (Hne : two_bursts <> []) by discriminate.
  destruct H as [r Hr]. exists r.
  split; [exact two_bursts_finite|]. split; [exact Hne|]. split; [exact Hr|].
  exact (proj2 (peak_to_peak_correct approx_sqrt approx_ln exact_mean approx_std
                  two_bursts 1 two_bursts_finite Hne) r Hr).
Defined.




(** ** Text: substrings and lines *)

Lemma append_assoc (a b c : string) :
  ((a ++ b) ++ c = a ++ (b ++ c))%string.
Proof. induction a as [|x a IH]; simpl; [reflexivity | now rewrite IH]. Qed.

Lemma prefix_iff (n : string) :
  forall h, String.prefix n h = true <-> exists s, h = (n ++ s)%string.
Proof.
  induction n as [|a n IH]; intro h.
  - split; [intros _; exists h; reflexivity | intros _; destruct h; reflexivity].
  - destruct h as [|b h]; simpl.
    + split; [discriminate | intros [s Hs]; discriminate Hs].
    + destruct (ascii_dec a b) as [-> | Hne].
      * rewrite IH. split; intros [s Hs]; exists s; congruence.
      * split; [discriminate | intros [s Hs]; congruence].
Qed.

Lemma contains_iff (n : string) :
  forall h, contains n h = true <-> exists p s, h = (p ++ n ++ s)%string.
Proof.
  induction h as [|c h IH].
  - cbn [contains]. destruct (String.prefix n "") eqn:E.
    + apply prefix_iff in E. destruct E as [s Hs].
      split; [intros _; exists EmptyString, s; exact Hs | reflexivity].
    + split; [discriminate|]. intros [p [s Hs]].
      destruct p; [|discriminate Hs].
      assert (String.prefix n "" = true) by (apply prefix_iff; exists s; exact Hs).
      congruence.
  - cbn [contains]. destruct (String.prefix n (String c h)) eqn:E.
    + apply prefix_iff in E. destruct E as [s Hs].
      split; [intros _; exists EmptyString, s; exact Hs | reflexivity].
    + rewrite IH. split.
      * intros [p [s Hs]]. exists (String c p), s. simpl. now rewrite Hs.
      * intros [p [s Hs]]. destruct p as [|c' p].
        -- assert (String.prefix n (String c h) = true)
             by (apply prefix_iff; exists s; exact Hs).
           congruence.
        -- exists p, s. simpl in Hs. congruence.
Qed.

Lemma contains_inside (n p l s : string) :
  contains n l = true -> contains n (p ++ l ++ s)%string = true.
Proof.
  intro H. apply contains_iff in H. destruct H as [p' [s' ->]].
  apply contains_iff. exists (p ++ p')%string, (s' ++ s)%string.
  now rewrite !append_assoc.
Qed.

Lemma readlines_join (text : string) : join (readlines text) = text.
Proof.
  induction text as [|c rest IH]; [reflexivity|].
  cbn [readlines]. destruct (Ascii.eqb c newline).
  - cbn [join fold_right]. fold (join (readlines rest)). rewrite IH. reflexivity.
  - destruct (readlines rest) as [|l ls].
    + cbn in IH. subst rest. reflexivity.
    + cbn [join fold_right] in *. simpl. now rewrite IH.
Qed.

Lemma join_app (l1 l2 : list string) :
  join (l1 ++ l2) = (join l1 ++ join l2)%string.
Proof.
  induction l1 as [|a l1 IH]; [reflexivity|].
  change (join ((a :: l1) ++ l2)) with (a ++ join (l1 ++ l2))%string.
  change (join (a :: l1)) with (a ++ join l1)%string.
  now rewrite IH, append_assoc.
Qed.

(** A marker found in a line occurs in the text. *)
Lemma contains_line (n text line : string) :
  In line (readlines text) -> contains n line = true -> contains n text = true.
Proof.
  intros Hin Hc. apply in_split in Hin. destruct Hin as [l1 [l2 Hl]].
  rewrite <- (readlines_join text), Hl, join_app.
  cbn [join fold_right]. apply contains_inside. exact Hc.
Qed.

(** ** [load_csv_data] *)

Lemma find_data_start_none (lines : list string) :
  (forall l, In l lines -> contains header_marker l = false) ->
  forall i, find_data_start i lines = (-1)%Z.
Proof.
  induction lines as [|l lines IH]; intros Hno i; [reflexivity|].
  cbn [find_data_start]. rewrite (Hno l) by now left.
  apply IH. intros l' Hl'. apply Hno. now right.
Qed.

Lemma find_data_start_found (pre : list string) (hdr : string) (post : list string) :
  (forall l, In l pre -> contains header_marker l = false) ->
  contains header_marker hdr = true ->
  forall i, find_data_start i (pre ++ hdr :: post) = (i + Z.of_nat (List.length pre))%Z.
Proof.
  intros Hpre Hhdr. induction pre as [|l pre IH]; intro i.
  - cbn [app find_data_start]. rewrite Hhdr. simpl. lia.
  - cbn [app find_data_start]. rewrite (Hpre l) by now left.
    rewrite IH by (intros l' Hl'; apply Hpre; now right).
    cbn [List.length]. lia.
Qed.

Section Parser.

Variable float : string -> option Q.

(** A row that is not valid leaves [data] as it is. *)
Lemma load_row_skips (data : list sample) (line : string) :
  ~ valid_row float line -> load_row float data line = Ok data.
Proof.
  intro Hinv. unfold load_row.
  destruct (strip line) as [|c body] eqn:Hstrip; [reflexivity|].
  destruct (split "," (String c body)) as [|f0 [|f1 [|f2 more]]] eqn:Hsplit;
    try reflexivity.
  cbn [List.length Nat.leb]. unfold parse_parts, getitem, py_float.
  cbn [nth_error bind].
  destruct (float f0) as [t|] eqn:H0; [|reflexivity]. cbn [bind].
  destruct (float f1) as [a|] eqn:H1; [|reflexivity]. cbn [bind].
  destruct (float f2) as [b|] eqn:H2; [|reflexivity].
  exfalso. apply Hinv. exists f0, f1, f2, more, t, a, b.
  rewrite Hstrip. repeat split; try assumption. discriminate.
Qed.

Lemma load_rows_skip (lines : list string) :
  (forall l, In l lines -> ~ valid_row float l) ->
  forall data, for_each (load_row float) lines data = Ok data.
Proof.
  induction lines as [|l lines IH]; intros Hinv data; [reflexivity|].
  cbn [for_each]. rewrite load_row_skips by (apply Hinv; now left).
  cbn [bind]. apply IH. intros l' Hl'. apply Hinv. now right.
Qed.

Lemma load_csv_data_no_header (text : string) :
  contains header_marker text = false ->
  load_csv_data float text = Raise header_error.
Proof.
  intro Hno. unfold load_csv_data.
  rewrite find_data_start_none; [reflexivity|].
  intros l Hl. destruct (contains header_marker l) eqn:E; [|reflexivity].
  rewrite (contains_line _ _ _ Hl E) in Hno. discriminate Hno.
Qed.

Lemma load_csv_data_header_only (text : string) (pre : list string) (hdr : string)
    (post : list string) :
  readlines text = pre ++ hdr :: post ->
  (forall l, In l pre -> contains header_marker l = false) ->
  contains header_marker hdr = true ->
  (forall l, In l post -> ~ valid_row float l) ->
  load_csv_data float text = Ok [].
Proof.
  intros Hlines Hpre Hhdr Hpost. unfold load_csv_data. rewrite Hlines.
  rewrite (find_data_start_found pre hdr post Hpre Hhdr).
  destruct (0 + Z.of_nat (List.length pre) =? -1)%Z eqn:E;
    [apply Z.eqb_eq in E; lia|].
  unfold lines_from.
  replace (Z.to_nat (0 + Z.of_nat (List.length pre) + 1))
    with (List.length pre + 1)%nat by lia.
  rewrite skipn_app, skipn_all2 by lia.
  replace (List.length pre + 1 - List.length pre)%nat with 1%nat by lia.
  cbn [app skipn]. apply load_rows_skip. exact Hpost.
Qed.

End Parser.

(** ** Parsing: the claims *)

(** C7.  When the header marker occurs nowhere in the text, [load_csv_data]
    raises the header error and returns no data; the worker reports the
    failure by emitting the empty dictionary. *)
Theorem missing_header_fails (float : string -> option Q) (np_sqrt ln : Q -> Q) (np_mean np_std : list Q -> Q)
    (text : string) (thr : Q) :
  contains header_marker text = false ->
  load_csv_data float text = Raise header_error /\
  (forall data, load_csv_data float text <> Ok data) /\
  run float np_sqrt ln np_mean np_std text thr = EmptyDict /\
  reports_failure (run float np_sqrt ln np_mean np_std text thr) = true.
Proof.
  intro Hno. pose proof (load_csv_data_no_header float text Hno) as Hload.
  assert (Hrun : run float np_sqrt ln np_mean np_std text thr = EmptyDict)
    by (unfold run; rewrite Hload; reflexivity).
  split; [exact Hload|]. split; [intros data; rewrite Hload; discriminate|].
  split; [exact Hrun | rewrite Hrun; reflexivity].
Qed.

Lemma missing_header_fails_witness :
  load_csv_data decimal_float headerless_text = Raise header_error /\
  (forall data, load_csv_data decimal_float headerless_text <> Ok data) /\
  run decimal_float approx_sqrt approx_ln exact_mean approx_std headerless_text 1 = EmptyDict /\
  reports_failure (run decimal_float approx_sqrt approx_ln exact_mean approx_std headerless_text 1) = true.
Proof.
  apply (missing_header_fails decimal_float approx_sqrt approx_ln exact_mean approx_std headerless_text 1).
  vm_compute. reflexivity.
Defined.

(** C1, as the specification states it, fails: on a capture that holds the
    header row and nothing else the analysis has no [data_points] and no
    [sample_rate]; the worker emits the empty dictionary, the very value it
    emits when the header is missing, and the window reports a failure. *)
Lemma header_only_reported_as_failure :
  readlines header_only_text = [String.append header_marker nl] /\
  load_csv_data decimal_float header_only_text = Ok [] /\
  run decimal_float approx_sqrt approx_ln exact_mean approx_std header_only_text 1 = EmptyDict /\
  ~ (exists r : analysis_record,
        run decimal_float approx_sqrt approx_ln exact_mean approx_std header_only_text 1 = Filled r /\
        data_points (an_metadata r) = 0%nat /\
        sample_rate (an_metadata r) == 0) /\
  run decimal_float approx_sqrt approx_ln exact_mean approx_std header_only_text 1
  = run decimal_float approx_sqrt approx_ln exact_mean approx_std headerless_text 1 /\
  reports_failure (run decimal_float approx_sqrt approx_ln exact_mean approx_std header_only_text 1) = true.
Proof.
  assert (Hrun : run decimal_float approx_sqrt approx_ln exact_mean approx_std header_only_text 1 = EmptyDict)
    by (vm_compute; reflexivity).
  split; [vm_compute; reflexivity|]. split; [vm_compute; reflexivity|].
  split; [exact Hrun|]. split.
  - intros [r [Hr _]]. rewrite Hrun in Hr. discriminate Hr.
  - split; vm_compute; reflexivity.
Qed.

(** C1, amended.  When the text holds the header row and no valid data row
    after it, [load_csv_data] does not raise and returns the empty sequence;
    [calculate_analysis] then returns the empty dictionary, which carries no
    metadata, and the worker emits it, as it does on a failure. *)
Theorem header_without_rows (float : string -> option Q) (np_sqrt ln : Q -> Q) (np_mean np_std : list Q -> Q)
    (text : string) (thr : Q) (pre : list string) (hdr : string) (post : list string) :
  readlines text = pre ++ hdr :: post ->
  (forall l, In l pre -> contains header_marker l = false) ->
  contains header_marker hdr = true ->
  (forall l, In l post -> ~ valid_row float l) ->
  load_csv_data float text = Ok [] /\
  calculate_analysis np_sqrt ln np_mean np_std [] thr = Ok EmptyDict /\
  run float np_sqrt ln np_mean np_std text thr = EmptyDict /\
  reports_failure (run float np_sqrt ln np_mean np_std text thr) = true.
Proof.
  intros Hlines Hpre Hhdr Hpost.
  pose proof (load_csv_data_header_only float text pre hdr post
                Hlines Hpre Hhdr Hpost) as Hload.
  assert (Hrun : run float np_sqrt ln np_mean np_std text thr = EmptyDict)
    by (unfold run; rewrite Hload; reflexivity).
  split; [exact Hload|]. split; [reflexivity|].
  split; [exact Hrun | rewrite Hrun; reflexivity].
Qed.

Lemma header_without_rows_witness :
  load_csv_data decimal_float skipped_rows_text = Ok [] /\
  calculate_analysis approx_sqrt approx_ln exact_mean approx_std [] 1 = Ok EmptyDict /\
  run decimal_float approx_sqrt approx_ln exact_mean approx_std skipped_rows_text 1 = EmptyDict /\
  reports_failure (run decimal_float approx_sqrt approx_ln exact_mean approx_std skipped_rows_text 1) = true.
Proof.
  apply (header_without_rows decimal_float approx_sqrt approx_ln exact_mean approx_std skipped_rows_text 1
           [String.append "scope export" nl]
           (String.append header_marker nl)
           [nl; String.append "0.001,0.30" nl; String.append "0.002,0.05,amps" nl]).
  - vm_compute. reflexivity.
  - intros l [<- | []]. vm_compute. reflexivity.
  - vm_compute. reflexivity.
  - intros l Hl (f0 & f1 & f2 & more & t & a & b & Hsplit & Hne & H0 & H1 & H2).
    destruct Hl as [<- | [<- | [<- | []]]].
    + apply Hne. vm_compute. reflexivity.
    + vm_compute in Hsplit. discriminate Hsplit.
    + vm_compute in Hsplit. injection Hsplit as <- <- <- <-.
      vm_compute in H2. discriminate H2.
Defined.

(** ** Pass/fail evaluation: the claims *)

Lemma within_iff (lsl v usl : Q) : within lsl v usl = true <-> lsl <= v /\ v <= usl.
Proof. unfold within. now rewrite andb_true_iff, !Qle_bool_iff. Qed.

Lemma all_values_iff (results : list (string * bool)) :
  all_values results = true <-> forall k b, In (k, b) results -> b = true.
Proof.
  unfold all_values. rewrite forallb_forall. split.
  - intros H k b Hin. exact (H (k, b) Hin).
  - intros H [k b] Hin. exact (H k b Hin).
Qed.

(** C2.  For every window that holds an analysis result (the window
    evaluates only then: its two callers return before the call when it
    holds none), whatever the limits, the trigger-current setting and the
    test type:
    the criteria are [peak_to_peak], [trigger_current], [noise] and
    [ringdown]; each of the first three, and [ringdown] when the test type
    requires it, is true exactly when [lsl <= measured value <= usl], both
    bounds inclusive; [ringdown] is true when the test type does not require
    it; and the verdict is ["pass"] exactly when every criterion is true,
    ["fail"] otherwise. *)
Theorem verdict_of_analysis (self : window) (a : analysis_record) :
  current_analysis self = Some (Filled a) ->
  let v := evaluate_pass_fail self in
  let ch1 := an_ch1 a in
  map fst (details v)
  = ["peak_to_peak"; "trigger_current"; "noise"; "ringdown"]%string /\
  (lookup "peak_to_peak" (details v) = Some true <->
   peak_lsl_spin self <= ch1_peak_to_peak ch1 /\
   ch1_peak_to_peak ch1 <= peak_usl_spin self) /\
  (lookup "trigger_current" (details v) = Some true <->
   trigger_lsl_spin self <= trigger_current_spin self /\
   trigger_current_spin self <= trigger_usl_spin self) /\
  (lookup "noise" (details v) = Some true <->
   noise_lsl_spin self <= ch1_noise ch1 /\ ch1_noise ch1 <= noise_usl_spin self) /\
  (has_ringdown (test_type_combo self) = true ->
   (lookup "ringdown" (details v) = Some true <->
    ringdown_lsl_spin self <= ringdown_voltage (ch1_ringdown ch1) /\
    ringdown_voltage (ch1_ringdown ch1) <= ringdown_usl_spin self)) /\
  (has_ringdown (test_type_combo self) = false ->
   lookup "ringdown" (details v) = Some true) /\
  (overall v = "pass"%string <-> forall k b, In (k, b) (details v) -> b = true) /\
  (overall v <> "pass"%string -> overall v = "fail"%string).
Proof.
  intros Ha v ch1. subst v ch1. unfold evaluate_pass_fail. rewrite Ha.
  set (p := within (peak_lsl_spin self) _ _).
  set (t := within (trigger_lsl_spin self) _ _).
  set (n := within (noise_lsl_spin self) _ _).
  assert (Hp := within_iff (peak_lsl_spin self) (ch1_peak_to_peak (an_ch1 a))
                  (peak_usl_spin self)).
  assert (Ht := within_iff (trigger_lsl_spin self) (trigger_current_spin self)
                  (trigger_usl_spin self)).
  assert (Hn := within_iff (noise_lsl_spin self) (ch1_noise (an_ch1 a))
                  (noise_usl_spin self)).
  assert (Hr := within_iff (ringdown_lsl_spin self)
                  (ringdown_voltage (ch1_ringdown (an_ch1 a)))
                  (ringdown_usl_spin self)).
  fold p in Hp. fold t in Ht. fold n in Hn.
  assert (Hsome : forall b : bool, Some b = Some true <-> b = true)
    by (intro b; split; congruence).
  destruct (has_ringdown (test_type_combo self));
    cbn [app details overall map fst lookup String.eqb Ascii.eqb Bool.eqb];
    cbn [String.eqb Ascii.eqb Bool.eqb];
    (split; [reflexivity|]);
    (split; [rewrite Hsome; exact Hp|]);
    (split; [rewrite Hsome; exact Ht|]);
    (split; [rewrite Hsome; exact Hn|]).
  - split; [intros _; rewrite Hsome; exact Hr|]. split; [discriminate|].
    match goal with |- context [all_values ?l] =>
      pose proof (all_values_iff l) as Hall; destruct (all_values l) end.
    + split; [split; [intros _; now apply Hall | reflexivity] | congruence].
    + split; [split; [discriminate | intro H; apply Hall in H; discriminate H]
             | reflexivity].
  - split; [discriminate|]. split; [reflexivity|].
    match goal with |- context [all_values ?l] =>
      pose proof (all_values_iff l) as Hall; destruct (all_values l) end.
    + split; [split; [intros _; now apply Hall | reflexivity] | congruence].
    + split; [split; [discriminate | intro H; apply Hall in H; discriminate H]
             | reflexivity].
Qed.

Lemma verdict_of_analysis_witness :
  exists a : analysis_record,
    current_analysis (window_after example_analysis DC02) = Some (Filled a) /\
    (overall (evaluate_pass_fail (window_after example_analysis DC02)) = "pass"%string
     <-> forall k b,
         In (k, b) (details (evaluate_pass_fail (window_after example_analysis DC02))) ->
         b = true).
Proof.
  eexists. split; [reflexivity|].
  exact (proj1 (proj2 (proj2 (proj2 (proj2 (proj2 (proj2
           (verdict_of_analysis (window_after example_analysis DC02) _ eq_refl)))))))).
Defined.

(** ** Ringdown: the claims *)

(** Before the peak every sample is strictly smaller in magnitude. *)
Lemma peak_index_first (l : list Q) :
  forall i, (i < peak_index l)%nat ->
            Qabs (nth i l 0) < Qabs (nth (peak_index l) l 0).
Proof.
  induction l as [|v rest IH]; intros i Hi; [simpl in Hi; lia|].
  simpl in *. destruct (forallb _ rest) eqn:E; [lia|].
  destruct i as [|i]; [|apply IH; lia].
  assert (Hex : existsb (fun w => negb (Qle_bool (Qabs w) (Qabs v))) rest = true).
  { clear IH Hi. induction rest as [|w r IHr]; [discriminate E|].
    simpl in *. destruct (Qle_bool (Qabs w) (Qabs v)); simpl in *; auto. }
  apply existsb_exists in Hex. destruct Hex as [w [Hw Hgt]].
  apply negb_true_iff, Qle_bool_false in Hgt.
  eapply Qlt_le_trans; [exact Hgt | now apply peak_index_maximal].
Qed.

(** C3.  For every channel-1 sequence [calculate_ringdown] returns, without
    raising and without a non-finite value, the reference estimate: the zero
    sentinel when there are fewer than 50 samples or the index of maximum
    absolute value lies within the last 20 samples; otherwise, over the
    window of up to 100 samples from that index,
    [(abs(first) - abs(last)) * 1000] and
    [ln(initial / final) / window length] when [initial > final > 0], else 0.
    The index of maximum absolute value is the first index whose magnitude
    no sample exceeds. *)
Theorem ringdown_matches_reference (ln : Q -> Q) (values : list Q) :
  calculate_ringdown ln values = Ok (ringdown_reference ln values) /\
  (forall x, In x values -> Qabs x <= Qabs (nth (peak_index values) values 0)) /\
  (forall i, (i < peak_index values)%nat ->
             Qabs (nth i values 0) < Qabs (nth (peak_index values) values 0)).
Proof.
  split; [apply calculate_ringdown_eq|].
  split; [apply peak_index_maximal | apply peak_index_first].
Qed.

Example ringdown_of_decaying_values :
  calculate_ringdown approx_ln decaying_values
  = Ok (mk_ringdown ((Qabs 1 - Qabs (1 # 60)) * 1000)
                    (approx_ln (Qabs 1 / Qabs (1 # 60)) / inject_Z 60)).
Proof. vm_compute. reflexivity. Qed.

(** C10.  For every channel-1 sequence the estimator returns a result whose
    [ringdown_voltage] is [>= 0]: it is exactly 0 in the sentinel cases, and
    otherwise it is [(abs(first) - abs(last)) * 1000] for the sample [first]
    at the index of maximum absolute value and a sample [last] of the
    sequence, so that [abs(first) >= abs(last)]. *)
Theorem ringdown_voltage_nonneg (ln : Q -> Q) (values : list Q) :
  exists r : ringdown_result,
    calculate_ringdown ln values = Ok r /\
    0 <= ringdown_voltage r /\
    ((List.length values < 50)%nat
     \/ (List.length values - 20 <= peak_index values)%nat ->
     ringdown_voltage r = 0) /\
    (~ ((List.length values < 50)%nat
        \/ (List.length values - 20 <= peak_index values)%nat) ->
     exists first last : Q,
       nth_error values (peak_index values) = Some first /\
       In last values /\
       Qabs last <= Qabs first /\
       ringdown_voltage r = (Qabs first - Qabs last) * 1000).
Proof.
  exists (ringdown_reference ln values).
  split; [apply calculate_ringdown_eq|].
  split; [apply ringdown_reference_nonneg|].
  unfold ringdown_reference.
  destruct ((List.length values <? 50) || (List.length values - 20 <=? peak_index values))
    eqn:Hs.
  - split; [reflexivity|]. intro Hnot. exfalso. apply Hnot.
    apply orb_true_iff in Hs. destruct Hs as [Hs | Hs].
    + left. now apply Nat.ltb_lt.
    + right. now apply Nat.leb_le.
  - apply orb_false_iff in Hs. destruct Hs as [Hlen Htail].
    apply Nat.ltb_ge in Hlen. apply Nat.leb_gt in Htail.
    split; [intros [H | H]; lia|]. intros _.
    set (window := firstn 100 (skipn (peak_index values) values)).
    assert (Hwin : window <> [])
      by (apply (window_nonempty values (peak_index values)); lia).
    exists (nth (peak_index values) values 0), (List.last window 0).
    split; [apply nth_error_nth'; lia|].
    split; [apply (In_window values (peak_index values)), last_In; exact Hwin|].
    split.
    + apply peak_index_maximal.
      apply (In_window values (peak_index values)), last_In. exact Hwin.
    + cbn [ringdown_voltage]. unfold window at 1. rewrite hd_window. reflexivity.
Qed.

Lemma ringdown_voltage_nonneg_witness :
  exists r : ringdown_result,
    calculate_ringdown approx_ln decaying_values = Ok r /\
    0 <= ringdown_voltage r /\
    ((List.length decaying_values < 50)%nat
     \/ (List.length decaying_values - 20 <= peak_index decaying_values)%nat ->
     ringdown_voltage r = 0) /\
    (~ ((List.length decaying_values < 50)%nat
        \/ (List.length decaying_values - 20 <= peak_index decaying_values)%nat) ->
     exists first last : Q,
       nth_error decaying_values (peak_index decaying_values) = Some first /\
       In last decaying_values /\
       Qabs last <= Qabs first /\
       ringdown_voltage r = (Qabs first - Qabs last) * 1000).
Proof.
  exact (ringdown_voltage_nonneg approx_ln decaying_values).
Defined.

(** * Further properties of the code *)

(** ** [load_csv_data]: which texts load, and what they load to *)

Lemma first_line (n : string) :
  no_newline n = true -> n <> EmptyString ->
  forall s, exists l ls, readlines (n ++ s)%string = (n ++ l)%string :: ls.
Proof.
  induction n as [|a n IH]; intros Hnl Hne s; [congruence|].
  cbn [no_newline] in Hnl. apply andb_true_iff in Hnl. destruct Hnl as [Ha Hn].
  apply negb_true_iff in Ha.
  change (String a n ++ s)%string with (String a (n ++ s)%string).
  cbn [readlines]. rewrite Ha.
  destruct n as [|b n'].
  - cbn [String.append]. destruct (readlines s) as [|l ls].
    + exists EmptyString, []. reflexivity.
    + exists l, ls. reflexivity.
  - destruct (IH Hn ltac:(discriminate) s) as [l [ls Hl]]. rewrite Hl.
    exists l, ls. reflexivity.
Qed.

(** A marker without line feed that occurs in the text occurs in a line. *)
Lemma contains_some_line (n : string) :
  no_newline n = true -> n <> EmptyString ->
  forall text, contains n text = true ->
               exists line, In line (readlines text) /\ contains n line = true.
Proof.
  intros Hnl Hne. induction text as [|c rest IH]; intro Hc.
  - cbn [contains] in Hc. destruct (String.prefix n "") eqn:E; [|discriminate].
    apply prefix_iff in E. destruct E as [s Hs]. destruct n; [congruence | discriminate].
  - cbn [contains] in Hc. destruct (String.prefix n (String c rest)) eqn:E.
    + apply prefix_iff in E. destruct E as [s Hs]. rewrite Hs.
      destruct (first_line n Hnl Hne s) as [l [ls Hl]]. rewrite Hl.
      exists (n ++ l)%string. split; [now left|].
      apply contains_iff. exists EmptyString, l. reflexivity.
    + destruct (IH Hc) as [line [Hin Hline]]. cbn [readlines].
      destruct (Ascii.eqb c newline).
      * exists line. split; [now right | exact Hline].
      * destruct (readlines rest) as [|l ls]; [destruct Hin|].
        destruct Hin as [<- | Hin].
        -- exists (String c l). split; [now left|].
           apply (contains_inside n (String c EmptyString) l EmptyString) in Hline.
           replace (String c "" ++ l ++ "")%string with (String c l) in Hline;
             [exact Hline|].
           cbn [String.append]. f_equal. clear. induction l; simpl; congruence.
        -- exists line. split; [now right | exact Hline].
Qed.

(** The lines up to the first header line, that line, and the lines after. *)
Lemma first_header_split (lines : list string) :
  (exists line, In line lines /\ contains header_marker line = true) ->
  exists pre hdr post,
    lines = pre ++ hdr :: post /\
    (forall l, In l pre -> contains header_marker l = false) /\
    contains header_marker hdr = true.
Proof.
  induction lines as [|l lines IH]; intros [line [Hin Hc]]; [destruct Hin|].
  destruct (contains header_marker l) eqn:El.
  - exists [], l, lines. repeat split; [intros ? []|exact El].
  - destruct Hin as [-> | Hin]; [congruence|].
    destruct (IH (ex_intro _ line (conj Hin Hc))) as (pre & hdr & post & -> & Hpre & Hhdr).
    exists (l :: pre), hdr, post. repeat split; [|exact Hhdr].
    intros l' [<- | Hl']; [exact El | now apply Hpre].
Qed.

Section Rows.

Variable float : string -> option Q.

(** One row: nothing is raised, and the row is kept exactly when it is
    valid. *)
Lemma load_row_kept (data : list sample) (line : string) :
  exists d, load_row float data line = Ok (data ++ d) /\ kept_rows float [line] d.
Proof.
  unfold load_row.
  assert (Hskip : ~ valid_row float line ->
                  exists d, Ok data = Ok (data ++ d) /\ kept_rows float [line] d).
  { intro Hinv. exists []. rewrite app_nil_r. split; [reflexivity|].
    apply kept_skip; [exact Hinv | constructor]. }
  destruct (strip line) as [|c body] eqn:Hstrip.
  { apply Hskip. intros (f0 & f1 & f2 & more & t & a & b & _ & Hne & _).
    now apply Hne. }
  destruct (split "," (String c body)) as [|f0 [|f1 [|f2 more]]] eqn:Hsplit;
    try (apply Hskip;
         intros (g0 & g1 & g2 & more' & t & a & b & Hs & _);
         rewrite Hstrip, Hsplit in Hs; discriminate Hs).
  cbn [List.length Nat.leb]. unfold parse_parts, getitem, py_float.
  cbn [nth_error bind].
  assert (Hfields : forall g0 g1 g2 more',
             split "," (strip line) = g0 :: g1 :: g2 :: more' ->
             g0 = f0 /\ g1 = f1 /\ g2 = f2).
  { intros g0 g1 g2 more' Hs. rewrite Hstrip, Hsplit in Hs.
    injection Hs as -> -> -> _. auto. }
  destruct (float f0) as [t|] eqn:H0; cbn [bind].
  2:{ apply Hskip. intros (g0 & g1 & g2 & more' & t & a & b & Hs & _ & Hg0 & _).
      destruct (Hfields _ _ _ _ Hs) as (-> & _). congruence. }
  destruct (float f1) as [a|] eqn:H1; cbn [bind].
  2:{ apply Hskip. intros (g0 & g1 & g2 & more' & t' & a & b & Hs & _ & _ & Hg1 & _).
      destruct (Hfields _ _ _ _ Hs) as (_ & -> & _). congruence. }
  destruct (float f2) as [b|] eqn:H2; cbn [bind].
  2:{ apply Hskip. intros (g0 & g1 & g2 & more' & t' & a' & b & Hs & _ & _ & _ & Hg2).
      destruct (Hfields _ _ _ _ Hs) as (_ & _ & ->). congruence. }
  exists [mk_sample (t * 1000) a b]. split; [reflexivity|].
  apply kept_row; [|constructor].
  exists f0, f1, f2, more, t, a, b. rewrite Hstrip.
  repeat split; try assumption. discriminate.
Qed.

Lemma kept_rows_app (l1 l2 : list string) (d1 d2 : list sample) :
  kept_rows float l1 d1 -> kept_rows float l2 d2 ->
  kept_rows float (l1 ++ l2) (d1 ++ d2).
Proof.
  induction 1; intro H2; cbn [app]; [exact H2 | |].
  - apply kept_skip; auto.
  - apply kept_row; auto.
Qed.

Lemma load_rows_kept (lines : list string) :
  forall data, exists d,
    for_each (load_row float) lines data = Ok (data ++ d) /\ kept_rows float lines d.
Proof.
  induction lines as [|l lines IH]; intro data.
  - exists []. rewrite app_nil_r. split; [reflexivity | constructor].
  - destruct (load_row_kept data l) as [d1 [H1 K1]].
    destruct (IH (data ++ d1)) as [d2 [H2 K2]].
    exists (d1 ++ d2). cbn [for_each]. rewrite H1. cbn [bind]. rewrite H2.
    split; [now rewrite app_assoc|].
    exact (kept_rows_app [l] lines d1 d2 K1 K2).
Qed.

Lemma kept_rows_length (lines : list string) (data : list sample) :
  kept_rows float lines data -> (List.length data <= List.length lines)%nat.
Proof. induction 1; cbn [List.length]; lia. Qed.

Lemma load_csv_data_with_header (text : string) (pre : list string) (hdr : string)
    (post : list string) :
  readlines text = pre ++ hdr :: post ->
  (forall l, In l pre -> contains header_marker l = false) ->
  contains header_marker hdr = true ->
  exists data, load_csv_data float text = Ok data /\ kept_rows float post data.
Proof.
  intros Hlines Hpre Hhdr. unfold load_csv_data. rewrite Hlines.
  rewrite (find_data_start_found pre hdr post Hpre Hhdr).
  destruct (0 + Z.of_nat (List.length pre) =? -1)%Z eqn:E;
    [apply Z.eqb_eq in E; lia|].
  unfold lines_from.
  replace (Z.to_nat (0 + Z.of_nat (List.length pre) + 1))
    with (List.length pre + 1)%nat by lia.
  rewrite skipn_app, skipn_all2 by lia.
  replace (List.length pre + 1 - List.length pre)%nat with 1%nat by lia.
  cbn [app skipn]. destruct (load_rows_kept post []) as [d [Hd Kd]].
  exists d. split; [exact Hd | exact Kd].
Qed.

Lemma load_csv_data_found (text : string) :
  contains header_marker text = true ->
  exists data, load_csv_data float text = Ok data.
Proof.
  intro Hc.
  destruct (contains_some_line header_marker eq_refl ltac:(discriminate) text Hc)
    as [line Hline].
  destruct (first_header_split (readlines text) (ex_intro _ line Hline))
    as (pre & hdr & post & Hlines & Hpre & Hhdr).
  destruct (load_csv_data_with_header text pre hdr post Hlines Hpre Hhdr)
    as [data [Hload _]].
  exists data. exact Hload.
Qed.

(** X1.  [load_csv_data] raises the header error exactly when the marker
    occurs nowhere in the text, and returns a list of samples exactly when
    it occurs somewhere; no row makes it raise. *)
Theorem load_csv_data_header_iff (text : string) :
  (load_csv_data float text = Raise header_error
   <-> contains header_marker text = false) /\
  ((exists data, load_csv_data float text = Ok data)
   <-> contains header_marker text = true).
Proof.
  destruct (contains header_marker text) eqn:Hc.
  - destruct (load_csv_data_found text Hc) as [data Hload]. rewrite Hload.
    split; split; try discriminate; eauto.
  - rewrite (load_csv_data_no_header float text Hc).
    split; split; try reflexivity; try discriminate.
    intros [data Hd]. discriminate Hd.
Qed.

(** X2.  When [hdr] is the first line that contains the marker, the result
    is the list of the samples of the valid rows after [hdr], in file
    order, each with its time multiplied by 1000; the lines before the
    header, blank rows, short rows and rows that are not numeric add
    nothing. *)
Theorem load_csv_data_keeps_valid_rows (text : string) (pre : list string)
    (hdr : string) (post : list string) :
  readlines text = pre ++ hdr :: post ->
  (forall l, In l pre -> contains header_marker l = false) ->
  contains header_marker hdr = true ->
  exists data,
    load_csv_data float text = Ok data /\
    kept_rows float post data /\
    (List.length data <= List.length post)%nat.
Proof.
  intros Hlines Hpre Hhdr.
  destruct (load_csv_data_with_header text pre hdr post Hlines Hpre Hhdr)
    as [data [Hload Hkept]].
  exists data. split; [exact Hload|]. split; [exact Hkept|].
  now apply kept_rows_length.
Qed.

End Rows.

Lemma load_csv_data_keeps_valid_rows_witness :
  exists data,
    load_csv_data decimal_float mixed_text = Ok data /\
    kept_rows decimal_float
      [String.append "0.001,0.30,2.0" nl; nl; String.append "oops" nl;
       String.append "0.002,0.05,0.5" nl] data /\
    (List.length data <= 4)%nat.
Proof.
  apply (load_csv_data_keeps_valid_rows decimal_float mixed_text
           [String.append "scope export" nl] (String.append header_marker nl)).
  - vm_compute. reflexivity.
  - intros l [<- | []]. vm_compute. reflexivity.
  - vm_compute. reflexivity.
Defined.

(** ** [run]: when the worker hands over a result *)

(** X3.  On a file whose samples are finite floats, the worker emits a
    non-empty dictionary exactly when the file loads to at least one
    sample, no square of a channel value of those samples is out of the
    range of a float, and the sample rate is not a division by a duration
    that rounds to zero; that dictionary then holds the loaded samples as
    [raw_data], their number as [data_points] and the trigger current as
    threshold.  In every other case (no header, a header without valid
    rows, an analysis that raises) it emits the empty dictionary. *)
Theorem run_emits (float : string -> option Q) (np_sqrt ln : Q -> Q) (np_mean np_std : list Q -> Q)
    (text : string) (trigger_current : Q) :
  (forall data, load_csv_data float text = Ok data -> finite_capture data) ->
  match load_csv_data float text with
  | Ok (s :: rest) =>
      let data := s :: rest in
      if squares_fit (map ch1 data) && squares_fit (map ch2 data)
         && negb (rate_underflows (map time data)
                    (max_from (time s) (map time rest))
                    (min_from (time s) (map time rest)))
      then
        exists r : analysis_record,
          run float np_sqrt ln np_mean np_std text trigger_current = Filled r /\
          raw_data r = data /\
          data_points (an_metadata r) = List.length data /\
          trigger_threshold (an_trigger r) = trigger_current
      else run float np_sqrt ln np_mean np_std text trigger_current = EmptyDict
  | Ok [] | Raise _ => run float np_sqrt ln np_mean np_std text trigger_current = EmptyDict
  end.
Proof.
  intros _.
  unfold run. destruct (load_csv_data float text) as [[|s rest]|e];
    try reflexivity.
  cbn [bind]. cbv zeta.
  rewrite calculate_analysis_nonempty.
  destruct (squares_fit (map ch1 (s :: rest))); [|reflexivity].
  destruct (squares_fit (map ch2 (s :: rest))); [|reflexivity].
  destruct (rate_underflows _ _ _); [reflexivity|].
  cbn [andb negb]. eexists. split; [reflexivity|].
  cbn [raw_data an_metadata an_trigger data_points trigger_threshold]. auto.
Qed.

Lemma run_emits_witness :
  (forall data, load_csv_data decimal_float overflow_text = Ok data ->
                finite_capture data) /\
  load_csv_data decimal_float overflow_text = Ok overflow_data /\
  run decimal_float approx_sqrt approx_ln exact_mean approx_std overflow_text 1 = EmptyDict.
Proof.
  assert (Hload : load_csv_data decimal_float overflow_text = Ok overflow_data)
    by (vm_compute; reflexivity).
  assert (Hfinite : forall data, load_csv_data decimal_float overflow_text = Ok data ->
                                 finite_capture data).
  { intros data H. rewrite Hload in H. injection H as <-.
    exact overflow_data_finite. }
  split; [exact Hfinite|]. split; [exact Hload|].
  pose proof (run_emits decimal_float approx_sqrt approx_ln exact_mean approx_std overflow_text 1 Hfinite) as H.
  rewrite Hload in H. unfold overflow_data in H. cbv beta iota zeta in H.
  decide_test H. exact H.
Defined.

(** ** [calculate_analysis]: when it raises, and what *)

(** X20.  On a non-empty capture of finite samples the analysis has three
    ways out.  When the square of a channel-1 or channel-2 value is out of
    the range of a float, it raises [OverflowError].  Otherwise, when there
    are at least two samples and the duration is positive but
    [duration / 1000] rounds to zero, the guard [duration > 0] lets the
    division through and it raises [ZeroDivisionError].  Otherwise it
    returns the full dictionary, in which the two [rms] entries are
    [np.sqrt(np.mean(...))] of the squares, [noise] is [np.std] of channel 1
    times 1000 and [ringdown] is the ringdown estimate of channel 1. *)
Theorem analysis_outcome (np_sqrt ln : Q -> Q) (np_mean np_std : list Q -> Q)
    (s : sample) (rest : list sample) (thr : Q) :
  finite_capture (s :: rest) ->
  let data := s :: rest in
  if squares_fit (map ch1 data) && squares_fit (map ch2 data) then
    if rate_underflows (map time data) (max_from (time s) (map time rest))
         (min_from (time s) (map time rest))
    then
      calculate_analysis np_sqrt ln np_mean np_std data thr = Raise ZeroDivisionError /\
      (2 <= List.length data)%nat /\
      exists tmax tmin : Q,
        is_maximum (map time data) tmax /\ is_minimum (map time data) tmin /\
        0 < tmax - tmin /\ Qabs ((tmax - tmin) / 1000) <= underflow_bound
    else
      exists r : analysis_record,
        calculate_analysis np_sqrt ln np_mean np_std data thr = Ok (Filled r) /\
        raw_data r = data /\
        ch1_rms (an_ch1 r) = np_sqrt (np_mean (map (fun v => v ^ 2) (map ch1 data))) /\
        ch2_rms (an_ch2 r) = np_sqrt (np_mean (map (fun v => v ^ 2) (map ch2 data))) /\
        ch1_noise (an_ch1 r) = np_std (map ch1 data) * 1000 /\
        calculate_ringdown ln (map ch1 data) = Ok (ch1_ringdown (an_ch1 r))
  else
    calculate_analysis np_sqrt ln np_mean np_std data thr = Raise OverflowError /\
    exists v : Q,
      In v (map ch1 data ++ map ch2 data) /\ overflow_bound <= v * v.
Proof.
  intros _. cbv zeta. rewrite calculate_analysis_nonempty.
  destruct (squares_fit (map ch1 (s :: rest))) eqn:H1; cbn [andb].
  - destruct (squares_fit (map ch2 (s :: rest))) eqn:H2.
    + destruct (rate_underflows _ _ _) eqn:Hu.
      * split; [reflexivity|].
        unfold rate_underflows in Hu. rewrite !andb_true_iff in Hu.
        destruct Hu as [[Hlen Hpos] Hzero].
        apply Nat.ltb_lt in Hlen. rewrite length_map in Hlen.
        split; [exact Hlen|].
        exists (max_from (time s) (map time rest)),
          (min_from (time s) (map time rest)).
        split; [apply (max_is_maximum (time s) (map time rest))|].
        split; [apply (min_is_minimum (time s) (map time rest))|].
        split; [now apply Qltb_lt | now apply Qle_bool_iff].
      * eexists. split; [reflexivity|].
        cbn [raw_data an_ch1 ch1_rms ch1_noise ch1_ringdown an_ch2 ch2_rms].
        rewrite calculate_ringdown_eq. repeat split; reflexivity.
    + split; [reflexivity|]. apply squares_fit_false in H2.
      destruct H2 as (v & Hv & Hover). exists v.
      split; [apply in_or_app; now right | exact Hover].
  - split; [reflexivity|]. apply squares_fit_false in H1.
    destruct H1 as (v & Hv & Hover). exists v.
    split; [apply in_or_app; now left | exact Hover].
Qed.

Lemma analysis_outcome_witness :
  finite_capture underflow_data /\
  calculate_analysis approx_sqrt approx_ln exact_mean approx_std underflow_data 1 = Raise ZeroDivisionError /\
  (2 <= List.length underflow_data)%nat /\
  exists tmax tmin : Q,
    is_maximum (map time underflow_data) tmax /\
    is_minimum (map time underflow_data) tmin /\
    0 < tmax - tmin /\ Qabs ((tmax - tmin) / 1000) <= underflow_bound.
Proof.
  split; [exact underflow_data_finite|].
  pose proof (analysis_outcome approx_sqrt approx_ln exact_mean approx_std (mk_sample 0 0 0)
                [mk_sample (20 # (2 ^ 1074)) 0 0] 1 underflow_data_finite) as H.
  cbv zeta in H. decide_test H. decide_test H. exact H.
Defined.

(** ** The trigger loop: how many events, and which crossings it misses *)

Lemma no_adjacent_crossings (data : list sample) (thr : Q) (i : nat) :
  crosses data thr i = true -> crosses data thr (S i) = false.
Proof.
  unfold crosses. intro Hi. apply andb_true_iff in Hi. destruct Hi as [Habove _].
  replace (S i - 1)%nat with i by lia.
  destruct (Qle_bool (magnitude data i) thr) eqn:E; [|apply andb_false_r].
  exfalso. exact (above_not_below _ _ Habove E).
Qed.

Lemma sparse_filter_length (f : nat -> bool) :
  (forall i, f i = true -> f (S i) = false) ->
  forall m a, (2 * List.length (filter f (seq a m)) <= m + 1)%nat.
Proof.
  intro Hsparse. induction m as [m IH] using lt_wf_ind. intro a.
  destruct m as [|m]; [cbn; lia|].
  cbn [seq filter]. destruct (f a) eqn:Ea.
  - destruct m as [|m]; [cbn; lia|].
    cbn [seq filter]. rewrite (Hsparse a Ea).
    cbn [List.length]. specialize (IH m ltac:(lia) (S (S a))). lia.
  - specialize (IH m ltac:(lia) (S a)). lia.
Qed.

Lemma sparse_filter_gap (f : nat -> bool) (l1 l2 : list nat) (i j : nat) :
  (forall k, f k = true -> f (S k) = false) ->
  forall m a, filter f (seq a m) = l1 ++ i :: j :: l2 -> (i + 2 <= j)%nat.
Proof.
  intros Hsparse m a Hf.
  assert (Hs : StronglySorted lt (filter f (seq a m)))
    by apply StronglySorted_filter, StronglySorted_seq.
  rewrite Hf in Hs. apply StronglySorted_adjacent in Hs.
  assert (Hi : In i (filter f (seq a m)))
    by (rewrite Hf; apply in_or_app; right; now left).
  assert (Hj : In j (filter f (seq a m)))
    by (rewrite Hf; apply in_or_app; right; right; now left).
  apply filter_In in Hi, Hj. destruct Hi as [_ Hi]. destruct Hj as [_ Hj].
  destruct (Nat.eq_dec j (S i)) as [-> | Hne]; [|lia].
  rewrite (Hsparse i Hi) in Hj. discriminate Hj.
Qed.

(** X4.  Every result of the analysis reports at most one trigger event
    per two samples: [2 * count <= data_points], where [count] is the
    length of [points]; and two consecutive events are at least two samples
    apart. *)
Theorem trigger_count_bound (np_sqrt ln : Q -> Q) (np_mean np_std : list Q -> Q)
    (data : list sample) (thr : Q) (r : analysis_record) :
  calculate_analysis np_sqrt ln np_mean np_std data thr = Ok (Filled r) ->
  trigger_count (an_trigger r) = List.length (trigger_points (an_trigger r)) /\
  (2 * trigger_count (an_trigger r) <= data_points (an_metadata r))%nat /\
  (forall before e1 e2 after,
      trigger_points (an_trigger r) = before ++ e1 :: e2 :: after ->
      (tp_index e1 + 2 <= tp_index e2)%nat).
Proof.
  intro Hr.
  destruct (calculate_analysis_returns np_sqrt ln np_mean np_std data thr r Hr)
    as (s & rest & -> & _ & _ & _ & _ & _ & _ & _ & _ & _ & _ & _ & _ & Hloop
        & Hcount & Hn & _).
  split; [exact Hcount|].
  rewrite trigger_loop_points in Hloop. injection Hloop as Hpoints.
  assert (Hsparse : forall k, fires (s :: rest) thr k = true ->
                              fires (s :: rest) thr (S k) = false).
  { intros k. rewrite !fires_crosses. apply no_adjacent_crossings. }
  split.
  - rewrite Hcount, Hn, <- Hpoints, length_map.
    match goal with |- context [seq 1 ?m] =>
      pose proof (sparse_filter_length _ Hsparse m 1) as H end.
    cbn [List.length] in H |- *. lia.
  - intros before e1 e2 after Hsplit. rewrite <- Hpoints in Hsplit.
    apply (f_equal (map tp_index)) in Hsplit.
    rewrite map_map, map_app in Hsplit. cbn [map event_at tp_index] in Hsplit.
    rewrite map_id in Hsplit.
    exact (sparse_filter_gap _ _ _ _ _ Hsparse _ _ Hsplit).
Qed.

Lemma trigger_count_bound_witness :
  exists r : analysis_record,
    calculate_analysis approx_sqrt approx_ln exact_mean approx_std two_bursts 1 = Ok (Filled r) /\
    trigger_count (an_trigger r) = List.length (trigger_points (an_trigger r)) /\
    (2 * trigger_count (an_trigger r) <= data_points (an_metadata r))%nat /\
    (forall before e1 e2 after,
        trigger_points (an_trigger r) = before ++ e1 :: e2 :: after ->
        (tp_index e1 + 2 <= tp_index e2)%nat).
Proof.
  assert (H : exists r, calculate_analysis approx_sqrt approx_ln exact_mean approx_std two_bursts 1 = Ok (Filled r))
    by (vm_compute; eexists; reflexivity).
  destruct H as [r Hr]. exists r. split; [exact Hr|].
  exact (trigger_count_bound approx_sqrt approx_ln exact_mean approx_std two_bursts 1 r Hr).
Defined.

(** X5.  A burst that is already above the threshold at the first sample is
    not reported: while every sample from index 0 to [j] is above the
    threshold, the loop emits no event with an index up to [j]. *)
Theorem burst_at_start_unreported (data : list sample) (thr : Q) (j : nat) :
  (forall k s, (k <= j)%nat -> nth_error data k = Some s -> thr < Qabs (ch2 s)) ->
  exists points in_trigger,
    trigger_loop data thr (List.length data) = Ok (points, in_trigger) /\
    forall e, In e points -> (j < tp_index e)%nat.
Proof.
  intro Habove. eexists. eexists. split; [apply trigger_loop_points|].
  intros e He. apply In_points in He. destruct He as [i [Hi [Hf ->]]].
  cbn [event_at tp_index]. destruct (Nat.le_gt_cases i j) as [Hle | Hgt]; [|exact Hgt].
  exfalso. apply fires_unfold in Hf; [|exact Hi]. destruct Hf as [_ [Hprev _]].
  apply (Qlt_not_le thr (magnitude data (i - 1))); [|exact Hprev].
  apply (Habove (i - 1)%nat); [lia|].
  apply (nth_error_nth' data (mk_sample 0 0 0)). lia.
Qed.

Lemma burst_at_start_unreported_witness :
  exists points in_trigger,
    trigger_loop burst_at_start 1 (List.length burst_at_start)
    = Ok (points, in_trigger) /\
    forall e, In e points -> (2 < tp_index e)%nat.
Proof.
  apply (burst_at_start_unreported burst_at_start 1 2).
  intros k s Hk Hs.
  destruct k as [|[|[|k]]]; [| | |lia]; injection Hs as <-; reflexivity.
Defined.

(** X6.  A capture whose channel-2 magnitude never exceeds the threshold
    has no trigger event. *)
Theorem quiet_capture_no_events (data : list sample) (thr : Q) :
  (forall s, In s data -> Qabs (ch2 s) <= thr) ->
  exists in_trigger,
    trigger_loop data thr (List.length data) = Ok ([], in_trigger).
Proof.
  intro Hquiet. eexists. rewrite trigger_loop_points. f_equal. f_equal.
  replace (filter (fires data thr) (seq 1 (List.length data - 1))) with (@nil nat);
    [reflexivity|].
  destruct (filter (fires data thr) (seq 1 (List.length data - 1))) as [|i l] eqn:E;
    [reflexivity|].
  assert (Hi : In i (filter (fires data thr) (seq 1 (List.length data - 1))))
    by (rewrite E; now left).
  apply filter_In in Hi. destruct Hi as [Hseq Hf]. apply in_seq in Hseq.
  apply fires_unfold in Hf; [|lia]. destruct Hf as [_ [_ Hcur]].
  exfalso. apply (Qlt_not_le _ _ Hcur). apply Hquiet.
  unfold sample_at. apply nth_In. lia.
Qed.

Lemma quiet_capture_no_events_witness :
  exists in_trigger,
    trigger_loop two_bursts 3 (List.length two_bursts) = Ok ([], in_trigger).
Proof.
  apply (quiet_capture_no_events two_bursts 3).
  intros s Hs. cbn [two_bursts In] in Hs.
  repeat (destruct Hs as [<- | Hs]; [cbv; discriminate|]). destruct Hs.
Defined.

(** ** The trigger loop looks at magnitudes only *)

Lemma Qabs_opp_eq (x : Q) : Qabs (- x) = Qabs x.
Proof. destruct x as [n d]. unfold Qabs, Qopp. cbn. now rewrite Z.abs_opp. Qed.

Lemma sample_at_mirror (data : list sample) (i : nat) :
  sample_at (mirror data) i
  = mk_sample (time (sample_at data i)) (ch1 (sample_at data i))
              (- ch2 (sample_at data i)).
Proof.
  unfold sample_at, mirror.
  exact (map_nth (fun s => mk_sample (time s) (ch1 s) (- ch2 s)) data
           (mk_sample 0 0 0) i).
Qed.

Lemma magnitude_mirror (data : list sample) (i : nat) :
  magnitude (mirror data) i = magnitude data i.
Proof. unfold magnitude. rewrite sample_at_mirror. cbn [ch2]. apply Qabs_opp_eq. Qed.

(** X7.  Flipping the sign of channel 2 leaves the trigger events where
    they are: the loop emits events at the same indices and times, with the
    sign of each reported current flipped, and ends in the same state. *)
Theorem trigger_loop_mirror (data : list sample) (thr : Q) :
  exists points in_trigger,
    trigger_loop data thr (List.length data) = Ok (points, in_trigger) /\
    trigger_loop (mirror data) thr (List.length (mirror data))
    = Ok (map mirror_event points, in_trigger).
Proof.
  assert (Hfires : forall i, fires (mirror data) thr i = fires data thr i).
  { intro i. rewrite !fires_crosses. unfold crosses.
    now rewrite !magnitude_mirror. }
  eexists. eexists. split; [apply trigger_loop_points|].
  assert (Hlen : List.length (mirror data) = List.length data)
    by apply length_map.
  rewrite trigger_loop_points, !Hlen.
  f_equal. f_equal.
  - rewrite map_map. rewrite (filter_ext _ _ Hfires). apply map_ext.
    intro i. unfold event_at, mirror_event. rewrite sample_at_mirror. reflexivity.
  - assert (Hscan : forall n, snd (scan (mirror data) thr n) = snd (scan data thr n)).
    { induction n as [|n IH]; [reflexivity|]. rewrite !scan_succ.
      destruct (scan (mirror data) thr n) as [p1 b1].
      destruct (scan data thr n) as [p2 b2]. cbn [snd] in IH. subst b2.
      unfold trigger_step, crosses. rewrite !magnitude_mirror.
      destruct (negb b1 && _); [reflexivity|].
      destruct (b1 && _); reflexivity. }
    apply Hscan.
Qed.

(** ** [calculate_analysis]: the metadata agree with each other *)

(** X8.  Every result of the analysis of finite samples keeps the samples
    it was given, [time_start <= time_end], [duration] is
    [time_end - time_start] and is not negative, [sample_rate] is not
    negative, and [min <= max] on both channels. *)
Theorem metadata_consistent (np_sqrt ln : Q -> Q) (np_mean np_std : list Q -> Q)
    (data : list sample) (thr : Q) (r : analysis_record) :
  finite_capture data ->
  calculate_analysis np_sqrt ln np_mean np_std data thr = Ok (Filled r) ->
  raw_data r = data /\
  time_start (an_metadata r) <= time_end (an_metadata r) /\
  duration (an_metadata r)
  = time_end (an_metadata r) - time_start (an_metadata r) /\
  0 <= duration (an_metadata r) /\
  0 <= sample_rate (an_metadata r) /\
  ch1_min (an_ch1 r) <= ch1_max (an_ch1 r) /\
  ch2_min (an_ch2 r) <= ch2_max (an_ch2 r).
Proof.
  intros _ Hr.
  destruct (calculate_analysis_returns np_sqrt ln np_mean np_std data thr r Hr)
    as (s & rest & -> & _ & _ & _ & Hraw & Hmin1 & Hmax1 & _ & _ & Hmin2 & Hmax2
        & _ & _ & _ & _ & _ & Hd & Hstart & Hend & Hrate & _).
  rewrite Hd, Hstart, Hend, Hrate, Hmin1, Hmax1, Hmin2, Hmax2.
  split; [exact Hraw|].
  split; [apply min_le_max|]. split; [reflexivity|].
  split; [apply Qminus_nonneg, min_le_max|].
  split; [|split; apply min_le_max].
  unfold sample_rate_of. destruct (1 <? _); [|apply Qle_refl].
  destruct (Qltb 0 _) eqn:E; [|apply Qle_refl].
  apply flush_nonneg.
  apply Qltb_lt in E. apply Qlt_le_weak. apply Qlt_shift_div_l.
  - apply Qlt_shift_div_l; [reflexivity | now rewrite Qmult_0_l].
  - rewrite Qmult_0_l. unfold len_Q.
    change 0 with (inject_Z 0). rewrite <- Zlt_Qlt. cbn [List.length map]. lia.
Qed.

Lemma metadata_consistent_witness :
  exists r : analysis_record,
    finite_capture two_bursts /\
    calculate_analysis approx_sqrt approx_ln exact_mean approx_std two_bursts 1 = Ok (Filled r) /\
    raw_data r = two_bursts /\
    time_start (an_metadata r) <= time_end (an_metadata r) /\
    duration (an_metadata r)
    = time_end (an_metadata r) - time_start (an_metadata r) /\
    0 <= duration (an_metadata r) /\
    0 <= sample_rate (an_metadata r) /\
    ch1_min (an_ch1 r) <= ch1_max (an_ch1 r) /\
    ch2_min (an_ch2 r) <= ch2_max (an_ch2 r).
Proof.
  assert (H : exists r, calculate_analysis approx_sqrt approx_ln exact_mean approx_std two_bursts 1 = Ok (Filled r))
    by (vm_compute; eexists; reflexivity).
  destruct H as [r Hr]. exists r.
  split; [exact two_bursts_finite|]. split; [exact Hr|].
  exact (metadata_consistent approx_sqrt approx_ln exact_mean approx_std
           two_bursts 1 r two_bursts_finite Hr).
Defined.

(** ** [evaluate_pass_fail]: wider limits never fail what passed *)

Lemma within_widen (lsl lsl' v usl usl' : Q) :
  lsl' <= lsl -> usl <= usl' -> within lsl v usl = true -> within lsl' v usl' = true.
Proof.
  intros Hl Hu H. apply within_iff in H. destruct H as [H1 H2].
  apply within_iff. split; eapply Qle_trans; eassumption.
Qed.

Lemma overall_pass_iff (self : window) (a : analysis_record) :
  current_analysis self = Some (Filled a) ->
  overall (evaluate_pass_fail self) = "pass"%string <->
  within (peak_lsl_spin self) (ch1_peak_to_peak (an_ch1 a)) (peak_usl_spin self)
  = true /\
  within (trigger_lsl_spin self) (trigger_current_spin self) (trigger_usl_spin self)
  = true /\
  within (noise_lsl_spin self) (ch1_noise (an_ch1 a)) (noise_usl_spin self) = true /\
  (has_ringdown (test_type_combo self) = true ->
   within (ringdown_lsl_spin self) (ringdown_voltage (ch1_ringdown (an_ch1 a)))
          (ringdown_usl_spin self) = true).
Proof.
  intro Ha. unfold evaluate_pass_fail. rewrite Ha.
  destruct (has_ringdown (test_type_combo self));
    cbn [app overall all_values forallb snd];
    destruct (within (peak_lsl_spin self) _ _);
    destruct (within (trigger_lsl_spin self) _ _);
    destruct (within (noise_lsl_spin self) _ _);
    try destruct (within (ringdown_lsl_spin self) _ _);
    cbn [andb]; intuition (try discriminate; auto).
Qed.

(** X9.  Widening the limits never turns a pass into a fail: when a window
    gives the verdict ["pass"], a window with the same analysis, test type
    and trigger current, and limit intervals that include the former ones,
    gives ["pass"] too. *)
Theorem wider_limits_keep_pass (self wide : window) :
  limits_widened self wide ->
  overall (evaluate_pass_fail self) = "pass"%string ->
  overall (evaluate_pass_fail wide) = "pass"%string.
Proof.
  intros (Ha & Ht & Hc & Hp1 & Hp2 & Ht1 & Ht2 & Hn1 & Hn2 & Hr1 & Hr2) Hpass.
  destruct (current_analysis self) as [[|a]|] eqn:Hself;
    try (unfold evaluate_pass_fail in Hpass; rewrite Hself in Hpass;
         discriminate Hpass).
  apply (overall_pass_iff self a Hself) in Hpass.
  destruct Hpass as (Hp & Htr & Hn & Hr).
  apply (overall_pass_iff wide a Ha). rewrite Ht, Hc.
  split; [exact (within_widen _ _ _ _ _ Hp1 Hp2 Hp)|].
  split; [exact (within_widen _ _ _ _ _ Ht1 Ht2 Htr)|].
  split; [exact (within_widen _ _ _ _ _ Hn1 Hn2 Hn)|].
  intro H. exact (within_widen _ _ _ _ _ Hr1 Hr2 (Hr H)).
Qed.

Lemma wider_limits_keep_pass_witness :
  overall (evaluate_pass_fail passing_window) = "pass"%string /\
  overall (evaluate_pass_fail wider_window) = "pass"%string.
Proof.
  assert (Hpass : overall (evaluate_pass_fail passing_window) = "pass"%string)
    by (vm_compute; reflexivity).
  split; [exact Hpass|].
  apply (wider_limits_keep_pass passing_window wider_window); [|exact Hpass].
  unfold limits_widened. cbn [passing_window wider_window current_analysis
    test_type_combo trigger_current_spin peak_lsl_spin peak_usl_spin
    trigger_lsl_spin trigger_usl_spin noise_lsl_spin noise_usl_spin
    ringdown_lsl_spin ringdown_usl_spin].
  repeat split; discriminate.
Defined.

(** ** [plot_data]: what a zoom range shows *)

Lemma zoom_quotient_bounds (n : nat) (z : Z) :
  (0 <= z <= 100)%Z ->
  (0 <= int_of_quotient (Z.of_nat n * z) 100 <= Z.of_nat n)%Z.
Proof.
  intros [H0 H100]. unfold int_of_quotient.
  rewrite Z.quot_div_nonneg by lia. split.
  - apply Z.div_pos; lia.
  - apply Z.div_le_upper_bound; nia.
Qed.

Lemma zoom_quotient_mono (n : nat) (z0 z1 : Z) :
  (0 <= z0 <= z1)%Z ->
  (int_of_quotient (Z.of_nat n * z0) 100 <= int_of_quotient (Z.of_nat n * z1) 100)%Z.
Proof.
  intros [H0 H1]. unfold int_of_quotient.
  rewrite !Z.quot_div_nonneg by nia. apply Z.div_le_mono; nia.
Qed.

Lemma slice_bound_inside (len i : Z) : (0 <= i <= len)%Z -> slice_bound len i = i.
Proof.
  intros [H0 H1]. unfold slice_bound.
  destruct (i <? 0)%Z eqn:E; [apply Z.ltb_lt in E; lia | lia].
Qed.

Lemma slice_int_zoom {A : Type} (l : list A) (z0 z1 : Z) :
  (0 <= z0 <= 100)%Z -> (0 <= z1 <= 100)%Z ->
  slice_int l (int_of_quotient (Z.of_nat (List.length l) * z0) 100)
              (int_of_quotient (Z.of_nat (List.length l) * z1) 100)
  = firstn (zoom_index (List.length l) z1 - zoom_index (List.length l) z0)
           (skipn (zoom_index (List.length l) z0) l).
Proof.
  intros H0 H1. unfold slice_int, slice, zoom_index.
  rewrite !slice_bound_inside by (apply zoom_quotient_bounds; assumption).
  reflexivity.
Qed.

Lemma nth_error_zoom {A : Type} (l : list A) (st en i : nat) :
  (st <= i < en)%nat ->
  nth_error (firstn (en - st) (skipn st l)) (i - st) = nth_error l i.
Proof.
  intros [H1 H2]. rewrite nth_error_firstn.
  replace (i - st <? en - st) with true by (symmetry; apply Nat.ltb_lt; lia).
  rewrite nth_error_skipn. f_equal. lia.
Qed.

Lemma in_zoom_iff (n : nat) (z0 z1 : Z) (p : trigger_point) :
  (0 <= z0 <= 100)%Z -> (0 <= z1 <= 100)%Z ->
  in_zoom (int_of_quotient (Z.of_nat n * z0) 100)
          (int_of_quotient (Z.of_nat n * z1) 100) p = true
  <-> (zoom_index n z0 <= tp_index p < zoom_index n z1)%nat.
Proof.
  intros H0 H1. unfold in_zoom, zoom_index.
  pose proof (zoom_quotient_bounds n z0 H0).
  pose proof (zoom_quotient_bounds n z1 H1).
  rewrite andb_true_iff, Z.leb_le, Z.ltb_lt. lia.
Qed.

Lemma plot_slice_zoom (f : sample -> Q) (data : list sample) (z0 z1 : Z) :
  (0 <= z0 <= 100)%Z -> (0 <= z1 <= 100)%Z ->
  slice_int (map f data)
    (int_of_quotient (Z.of_nat (List.length data) * z0) 100)
    (int_of_quotient (Z.of_nat (List.length data) * z1) 100)
  = firstn (zoom_index (List.length data) z1 - zoom_index (List.length data) z0)
           (skipn (zoom_index (List.length data) z0) (map f data)).
Proof.
  intros H0 H1. pose proof (slice_int_zoom (map f data) z0 z1 H0 H1) as H.
  rewrite length_map in H. exact H.
Qed.

Lemma zoom_index_le (n : nat) (z : Z) :
  (0 <= z <= 100)%Z -> (zoom_index n z <= n)%nat.
Proof.
  intro H. unfold zoom_index. pose proof (zoom_quotient_bounds n z H). lia.
Qed.

Lemma zoom_slice_length (f : sample -> Q) (data : list sample) (z0 z1 : Z) :
  (0 <= z0 <= 100)%Z -> (0 <= z1 <= 100)%Z ->
  List.length
    (firstn (zoom_index (List.length data) z1 - zoom_index (List.length data) z0)
       (skipn (zoom_index (List.length data) z0) (map f data)))
  = (zoom_index (List.length data) z1 - zoom_index (List.length data) z0)%nat.
Proof.
  intros H0 H1. rewrite length_firstn, length_skipn, length_map.
  pose proof (zoom_index_le (List.length data) z1 H1). lia.
Qed.

(** X10.  For a zoom range within 0..100 percent, [plot_data] on a result
    with samples draws the three series over the same contiguous index
    range [start, end) of the capture, with [start] and [end] the zoom
    percentages of the sample count rounded down, both at most the sample
    count: the three plotted lists have the same length, and a zoom end at
    or below the zoom start plots nothing and draws no marker. *)
Theorem plot_data_zoom (a : analysis_record) (trigger_current : Q) (z0 z1 : Z) :
  raw_data a <> [] ->
  (0 <= z0 <= 100)%Z -> (0 <= z1 <= 100)%Z ->
  let n := List.length (raw_data a) in
  let start_idx := zoom_index n z0 in
  let end_idx := zoom_index n z1 in
  exists c : chart,
    plot_data (Filled a) trigger_current (z0, z1) = Some c /\
    (start_idx <= n)%nat /\ (end_idx <= n)%nat /\
    plot_times c = firstn (end_idx - start_idx) (skipn start_idx (map time (raw_data a))) /\
    plot_ch1 c = firstn (end_idx - start_idx) (skipn start_idx (map ch1 (raw_data a))) /\
    plot_ch2 c = firstn (end_idx - start_idx) (skipn start_idx (map ch2 (raw_data a))) /\
    List.length (plot_times c) = (end_idx - start_idx)%nat /\
    List.length (plot_ch1 c) = (end_idx - start_idx)%nat /\
    List.length (plot_ch2 c) = (end_idx - start_idx)%nat /\
    ((z1 <= z0)%Z -> plot_times c = [] /\ markers c = []).
Proof.
  intros Hdata H0 H1. cbv zeta. unfold plot_data.
  destruct (raw_data a) as [|s rest] eqn:Hraw; [congruence|].
  set (data := s :: rest).
  eexists. split; [reflexivity|]. cbn [fst snd plot_times plot_ch1 plot_ch2 markers].
  rewrite !plot_slice_zoom by assumption.
  split; [now apply zoom_index_le|]. split; [now apply zoom_index_le|].
  split; [reflexivity|]. split; [reflexivity|]. split; [reflexivity|].
  split; [now apply zoom_slice_length|].
  split; [now apply zoom_slice_length|].
  split; [now apply zoom_slice_length|].
  intro Hz.
  assert (Hle : (zoom_index (List.length data) z1
                 <= zoom_index (List.length data) z0)%nat).
  { unfold zoom_index.
    pose proof (zoom_quotient_mono (List.length data) z1 z0 ltac:(lia)). lia. }
  split.
  - replace (zoom_index (List.length data) z1 - zoom_index (List.length data) z0)%nat
      with 0%nat by lia.
    reflexivity.
  - replace (filter _ (trigger_points (an_trigger a))) with (@nil trigger_point);
      [reflexivity|].
    symmetry. induction (trigger_points (an_trigger a)) as [|p ps IH]; [reflexivity|].
    cbn [filter]. rewrite IH.
    destruct (in_zoom _ _ p) eqn:E; [|reflexivity].
    apply (in_zoom_iff (List.length data) z0 z1 p H0 H1) in E. lia.
Qed.

Lemma plot_data_zoom_witness :
  exists c : chart,
    plot_data example_analysis 1 (34%Z, 100%Z) = Some c /\
    plot_times c = [1000 # 1000; 1000 # 500] /\
    List.length (plot_ch1 c) = 2%nat /\ List.length (plot_ch2 c) = 2%nat.
Proof.
  assert (H : exists a, example_analysis = Filled a /\ raw_data a <> [])
    by (eexists; split; [reflexivity | discriminate]).
  destruct H as [a [Ha Hraw]].
  destruct (plot_data_zoom a 1 34 100 Hraw ltac:(lia) ltac:(lia))
    as (c & Hc & _ & _ & Ht & _ & _ & _ & H1 & H2 & _).
  exists c. rewrite Ha. split; [exact Hc|].
  injection Ha as <-. split; [exact Ht|]. split; [exact H1 | exact H2].
Defined.

Lemma filter_all {A : Type} (f : A -> bool) (l : list A) :
  (forall x, In x l -> f x = true) -> filter f l = l.
Proof.
  induction l as [|a l IH]; intro H; [reflexivity|].
  cbn [filter]. rewrite (H a) by now left. f_equal. apply IH.
  intros x Hx. apply H. now right.
Qed.

Lemma zoom_index_0 (n : nat) : zoom_index n 0 = 0%nat.
Proof. unfold zoom_index, int_of_quotient. now rewrite Z.mul_0_r. Qed.

Lemma zoom_index_100 (n : nat) : zoom_index n 100 = n.
Proof.
  unfold zoom_index, int_of_quotient. rewrite Z.quot_mul by discriminate. lia.
Qed.

(** The trigger points of an analysis are the events of the firing
    indices of its capture. *)
Lemma analysis_points (np_sqrt ln : Q -> Q) (np_mean np_std : list Q -> Q)
    (data : list sample) (thr : Q) (r : analysis_record) :
  calculate_analysis np_sqrt ln np_mean np_std data thr = Ok (Filled r) ->
  data <> [] /\
  raw_data r = data /\
  trigger_points (an_trigger r)
  = map (event_at data) (filter (fires data thr) (seq 1 (List.length data - 1))).
Proof.
  intro Hr.
  destruct (calculate_analysis_returns np_sqrt ln np_mean np_std data thr r Hr)
    as (s & rest & -> & _ & _ & _ & Hraw & _ & _ & _ & _ & _ & _ & _ & _ & Hloop & _).
  split; [discriminate|]. split; [exact Hraw|].
  rewrite trigger_loop_points in Hloop. injection Hloop as Hpoints.
  symmetry. exact Hpoints.
Qed.

(** X11.  With the zoom spin boxes at their initial values, 0 and 100,
    [update_chart] on a window that holds a result the analysis returned
    draws every sample of the capture, the two threshold lines at plus and
    minus the trigger current, and one marker for every trigger event. *)
Theorem full_zoom_shows_everything (np_sqrt ln : Q -> Q) (np_mean np_std : list Q -> Q)
    (data : list sample) (thr : Q) (r : analysis_record) (self : window) :
  calculate_analysis np_sqrt ln np_mean np_std data thr = Ok (Filled r) ->
  current_analysis self = Some (Filled r) ->
  update_chart self 0 100
  = Some (mk_chart (map time data) (map ch1 data) (map ch2 data)
                   [trigger_current_spin self; - trigger_current_spin self]
                   (map tp_time (trigger_points (an_trigger r)))).
Proof.
  intros Hr Hself.
  destruct (analysis_points np_sqrt ln np_mean np_std data thr r Hr)
    as (Hne & Hraw & Hpoints).
  destruct data as [|s rest]; [congruence|].
  unfold update_chart. rewrite Hself. unfold plot_data. rewrite Hraw.
  cbn [fst snd].
  rewrite !plot_slice_zoom by lia.
  rewrite zoom_index_0, zoom_index_100, Nat.sub_0_r. cbn [skipn].
  rewrite <- (length_map time (s :: rest)) at 1. rewrite firstn_all.
  rewrite <- (length_map ch1 (s :: rest)) at 1. rewrite firstn_all.
  rewrite <- (length_map ch2 (s :: rest)) at 1. rewrite firstn_all.
  rewrite filter_all; [reflexivity|].
  intros p Hp. apply (in_zoom_iff (List.length (s :: rest)) 0 100 p); try lia.
  rewrite zoom_index_0, zoom_index_100.
  rewrite Hpoints in Hp. apply In_points in Hp. destruct Hp as [i [Hi [_ ->]]].
  cbn [event_at tp_index]. lia.
Qed.

Lemma full_zoom_shows_everything_witness :
  exists r : analysis_record,
    calculate_analysis approx_sqrt approx_ln exact_mean approx_std two_bursts 1 = Ok (Filled r) /\
    update_chart (window_after (Filled r) DTT) 0 100
    = Some (mk_chart (map time two_bursts) (map ch1 two_bursts)
                     (map ch2 two_bursts) [1; - (1)]
                     (map tp_time (trigger_points (an_trigger r)))).
Proof.
  assert (H : exists r, calculate_analysis approx_sqrt approx_ln exact_mean approx_std two_bursts 1 = Ok (Filled r))
    by (vm_compute; eexists; reflexivity).
  destruct H as [r Hr]. exists r. split; [exact Hr|].
  exact (full_zoom_shows_everything approx_sqrt approx_ln exact_mean approx_std two_bursts 1 r
           (window_after (Filled r) DTT) Hr eq_refl).
Defined.

(** X12.  For a zoom range within 0..100 percent, every marker that
    [plot_data] draws on a result the analysis returned stands at the time
    of a plotted sample, and every trigger event whose sample is plotted
    gets its marker. *)
Theorem markers_on_plotted_samples (np_sqrt ln : Q -> Q) (np_mean np_std : list Q -> Q)
    (data : list sample) (thr : Q) (r : analysis_record)
    (trigger_current : Q) (z0 z1 : Z) :
  (0 <= z0 <= 100)%Z -> (0 <= z1 <= 100)%Z ->
  calculate_analysis np_sqrt ln np_mean np_std data thr = Ok (Filled r) ->
  exists c : chart,
    plot_data (Filled r) trigger_current (z0, z1) = Some c /\
    (forall m, In m (markers c) -> In m (plot_times c)) /\
    (forall e, In e (trigger_points (an_trigger r)) ->
               (zoom_index (List.length data) z0 <= tp_index e
                < zoom_index (List.length data) z1)%nat ->
               In (tp_time e) (markers c)).
Proof.
  intros H0 H1 Hr.
  destruct (analysis_points np_sqrt ln np_mean np_std data thr r Hr)
    as (Hne & Hraw & Hpoints).
  destruct data as [|s rest]; [congruence|].
  unfold plot_data. rewrite Hraw. eexists.
  split; [reflexivity|].
  cbn [fst snd markers plot_times]. rewrite plot_slice_zoom by assumption.
  split.
  - intros m Hm. apply in_map_iff in Hm. destruct Hm as [e [<- He]].
    apply filter_In in He. destruct He as [He Hz].
    apply (in_zoom_iff _ z0 z1 e H0 H1) in Hz.
    rewrite Hpoints in He. apply In_points in He.
    destruct He as [i [Hi [_ ->]]]. cbn [event_at tp_index tp_time] in *.
    apply (nth_error_In _ (i - zoom_index (List.length (s :: rest)) z0)).
    rewrite nth_error_zoom by exact Hz.
    rewrite nth_error_map. unfold sample_at.
    rewrite (nth_error_nth' (s :: rest) (mk_sample 0 0 0)) by lia. reflexivity.
  - intros e He Hz. apply in_map. apply filter_In. split; [exact He|].
    now apply (in_zoom_iff _ z0 z1 e H0 H1).
Qed.

Lemma markers_on_plotted_samples_witness :
  exists (r : analysis_record) (c : chart),
    calculate_analysis approx_sqrt approx_ln exact_mean approx_std two_bursts 1 = Ok (Filled r) /\
    plot_data (Filled r) 1 (50%Z, 100%Z) = Some c /\
    (forall m, In m (markers c) -> In m (plot_times c)) /\
    (forall e, In e (trigger_points (an_trigger r)) ->
               (zoom_index (List.length two_bursts) 50 <= tp_index e
                < zoom_index (List.length two_bursts) 100)%nat ->
               In (tp_time e) (markers c)).
Proof.
  assert (H : exists r, calculate_analysis approx_sqrt approx_ln exact_mean approx_std two_bursts 1 = Ok (Filled r))
    by (vm_compute; eexists; reflexivity).
  destruct H as [r Hr]. exists r.
  destruct (markers_on_plotted_samples approx_sqrt approx_ln exact_mean approx_std two_bursts 1 r 1 50 100
              ltac:(lia) ltac:(lia) Hr) as (c & Hc).
  exists c. split; [exact Hr | exact Hc].
Defined.

(** ** [save_analysis]: when it saves, and what it hands to the database *)

Lemma distinctb_NoDup (l : list string) : distinctb l = true -> NoDup l.
Proof.
  induction l as [|x t IH]; intro H; constructor;
    cbn [distinctb] in H; apply andb_true_iff in H; destruct H as [Hx Ht].
  - intro Hin. apply negb_true_iff in Hx.
    assert (existsb (String.eqb x) t = true)
      by (apply existsb_exists; exists x; split; [exact Hin | apply String.eqb_refl]).
    congruence.
  - now apply IH.
Qed.

Lemma includedb_incl (l m : list string) : includedb l m = true -> incl l m.
Proof.
  unfold includedb. rewrite forallb_forall. intros H x Hx.
  specialize (H x Hx). apply existsb_exists in H. destruct H as [y [Hy Heq]].
  apply String.eqb_eq in Heq. now subst.
Qed.

(** X13.  [save_analysis] stops with the "no analysis" warning exactly when
    the window holds no analysis or the empty one; otherwise it stops with
    the "missing fields" warning exactly when one of test number, test
    bench and tester id is blank, naming the blank ones; and it reaches the
    database exactly when there is a non-empty analysis and none of the
    three is blank. *)
Theorem save_analysis_guards (f : save_form) :
  (save_analysis f = NoAnalysis <->
   current_analysis (form_window f) = None
   \/ current_analysis (form_window f) = Some EmptyDict) /\
  (forall names,
      save_analysis f = MissingFields names ->
      names <> [] /\
      (In "Test Number"%string names <-> blank (test_number_edit f) = true) /\
      (In "Test Bench"%string names <-> blank (test_bench_edit f) = true) /\
      (In "Tester ID"%string names <-> blank (tester_id_edit f) = true)) /\
  ((exists test_type data, save_analysis f = DatabaseSave test_type data) <->
   (exists a, current_analysis (form_window f) = Some (Filled a)) /\
   blank (test_number_edit f) = false /\
   blank (test_bench_edit f) = false /\
   blank (tester_id_edit f) = false).
Proof.
  unfold save_analysis.
  destruct (current_analysis (form_window f)) as [[|a]|].
  - split; [split; auto|]. split; [discriminate|].
    split; [intros (? & ? & H); discriminate H | intros [[a Ha] _]; discriminate Ha].
  - cbn [filter fst map snd].
    destruct (blank (test_number_edit f)), (blank (test_bench_edit f)),
      (blank (tester_id_edit f)); cbn [map snd];
      (split; [split; [discriminate | intros [H | H]; discriminate H]|]);
      (split;
       [ intros names H; try discriminate H; injection H as <-;
         cbn [In]; intuition (try discriminate; auto)
       | split;
         [ intros (tt & data & H); try discriminate H; eauto
         | intros (_ & H1 & H2 & H3); try discriminate; eauto ] ]).
  - split; [split; auto|]. split; [discriminate|].
    split; [intros (? & ? & H); discriminate H | intros [[a Ha] _]; discriminate Ha].
Qed.

Ltac save_cases H a :=
  unfold save_analysis in H;
  destruct (current_analysis (form_window _)) as [[|a]|] eqn:Hanalysis;
  try discriminate H;
  cbn [filter fst map snd] in H;
  destruct (blank (test_number_edit _)) eqn:Hnumber;
  destruct (blank (test_bench_edit _)) eqn:Hbench;
  destruct (blank (tester_id_edit _)) eqn:Htester;
  cbn [map snd] in H; try discriminate H.

(** X14.  A record that reaches the database carries the verdict of
    [evaluate_pass_fail] as [pass_fail], and that verdict is ["pass"] or
    ["fail"], never ["unknown"]; its test type is the text of the test-type
    combo box. *)
Theorem saved_verdict (f : save_form) (test_type : string) (data : row) :
  save_analysis f = DatabaseSave test_type data ->
  test_type = test_type_name (test_type_combo (form_window f)) /\
  get_or data "pass_fail" VNone
  = VStr (overall (evaluate_pass_fail (form_window f))) /\
  (overall (evaluate_pass_fail (form_window f)) = "pass"%string
   \/ overall (evaluate_pass_fail (form_window f)) = "fail"%string).
Proof.
  intro H. save_cases H a. injection H as <- <-.
  split; [reflexivity|]. split.
  - destruct (has_ringdown _), (has_skid_plate _); reflexivity.
  - unfold evaluate_pass_fail. rewrite Hanalysis.
    destruct (has_ringdown _); cbn [overall];
      match goal with |- context [all_values ?l] => destruct (all_values l) end;
      auto.
Qed.

Lemma saved_verdict_witness :
  exists data,
    save_analysis example_form = DatabaseSave "DC02" data /\
    get_or data "pass_fail" VNone = VStr "pass".
Proof.
  assert (H : exists test_type data,
             save_analysis example_form = DatabaseSave test_type data)
    by (eexists; eexists; vm_compute; reflexivity).
  destruct H as (test_type & data & H).
  destruct (saved_verdict example_form test_type data H) as (Ht & Hv & _).
  exists data. subst test_type. split; [exact H | exact Hv].
Defined.

(** X15.  A record that reaches the database fits the table that
    [DatabaseManager.save_analysis] names for it: the table is one of the
    schema, the column names are pairwise distinct and all declared for
    that table, every column declared [NOT NULL] is given a value other
    than [None], and there are as many values as columns. *)
Theorem saved_record_fits_schema (f : save_form) (test_type : string) (data : row) :
  save_analysis f = DatabaseSave test_type data ->
  exists columns : list (string * bool),
    schema_columns (ins_table (insert_of test_type data)) schema = Some columns /\
    NoDup (ins_columns (insert_of test_type data)) /\
    incl (ins_columns (insert_of test_type data)) (map fst columns) /\
    (forall c, In (c, true) columns ->
               In c (ins_columns (insert_of test_type data))
               /\ get_or data c VNone <> VNone) /\
    List.length (ins_values (insert_of test_type data))
    = List.length (ins_columns (insert_of test_type data)).
Proof.
  intro H. save_cases H a. injection H as <- <-.
  destruct (test_type_combo (form_window f));
    cbn [has_ringdown has_skid_plate test_type_name app];
    (eexists; split; [vm_compute; reflexivity|]);
    (split; [apply distinctb_NoDup; vm_compute; reflexivity|]);
    (split; [apply includedb_incl; vm_compute; reflexivity|]);
    (split; [|reflexivity]);
    intros c Hc; cbn in Hc;
    repeat match goal with
           | Hor : _ \/ _ |- _ => destruct Hor as [Hor | Hor]
           | Heq : (_, false) = (_, true) |- _ => discriminate Heq
           | Heq : (_, true) = (_, true) |- _ => injection Heq as <-
           | Hf : False |- _ => destruct Hf
           end;
    (split; [cbn; repeat ((left; reflexivity) || right) | cbn; discriminate]).
Qed.

Lemma saved_record_fits_schema_witness :
  exists (data : row) (columns : list (string * bool)),
    save_analysis example_form = DatabaseSave "DC02" data /\
    schema_columns "dc02_analysis" schema = Some columns /\
    NoDup (keys data) /\ incl (keys data) (map fst columns).
Proof.
  assert (H : exists data, save_analysis example_form = DatabaseSave "DC02" data)
    by (eexists; vm_compute; reflexivity).
  destruct H as (data & H).
  destruct (saved_record_fits_schema example_form "DC02" data H)
    as (columns & Hs & Hd & Hi & _).
  exists data, columns. repeat split; assumption.
Defined.

(** ** Table names: what is saved is found again *)

(** X16.  The table that [save_analysis] writes for a test type of the
    catalogue is one of the tables that [get_all_results] reads, and every
    table it reads is the table of a test type.  The rows of that table are
    given the upper-cased name as test type, so the test-type filter of
    [get_all_results] selects, for a test type of the catalogue, exactly the
    table that was written for it. *)
Theorem tables_round_trip :
  (forall t : test_type, In (table_name (test_type_name t)) tables) /\
  (forall table, In table tables ->
                 exists t, table = table_name (test_type_name t)) /\
  (forall t : test_type,
      table_test_type (table_name (test_type_name t)) = upper (test_type_name t)) /\
  (forall t t' : test_type,
      table_selected (Some (test_type_name t')) (table_name (test_type_name t)) = true
      <-> t = t').
Proof.
  split; [intros []; vm_compute; tauto|].
  split.
  - intros table Ht. cbn [tables In] in Ht.
    destruct Ht as [<- | [<- | [<- | [<- | [<- | []]]]]];
      [exists DTT | exists DTR | exists DC02 | exists DC03_Skid | exists IDOD];
      vm_compute; reflexivity.
  - split; [intros []; vm_compute; reflexivity|].
    intros [] []; vm_compute; split; intro H; try reflexivity; discriminate H.
Qed.

(** ** [get_analytics_summary]: the breakdowns *)

Lemma value_eqb_refl (a : value) : value_eqb a a = true.
Proof.
  destruct a; cbn; auto using String.eqb_refl, Qeq_bool_refl, Z.eqb_refl.
  now rewrite !Z.eqb_refl.
Qed.

Lemma value_eqb_sym (a b : value) : value_eqb a b = value_eqb b a.
Proof.
  destruct a, b; cbn; auto using String.eqb_sym, Qeq_bool_comm, Z.eqb_sym.
  now rewrite (Z.eqb_sym day), (Z.eqb_sym second).
Qed.

Lemma value_eqb_trans (a b c : value) :
  value_eqb a b = true -> value_eqb b c = true -> value_eqb a c = true.
Proof.
  destruct a, b, c; cbn; try discriminate; auto.
  - intros H1 H2. apply String.eqb_eq in H1, H2. subst. apply String.eqb_refl.
  - apply Qeq_bool_trans.
  - intros H1 H2. apply Z.eqb_eq in H1, H2. subst. apply Z.eqb_refl.
  - intros H1 H2. apply andb_true_iff in H1, H2.
    destruct H1 as [H1 H1'], H2 as [H2 H2'].
    apply Z.eqb_eq in H1, H1', H2, H2'. subst. now rewrite !Z.eqb_refl.
Qed.

Lemma value_eqb_false_l (a b c : value) :
  value_eqb a b = true -> value_eqb a c = false -> value_eqb b c = false.
Proof.
  intros Hab Hac. destruct (value_eqb b c) eqn:E; [|reflexivity].
  rewrite (value_eqb_trans a b c Hab E) in Hac. discriminate Hac.
Qed.

Lemma has_key_false (k : value) (d : breakdown) :
  has_key k d = false <-> forall entry, In entry d -> value_eqb (fst entry) k = false.
Proof.
  unfold has_key. split.
  - intros H entry Hin. destruct (value_eqb (fst entry) k) eqn:E; [|reflexivity].
    assert (existsb (fun e => value_eqb (fst e) k) d = true)
      by (apply existsb_exists; eauto).
    congruence.
  - intro H. apply not_true_is_false. intro Hex.
    apply existsb_exists in Hex. destruct Hex as [entry [Hin E]].
    rewrite (H entry Hin) in E. discriminate E.
Qed.

Lemma has_key_app (k : value) (d1 d2 : breakdown) :
  has_key k (d1 ++ d2) = has_key k d1 || has_key k d2.
Proof. apply existsb_app. Qed.

Lemma has_key_equal (k k' : value) (d : breakdown) :
  value_eqb k k' = true -> has_key k d = has_key k' d.
Proof.
  intro Hk. unfold has_key. induction d as [|[k0 c] d IH]; [reflexivity|].
  cbn [existsb fst]. rewrite IH. f_equal.
  destruct (value_eqb k0 k) eqn:E.
  - symmetry. exact (value_eqb_trans _ _ _ E Hk).
  - destruct (value_eqb k0 k') eqn:E'; [|reflexivity].
    rewrite value_eqb_sym in Hk.
    rewrite (value_eqb_trans _ _ _ E' Hk) in E. discriminate E.
Qed.

(** With distinct names, [update] touches the one entry of that name. *)
Lemma update_modify (k : value) (f : counts -> counts) (d : breakdown) :
  distinct_names d -> update k f d = map (modify k f) d.
Proof.
  induction d as [|[k' c] d IH]; intro Hd; [reflexivity|].
  cbn [distinct_names fst] in Hd. destruct Hd as [Hk' Hd].
  cbn [update map]. unfold modify at 1. cbn [fst snd].
  destruct (value_eqb k' k) eqn:E.
  - f_equal. symmetry. rewrite <- (map_id d) at 2. apply map_ext_in.
    intros entry Hin. unfold modify.
    assert (H1 : value_eqb (fst entry) k' = false)
      by exact (proj1 (has_key_false k' d) Hk' entry Hin).
    destruct (value_eqb (fst entry) k) eqn:E2; [|reflexivity].
    rewrite value_eqb_sym in E.
    rewrite (value_eqb_trans _ _ _ E2 E) in H1. discriminate H1.
  - f_equal. now apply IH.
Qed.

Lemma fst_modify (k : value) (f : counts -> counts) (entry : value * counts) :
  fst (modify k f entry) = fst entry.
Proof. unfold modify. destruct (value_eqb (fst entry) k); reflexivity. Qed.

Lemma has_key_map_modify (k0 k : value) (f : counts -> counts) (d : breakdown) :
  has_key k0 (map (modify k f) d) = has_key k0 d.
Proof.
  unfold has_key. induction d as [|entry d IH]; [reflexivity|].
  cbn [map existsb]. now rewrite fst_modify, IH.
Qed.

Lemma distinct_map_modify (k : value) (f : counts -> counts) (d : breakdown) :
  distinct_names d -> distinct_names (map (modify k f) d).
Proof.
  induction d as [|entry d IH]; [auto|]. cbn [distinct_names map].
  intros [H1 H2]. rewrite fst_modify, has_key_map_modify. auto.
Qed.

Lemma distinct_new_name (k : value) (c : counts) (d : breakdown) :
  distinct_names d -> has_key k d = false -> distinct_names (d ++ [(k, c)]).
Proof.
  induction d as [|entry d IH]; intros Hd Hk.
  - cbn. auto.
  - cbn [distinct_names app] in *. destruct Hd as [H1 H2].
    unfold has_key in Hk. cbn [existsb] in Hk. apply orb_false_iff in Hk.
    destruct Hk as [Hentry Hk]. split.
    + rewrite has_key_app, H1. cbn. rewrite orb_false_r.
      rewrite value_eqb_sym. exact Hentry.
    + apply IH; assumption.
Qed.

Lemma modify_modify (k : value) (f g : counts -> counts) (entry : value * counts) :
  modify k g (modify k f entry) = modify k (fun c => g (f c)) entry.
Proof.
  unfold modify. destruct (value_eqb (fst entry) k) eqn:E; cbn [fst snd]; now rewrite E.
Qed.

(** The body of the loop, with distinct names: the entry of the row's name
    is created when it is missing, and that entry counts one more row. *)
Lemma tally_step_modify (key : string) (d : breakdown) (r : row) :
  distinct_names d ->
  let name := name_of key r in
  let d1 := if has_key name d then d else d ++ [(name, mk_counts 0 0 0)] in
  distinct_names d1 /\
  tally_step key d r = map (modify name (count_row (is_pass r))) d1.
Proof.
  intros Hd name d1.
  assert (Hd1 : distinct_names d1).
  { unfold d1. destruct (has_key name d) eqn:E; [exact Hd|].
    now apply distinct_new_name. }
  split; [exact Hd1|]. unfold tally_step. fold (name_of key r). fold name. fold d1.
  rewrite (update_modify name _ d1 Hd1).
  destruct (is_pass r);
    rewrite update_modify by (now apply distinct_map_modify);
    rewrite map_map; apply map_ext; intro entry; rewrite modify_modify;
    reflexivity.
Qed.

Lemma sum_total_app (d1 d2 : breakdown) :
  sum_total (d1 ++ d2) = (sum_total d1 + sum_total d2)%nat.
Proof.
  induction d1 as [|entry d1 IH]; [reflexivity|].
  cbn [app sum_total fold_right] in *. fold (sum_total (d1 ++ d2)).
  fold (sum_total d1). rewrite IH. lia.
Qed.

Lemma has_key_update (k0 k : value) (f : counts -> counts) (d : breakdown) :
  has_key k0 (update k f d) = has_key k0 d.
Proof.
  unfold has_key. induction d as [|[k' c] d IH]; [reflexivity|].
  cbn [update]. destruct (value_eqb k' k); cbn [existsb fst]; [reflexivity|].
  now rewrite IH.
Qed.

Lemma sum_total_update (k : value) (f : counts -> counts) (n : nat) (d : breakdown) :
  (forall c, total (f c) = (total c + n)%nat) ->
  has_key k d = true ->
  sum_total (update k f d) = (sum_total d + n)%nat.
Proof.
  intros Hf. induction d as [|[k' c] d IH]; intro Hk; [discriminate Hk|].
  unfold has_key in Hk. cbn [existsb fst] in Hk. cbn [update].
  destruct (value_eqb k' k) eqn:E.
  - cbn [sum_total fold_right snd]. rewrite Hf. fold (sum_total d). lia.
  - cbn [orb] in Hk. cbn [sum_total fold_right snd].
    fold (sum_total (update k f d)). fold (sum_total d). rewrite (IH Hk). lia.
Qed.

Lemma tally_step_sum (key : string) (d : breakdown) (r : row) :
  sum_total (tally_step key d r) = (sum_total d + 1)%nat.
Proof.
  unfold tally_step. set (name := get_or r key (VStr "Unknown")).
  set (d1 := if has_key name d then d else d ++ [(name, mk_counts 0 0 0)]).
  assert (H1 : has_key name d1 = true).
  { unfold d1. destruct (has_key name d) eqn:E; [exact E|].
    rewrite has_key_app, E. cbn. now rewrite value_eqb_refl. }
  assert (Hsum : sum_total d1 = sum_total d).
  { unfold d1. destruct (has_key name d); [reflexivity|].
    rewrite sum_total_app. cbn. lia. }
  destruct (is_pass r);
    rewrite (sum_total_update name _ 0) by
      (try (intro c; cbn; lia); now rewrite has_key_update);
    rewrite (sum_total_update name _ 1) by (try (intro c; cbn; lia); exact H1);
    lia.
Qed.

Lemma filter_none {A : Type} (f : A -> bool) (l : list A) :
  (forall x, In x l -> f x = false) -> filter f l = [].
Proof.
  induction l as [|a l IH]; intro H; [reflexivity|].
  cbn [filter]. rewrite (H a) by now left. apply IH. intros x Hx. apply H. now right.
Qed.

Lemma counts_of_snoc_same (key : string) (k : value) (rows : list row) (r : row) :
  value_eqb (name_of key r) k = true ->
  counts_of key k (rows ++ [r]) = count_row (is_pass r) (counts_of key k rows).
Proof.
  intro H. unfold counts_of, count_row. rewrite filter_app. cbn [filter].
  rewrite H, !filter_app. cbn [filter total passed failed].
  destruct (is_pass r); cbn [negb]; rewrite ?app_nil_r, !length_app;
    cbn [List.length]; reflexivity.
Qed.

Lemma counts_of_snoc_other (key : string) (k : value) (rows : list row) (r : row) :
  value_eqb (name_of key r) k = false ->
  counts_of key k (rows ++ [r]) = counts_of key k rows.
Proof.
  intro H. unfold counts_of. rewrite filter_app. cbn [filter].
  now rewrite H, app_nil_r.
Qed.

Lemma tally_step_tallied (key : string) (rows : list row) (d : breakdown) (r : row) :
  tallied key rows d -> tallied key (rows ++ [r]) (tally_step key d r).
Proof.
  intros (Hd & Hentries & Hcover & Hsum).
  destruct (tally_step_modify key d r Hd) as [Hd1 Hstep].
  set (name := name_of key r) in *.
  set (d1 := if has_key name d then d else d ++ [(name, mk_counts 0 0 0)]) in *.
  assert (Hin1 : forall entry, In entry d1 ->
             In entry d \/ (has_key name d = false /\ entry = (name, mk_counts 0 0 0))).
  { intros entry Hin. unfold d1 in Hin. destruct (has_key name d); [now left|].
    apply in_app_or in Hin. destruct Hin as [Hin | [<- | []]]; auto. }
  repeat split.
  - rewrite Hstep. now apply distinct_map_modify.
  - rewrite Hstep in H. apply in_map_iff in H. destruct H as [e [<- He]].
    unfold modify. destruct (Hin1 e He) as [Hold | [Hnew ->]].
    + destruct (Hentries e Hold) as [Hc _].
      destruct (value_eqb (fst e) name) eqn:E; cbn [fst snd].
      * rewrite Hc. symmetry. apply counts_of_snoc_same.
        rewrite value_eqb_sym. exact E.
      * rewrite Hc. symmetry. apply counts_of_snoc_other.
        rewrite value_eqb_sym. exact E.
    + cbn [fst snd]. rewrite value_eqb_refl. cbn [fst snd].
      rewrite counts_of_snoc_same by apply value_eqb_refl. f_equal.
      unfold counts_of. rewrite filter_none; [reflexivity|].
      intros r' Hr'. destruct (value_eqb (name_of key r') name) eqn:E; [|reflexivity].
      rewrite <- (has_key_equal _ _ d E), (Hcover r' Hr') in Hnew. discriminate Hnew.
  - rewrite Hstep in H. apply in_map_iff in H. destruct H as [e [<- He]].
    unfold modify. destruct (Hin1 e He) as [Hold | [Hnew ->]].
    + destruct (Hentries e Hold) as [_ Hone].
      destruct (value_eqb (fst e) name); cbn [fst snd]; [|exact Hone].
      unfold count_row. destruct (is_pass r); cbn [total]; lia.
    + cbn [fst snd]. rewrite value_eqb_refl. cbn [snd].
      unfold count_row. destruct (is_pass r); cbn [total]; lia.
  - intros r' Hr'. rewrite Hstep, has_key_map_modify.
    assert (Hsub : forall k, has_key k d = true -> has_key k d1 = true).
    { intros k Hk. unfold d1. destruct (has_key name d); [exact Hk|].
      now rewrite has_key_app, Hk. }
    apply in_app_or in Hr'. destruct Hr' as [Hr' | [<- | []]].
    + apply Hsub. now apply Hcover.
    + fold name. unfold d1. destruct (has_key name d) eqn:E; [exact E|].
      rewrite has_key_app, E. cbn. now rewrite value_eqb_refl.
  - rewrite tally_step_sum, length_app, Hsum. reflexivity.
Qed.

Lemma fold_tallied (key : string) (more : list row) :
  forall rows d, tallied key rows d ->
                 tallied key (rows ++ more) (fold_left (tally_step key) more d).
Proof.
  induction more as [|r more IH]; intros rows d H.
  - now rewrite app_nil_r.
  - cbn [fold_left]. replace (rows ++ r :: more) with ((rows ++ [r]) ++ more)
      by (now rewrite <- app_assoc).
    apply IH. now apply tally_step_tallied.
Qed.

Lemma tally_tallied (key : string) (results : list row) :
  tallied key results (tally key results).
Proof.
  apply (fold_tallied key results [] []).
  split; [exact I|]. split; [intros ? []|]. split; [intros ? [] | reflexivity].
Qed.

(** ** [get_analytics_summary]: rates, recent rows, parameter statistics *)

Lemma percentage_bounds (part whole : nat) :
  (part <= whole)%nat -> (0 < whole)%nat ->
  0 <= percentage part whole /\ percentage part whole <= 100.
Proof.
  intros Hle Hpos. unfold percentage.
  assert (Hw : 0 < inject_Z (Z.of_nat whole))
    by (change 0 with (inject_Z 0); rewrite <- Zlt_Qlt; lia).
  assert (Hp : 0 <= inject_Z (Z.of_nat part))
    by (change 0 with (inject_Z 0); rewrite <- Zle_Qle; lia).
  assert (Hpw : inject_Z (Z.of_nat part) <= inject_Z (Z.of_nat whole))
    by (rewrite <- Zle_Qle; lia).
  split.
  - apply Qmult_le_0_compat; [|discriminate].
    apply Qle_shift_div_l; [exact Hw | now rewrite Qmult_0_l].
  - setoid_replace 100 with (1 * 100) at 2 by reflexivity.
    apply Qmult_le_compat_r; [|discriminate].
    apply Qle_shift_div_r; [exact Hw | now rewrite Qmult_1_l].
Qed.

Lemma get_or_present (r : row) (key : string) (d v : value) :
  get_or r key d = v -> v <> d -> forall d', get_or r key d' = v.
Proof.
  induction r as [|[k w] r IH]; cbn [get_or]; intros H Hne d'; [congruence|].
  destruct (String.eqb k key); [exact H | now apply IH].
Qed.

Lemma filter_attempt_total {A : Type} (cond : A -> attempt bool) (l : list A) :
  (forall x, In x l -> exists b, cond x = Returns b) ->
  exists kept, filter_attempt cond l = Returns kept
               /\ (List.length kept <= List.length l)%nat /\ incl kept l.
Proof.
  induction l as [|x l IH]; intro H.
  - exists []. repeat split; [apply Nat.le_refl | intros ? []].
  - destruct (H x (or_introl eq_refl)) as [b Hb].
    destruct (IH (fun y Hy => H y (or_intror Hy))) as (kept & Hk & Hlen & Hincl).
    cbn [filter_attempt]. rewrite Hb, Hk. cbn [and_then].
    exists (if b then x :: kept else kept). split; [reflexivity|].
    destruct b; cbn [List.length]; split; try lia.
    + intros y [<- | Hy]; [now left | right; now apply Hincl].
    + intros y Hy. right. now apply Hincl.
Qed.

Lemma is_recent_typed (recent_date : Z) (r : row) :
  date_or_null (get_or r "test_date" VNone) ->
  exists b, is_recent recent_date r = Returns b.
Proof.
  unfold is_recent. intros [-> | [day ->]]; cbn; eauto.
Qed.

Section SummaryProofs.

Variable float : string -> option Q.
Variable np_mean : list Q -> Q.
Variable np_std : list Q -> Q.

Lemma parameter_values_typed (key : string) (results : list row) :
  (forall r, In r results -> number_or_null (get_or r key VNone)) ->
  parameter_values float key results = Returns (counted_values key results).
Proof.
  induction results as [|r rest IH]; intro H; [reflexivity|].
  cbn [parameter_values counted_values flat_map].
  fold (counted_values key rest).
  rewrite (IH (fun x Hx => H x (or_intror Hx))).
  destruct (H r (or_introl eq_refl)) as [Hnone | [q Hq]].
  - rewrite Hnone. reflexivity.
  - rewrite Hq. cbn [truthy_value]. destruct (Qeq_bool q 0); [reflexivity|].
    rewrite (get_or_present r key VNone (VNum q) Hq ltac:(discriminate)).
    reflexivity.
Qed.

Lemma counted_values_nonzero (key : string) (results : list row) :
  forall v, In v (counted_values key results) -> ~ v == 0.
Proof.
  intros v Hv. unfold counted_values in Hv. apply in_flat_map in Hv.
  destruct Hv as [r [_ Hv]]. destruct (get_or r key VNone); try destruct Hv.
  destruct (Qeq_bool q 0) eqn:E; [destruct Hv|].
  destruct Hv as [<- | []]. now apply Qeq_bool_neq.
Qed.

Lemma stats_of_total (values : list Q) :
  exists st,
    stats_of np_mean np_std values = Returns st /\
    (values = [] -> st = mk_stats 0 0 0 0) /\
    (values <> [] ->
     is_minimum values (stat_min st) /\ is_maximum values (stat_max st) /\
     stat_mean st = np_mean values /\ stat_std st = np_std values).
Proof.
  destruct values as [|x l].
  - eexists. split; [reflexivity|]. split; [reflexivity | congruence].
  - eexists. split; [reflexivity|]. split; [discriminate|]. intros _.
    cbn [stat_min stat_max stat_mean stat_std].
    split; [apply min_is_minimum|]. split; [apply max_is_maximum|].
    split; reflexivity.
Qed.

(** On typed rows the summary is returned, and its fields are as follows. *)
Lemma summary_returns (r : row) (rest : list row) (today : Z) :
  (forall x, In x (r :: rest) -> typed_row x) ->
  exists (s : summary) (recent : list row),
    get_analytics_summary float np_mean np_std (r :: rest) today = Returns (Some s) /\
    total_tests s = List.length (r :: rest) /\
    pass_count s = List.length (filter is_pass (r :: rest)) /\
    fail_count s = (total_tests s - pass_count s)%nat /\
    pass_rate s = percentage (pass_count s) (total_tests s) /\
    incl recent (r :: rest) /\
    (List.length recent <= List.length (r :: rest))%nat /\
    recent_tests s = List.length recent /\
    recent_pass_rate s
    = match recent with
      | [] => 0
      | _ => percentage (List.length (filter is_pass recent)) (List.length recent)
      end /\
    stats_of np_mean np_std (counted_values "peak_to_peak_mv" (r :: rest))
    = Returns (peak_to_peak_stats s) /\
    stats_of np_mean np_std (counted_values "trigger_current_a" (r :: rest))
    = Returns (trigger_current_stats s) /\
    stats_of np_mean np_std (counted_values "noise_mv" (r :: rest))
    = Returns (noise_stats s).
Proof.
  intro Htyped. unfold get_analytics_summary.
  destruct (filter_attempt_total (is_recent (today - 30)) (r :: rest))
    as (recent & Hrecent & Hlen & Hincl).
  { intros x Hx. apply is_recent_typed. now destruct (Htyped x Hx). }
  rewrite Hrecent. cbn [and_then].
  rewrite !parameter_values_typed
    by (intros x Hx; destruct (Htyped x Hx) as (_ & H1 & H2 & H3); assumption).
  cbn [and_then].
  destruct (stats_of_total (counted_values "peak_to_peak_mv" (r :: rest)))
    as (st1 & H1 & _).
  destruct (stats_of_total (counted_values "trigger_current_a" (r :: rest)))
    as (st2 & H2 & _).
  destruct (stats_of_total (counted_values "noise_mv" (r :: rest)))
    as (st3 & H3 & _).
  rewrite H1, H2, H3. cbn [and_then].
  eexists. exists recent. split; [reflexivity|].
  cbn [total_tests pass_count fail_count pass_rate recent_tests recent_pass_rate
       peak_to_peak_stats trigger_current_stats noise_stats].
  repeat split; try reflexivity; assumption.
Qed.

End SummaryProofs.

Lemma example_rows_typed : forall x, In x example_rows -> typed_row x.
Proof.
  intros x Hx. cbn [example_rows In] in Hx.
  destruct Hx as [<- | [<- | [<- | [<- | []]]]];
    repeat split; cbn; try (right; eexists; reflexivity); now left.
Qed.

(** X17.  The summary of no rows is the empty dictionary.  On rows typed as
    the schema types them the summary is returned, and in it [total_tests]
    is the number of rows, [pass_count] the number of rows whose
    [pass_fail] is ['pass'], [pass_count + fail_count = total_tests], the
    recent rows are at most the rows, and both pass rates lie between 0 and
    100. *)
Theorem summary_counts (float : string -> option Q)
    (np_mean np_std : list Q -> Q)
    (r : row) (rest : list row) (today : Z) :
  (forall x, In x (r :: rest) -> typed_row x) ->
  get_analytics_summary float np_mean np_std [] today = Returns None /\
  exists s : summary,
    get_analytics_summary float np_mean np_std (r :: rest) today = Returns (Some s) /\
    total_tests s = List.length (r :: rest) /\
    pass_count s = List.length (filter is_pass (r :: rest)) /\
    (pass_count s + fail_count s = total_tests s)%nat /\
    0 <= pass_rate s /\ pass_rate s <= 100 /\
    (recent_tests s <= total_tests s)%nat /\
    0 <= recent_pass_rate s /\ recent_pass_rate s <= 100.
Proof.
  intro Htyped. split; [reflexivity|].
  destruct (summary_returns float np_mean np_std r rest today Htyped)
    as (s & recent & Hs & Ht & Hp & Hf & Hrate & _ & Hlen & Hrt & Hrr & _).
  exists s. split; [exact Hs|]. split; [exact Ht|]. split; [exact Hp|].
  assert (Hle : (pass_count s <= total_tests s)%nat)
    by (rewrite Hp, Ht; apply filter_length_le).
  assert (Hpos : (0 < total_tests s)%nat) by (rewrite Ht; cbn; lia).
  split; [lia|].
  destruct (percentage_bounds _ _ Hle Hpos) as [H0 H100]. rewrite Hrate.
  split; [exact H0|]. split; [exact H100|].
  split; [rewrite Hrt, Ht; exact Hlen|].
  rewrite Hrr. destruct recent as [|x recent]; [split; discriminate|].
  apply percentage_bounds; [apply filter_length_le | cbn; lia].
Qed.

Lemma summary_counts_witness :
  exists s : summary,
    get_analytics_summary decimal_float exact_mean approx_std example_rows 739020
    = Returns (Some s) /\
    total_tests s = 4%nat /\ pass_count s = 2%nat /\ fail_count s = 2%nat /\
    recent_tests s = 3%nat.
Proof.
  destruct (summary_counts decimal_float exact_mean approx_std
              (hd [] example_rows) (tl example_rows) 739020 example_rows_typed)
    as (_ & s & Hs & _).
  exists s. split; [exact Hs|].
  vm_compute in Hs. injection Hs as <-. repeat split.
Defined.

Lemma summary_breakdowns (float : string -> option Q)
    (np_mean np_std : list Q -> Q)
    (results : list row) (today : Z) (s : summary) :
  get_analytics_summary float np_mean np_std results today = Returns (Some s) ->
  total_tests s = List.length results /\
  test_types s = tally "test_type" results /\
  testers s = tally "tester_id" results /\
  test_benches s = tally "test_bench" results.
Proof.
  unfold get_analytics_summary. destruct results as [|r rest]; [discriminate|].
  destruct (filter_attempt _ _); cbn [and_then]; [|discriminate].
  repeat (match goal with
          | |- context [and_then ?c _] => destruct c; cbn [and_then]; [|discriminate]
          end).
  intro H. injection H as <-. repeat split.
Qed.

Lemma counts_of_split (key : string) (k : value) (rows : list row) :
  total (counts_of key k rows)
  = (passed (counts_of key k rows) + failed (counts_of key k rows))%nat.
Proof. unfold counts_of. cbn [total passed failed]. symmetry. apply filter_length. Qed.

(** X18.  In a summary that is returned, each of the three breakdowns (by
    test type, by tester, by test bench) has one entry per distinct name,
    every row is counted under its name (['Unknown'] when the row lacks
    the column), the entry of a name holds the number of rows of that name
    and how many of them passed and did not, so [total = pass + fail] and
    [total >= 1], the pass rate shown for it lies between 0 and 100, and
    the totals of a breakdown add up to [total_tests]. *)
Theorem breakdowns_count_rows (float : string -> option Q)
    (np_mean np_std : list Q -> Q)
    (results : list row) (today : Z) (s : summary) :
  get_analytics_summary float np_mean np_std results today = Returns (Some s) ->
  forall (key : string) (d : breakdown),
    In (key, d) [ ("test_type"%string, test_types s);
                  ("tester_id"%string, testers s);
                  ("test_bench"%string, test_benches s) ] ->
    distinct_names d /\
    (forall r, In r results -> has_key (name_of key r) d = true) /\
    (forall entry, In entry d ->
        snd entry = counts_of key (fst entry) results /\
        total (snd entry) = (passed (snd entry) + failed (snd entry))%nat /\
        (1 <= total (snd entry))%nat /\
        0 <= entry_pass_rate (snd entry) /\ entry_pass_rate (snd entry) <= 100) /\
    sum_total d = total_tests s.
Proof.
  intros Hs key d Hin.
  destruct (summary_breakdowns float np_mean np_std results today s Hs)
    as (Ht & H1 & H2 & H3).
  assert (Hd : d = tally key results).
  { destruct Hin as [H | [H | [H | []]]]; injection H as <- <-; assumption. }
  subst d. destruct (tally_tallied key results) as (Hdist & Hentries & Hcover & Hsum).
  split; [exact Hdist|]. split; [exact Hcover|]. split; [|now rewrite Hsum, Ht].
  intros entry He. destruct (Hentries entry He) as [Hc Hone].
  split; [exact Hc|].
  assert (Hsplit : total (snd entry) = (passed (snd entry) + failed (snd entry))%nat)
    by (rewrite Hc; apply counts_of_split).
  split; [exact Hsplit|]. split; [exact Hone|].
  unfold entry_pass_rate.
  replace (0 <? total (snd entry)) with true by (symmetry; apply Nat.ltb_lt; lia).
  apply percentage_bounds; lia.
Qed.

Lemma breakdowns_count_rows_witness :
  exists s : summary,
    get_analytics_summary decimal_float exact_mean approx_std example_rows 739020
    = Returns (Some s) /\
    testers s = [ (VStr "ann", mk_counts 3 2 1); (VStr "bob", mk_counts 1 0 1) ] /\
    sum_total (testers s) = total_tests s.
Proof.
  assert (H : exists s, get_analytics_summary decimal_float exact_mean approx_std
                          example_rows 739020 = Returns (Some s))
    by (eexists; vm_compute; reflexivity).
  destruct H as [s Hs]. exists s. split; [exact Hs|].
  destruct (breakdowns_count_rows decimal_float exact_mean approx_std example_rows 739020 s Hs
              "tester_id" (testers s) ltac:(right; left; reflexivity))
    as (_ & _ & _ & Hsum).
  split; [|exact Hsum].
  vm_compute in Hs. injection Hs as <-. reflexivity.
Defined.

(** X19.  On typed rows, the statistics of each measured parameter are
    taken over the numbers of its column other than zero: a missing, NULL
    or zero measurement is left out.  With no such number all four
    statistics are 0; otherwise [min] and [max] are the least and greatest
    of them, and [mean] and [std] are [np.mean] and [np.std] of them. *)
Theorem parameter_statistics (float : string -> option Q)
    (np_mean np_std : list Q -> Q)
    (r : row) (rest : list row) (today : Z) :
  (forall x, In x (r :: rest) -> typed_row x) ->
  exists s : summary,
    get_analytics_summary float np_mean np_std (r :: rest) today = Returns (Some s) /\
    forall (key : string) (st : parameter_stats),
      In (key, st) [ ("peak_to_peak_mv"%string, peak_to_peak_stats s);
                     ("trigger_current_a"%string, trigger_current_stats s);
                     ("noise_mv"%string, noise_stats s) ] ->
      let values := counted_values key (r :: rest) in
      (forall v, In v values -> ~ v == 0) /\
      (values = [] -> st = mk_stats 0 0 0 0) /\
      (values <> [] ->
       is_minimum values (stat_min st) /\ is_maximum values (stat_max st) /\
       stat_mean st = np_mean values /\ stat_std st = np_std values).
Proof.
  intro Htyped.
  destruct (summary_returns float np_mean np_std r rest today Htyped)
    as (s & recent & Hs & _ & _ & _ & _ & _ & _ & _ & _ & H1 & H2 & H3).
  exists s. split; [exact Hs|]. intros key st Hin values.
  assert (Hst : stats_of np_mean np_std values = Returns st).
  { destruct Hin as [H | [H | [H | []]]]; injection H as <- <-; assumption. }
  split; [apply counted_values_nonzero|].
  destruct (stats_of_total np_mean np_std values) as (st' & Hst' & Hempty & Hsome).
  rewrite Hst in Hst'. injection Hst' as <-.
  split; [exact Hempty|]. intro Hne.
  exact (Hsome Hne).
Qed.

Lemma parameter_statistics_witness :
  exists s : summary,
    get_analytics_summary decimal_float exact_mean approx_std example_rows 739020
    = Returns (Some s) /\
    counted_values "noise_mv" example_rows = [2; 4; 6] /\
    stat_min (noise_stats s) = 2 /\ stat_max (noise_stats s) = 6 /\
    stat_mean (noise_stats s) = exact_mean [2; 4; 6] /\
    stat_std (noise_stats s) = approx_std [2; 4; 6].
Proof.
  destruct (parameter_statistics decimal_float exact_mean approx_std
              (hd [] example_rows) (tl example_rows) 739020 example_rows_typed)
    as (s & Hs & Hstats).
  exists s. split; [exact Hs|]. split; [reflexivity|].
  destruct (Hstats "noise_mv"%string (noise_stats s)
              ltac:(right; right; left; reflexivity))
    as (_ & _ & Hsome).
  destruct (Hsome ltac:(discriminate)) as (_ & _ & Hmean & Hstd).
  split; [|split; [|split; [exact Hmean | exact Hstd]]];
    vm_compute in Hs; injection Hs as <-; reflexivity.
Defined.
